(** * Consensus clustering (Monti et al.) : the [ConsensusCluster] engine

    A shallow embedding of [src/algorithms/monti.py] and the properties of
    its consensus matrices, stability curve and best-K selection.

    Conventions of the embedding.
    - Python integers are [Z]; row indices (values drawn from [range(N)]) and
      positions in arrays are [nat].
    - NumPy [float64] arrays hold exact rationals [Q]; arithmetic is the exact
      one and numbers are compared with [Qeq].  The constant [1e-8] is the
      rational [1/10^8].
    - A raised exception is a value [Raise e] of the [result] type; loops
      stop at the first exception, as in Python.
    - The random draws of [util.resample] and the labels returned by the
      clustering primitive are read from an oracle indexed by the candidate
      count and the trial number; [util.resample] lives in the module
      [util], outside [monti.py].
    - [np.argsort] is a parameter of the engine, constrained by its contract
      only, because the order it gives to equal labels is not specified.
    - The other external calls ([AgglomerativeClustering], the silhouette
      score and the metrics of [src/algorithms.py]) are parameters that
      return a value or raise. *)

From Stdlib Require Import List ZArith QArith Qminmax Qround Lia Lqa Bool Arith.
From Stdlib Require Import Permutation Sorted.
Import ListNotations.

(** ** Python: exceptions, loops, [range], [itertools.combinations], [bisect] *)

Module Py.

Inductive exn : Set :=
| AssertionError
| IndexError
| ValueError
| TypeError.

Inductive result (A : Type) : Type :=
| Ok (a : A)
| Raise (e : exn).

Arguments Ok {A} a.
Arguments Raise {A} e.

Definition bind {A B : Type} (r : result A) (f : A -> result B) : result B :=
  match r with
  | Ok a => f a
  | Raise e => Raise e
  end.

Definition is_ok {A : Type} (r : result A) : bool :=
  match r with
  | Ok _ => true
  | Raise _ => false
  end.

(** [range(lo, hi)]; empty when [hi <= lo]. *)
Definition range (lo hi : Z) : list Z :=
  map (fun i => (lo + Z.of_nat i)%Z) (seq 0 (Z.to_nat (hi - lo))).

(** [for x in xs: s = body(x, s)], leaving the loop at the first exception. *)
Fixpoint for_each {A S : Type} (xs : list A) (body : A -> S -> result S) (s : S)
  : result S :=
  match xs with
  | [] => Ok s
  | x :: xs' => bind (body x s) (for_each xs' body)
  end.

(** [list(itertools.combinations(l, 2))]: the pairs [(l[i], l[j])], [i < j],
    in lexicographic order of positions. *)
Fixpoint combinations2 {A : Type} (l : list A) : list (A * A) :=
  match l with
  | [] => []
  | x :: t => map (pair x) t ++ combinations2 t
  end.

(** [bisect.bisect_left(a, x)], the binary search of the standard library:
    [while lo < hi: mid = (lo + hi) // 2;
     if a[mid] < x: lo = mid + 1 else: hi = mid].
    The interval [[lo, hi)] shrinks at every turn, so [len(a)] turns are
    enough to leave the loop; [bisect_left_loop_inv] below proves it for the
    sorted arrays the engine passes. *)
Fixpoint bisect_left_loop (turns : nat) (a : list Z) (x : Z) (lo hi : nat)
  : nat :=
  match turns with
  | O => lo
  | S turns' =>
      if Nat.ltb lo hi then
        let mid := ((lo + hi) / 2)%nat in
        if (nth mid a 0 <? x)%Z
        then bisect_left_loop turns' a x (S mid) hi
        else bisect_left_loop turns' a x lo mid
      else lo
  end.

Definition bisect_left (a : list Z) (x : Z) : nat :=
  bisect_left_loop (length a) a x 0 (length a).

(** [bisect.bisect_right(a, x)]:
    [if x < a[mid]: hi = mid else: lo = mid + 1]. *)
Fixpoint bisect_right_loop (turns : nat) (a : list Z) (x : Z) (lo hi : nat)
  : nat :=
  match turns with
  | O => lo
  | S turns' =>
      if Nat.ltb lo hi then
        let mid := ((lo + hi) / 2)%nat in
        if (x <? nth mid a 0)%Z
        then bisect_right_loop turns' a x lo mid
        else bisect_right_loop turns' a x (S mid) hi
      else lo
  end.

Definition bisect_right (a : list Z) (x : Z) : nat :=
  bisect_right_loop (length a) a x 0 (length a).

(** The slice [l[ia:ib]]. *)
Definition slice {A : Type} (ia ib : nat) (l : list A) : list A :=
  skipn ia (firstn ib l).

(** [zip(xs, ys, zs)], as long as the shortest argument. *)
Fixpoint zip3 {A B C : Type} (xs : list A) (ys : list B) (zs : list C)
  : list (A * B * C) :=
  match xs, ys, zs with
  | x :: xs', y :: ys', z :: zs' => (x, y, z) :: zip3 xs' ys' zs'
  | _, _, _ => []
  end.

(** The builtin [sum] of a sequence of numbers. *)
Definition sum (l : list Q) : Q := fold_left Qplus l 0.

End Py.

Import Py.

Notation "x <- r ;; k" := (Py.bind r (fun x => k))
  (at level 61, r at next level, right associativity).
Notation "' p <- r ;; k" := (Py.bind r (fun p => k))
  (at level 61, p pattern, r at next level, right associativity).

(** ** NumPy: square arrays, fancy indexing, [argsort], [histogram], [argmax] *)

Module Np.

(** An [N] x [N] array, row by row. *)
Definition matrix : Type := list (list Q).

Definition tabulate (N : nat) (f : nat -> nat -> Q) : matrix :=
  map (fun a => map (f a) (seq 0 N)) (seq 0 N).

(** [m[a, b]] for in-range indices. *)
Definition entry (m : matrix) (a b : nat) : Q := nth b (nth a m []) 0.

(** [np.zeros((N, N))]. *)
Definition zeros (N : nat) : matrix := tabulate N (fun _ _ => 0).

(** [np.eye(N)]. *)
Definition eye (N : nat) : matrix :=
  tabulate N (fun a b => if Nat.eqb a b then 1 else 0).

(** [m.T]. *)
Definition transpose (N : nat) (m : matrix) : matrix :=
  tabulate N (fun a b => entry m b a).

(** [x + y], elementwise. *)
Definition add (N : nat) (x y : matrix) : matrix :=
  tabulate N (fun a b => entry x a b + entry y a b).

(** [x / y], elementwise. *)
Definition div (N : nat) (x y : matrix) : matrix :=
  tabulate N (fun a b => entry x a b / entry y a b).

(** [m + c] for a scalar [c]. *)
Definition add_scalar (N : nat) (m : matrix) (c : Q) : matrix :=
  tabulate N (fun a b => entry m a b + c).

(** [m.ravel()], row-major. *)
Definition ravel (m : matrix) : list Q := concat m.

Definition pair_eqb (p q : nat * nat) : bool :=
  Nat.eqb (fst p) (fst q) && Nat.eqb (snd p) (snd q).

Definition pair_in (p : nat * nat) (ps : list (nat * nat)) : bool :=
  existsb (pair_eqb p) ps.

Definition in_bounds (N : nat) (ps : list (nat * nat)) : bool :=
  forallb (fun p => Nat.ltb (fst p) N && Nat.ltb (snd p) N) ps.

(** [m[rows, cols] += 1] where [rows] and [cols] are the two columns of
    [ps].  NumPy reads the selected cells, adds one and writes them back, so
    a cell selected several times is still incremented once; an index out of
    range raises [IndexError]. *)
Definition fancy_incr (N : nat) (m : matrix) (ps : list (nat * nat))
  : result matrix :=
  if in_bounds N ps
  then Ok (tabulate N (fun a b =>
             if pair_in (a, b) ps then entry m a b + 1 else entry m a b))
  else Raise IndexError.

(** [arr[idx]] for a 1-d array [arr] and an array of positions [idx];
    a position out of range raises [IndexError]. *)
Fixpoint take {A : Type} (arr : list A) (idx : list nat) : result (list A) :=
  match idx with
  | [] => Ok []
  | p :: idx' =>
      match nth_error arr p with
      | Some x => xs <- take arr idx' ;; Ok (x :: xs)
      | None => Raise IndexError
      end
  end.

(** [np.argsort(keys)] returns the positions [0 .. len-1] in an order that
    sorts the keys.  Its default sort is not stable, so the order among
    equal keys is left open: the engine is parameterised by the function and
    the properties assume this contract only. *)
Definition argsort_contract (argsort : list Z -> list nat) : Prop :=
  forall keys,
    Permutation (argsort keys) (seq 0 (length keys))
    /\ StronglySorted Z.le (map (fun p => nth p keys 0%Z) (argsort keys)).

(** One function that meets the contract: insertion of the positions by
    key, equal keys kept in increasing order of position. *)
Fixpoint insert_by (key : nat -> Z) (p : nat) (l : list nat) : list nat :=
  match l with
  | [] => [p]
  | q :: l' => if (key p <=? key q)%Z then p :: l else q :: insert_by key p l'
  end.

Definition stable_argsort (keys : list Z) : list nat :=
  fold_right (insert_by (fun p => nth p keys 0%Z)) [] (seq 0 (length keys)).

(** [len(np.unique(l))]. *)
Definition n_unique (l : list Z) : Z := Z.of_nat (length (nodup Z.eq_dec l)).

(** [np.cumsum]. *)
Fixpoint cumsum_from (acc : Q) (l : list Q) : list Q :=
  match l with
  | [] => []
  | x :: t => (acc + x) :: cumsum_from (acc + x) t
  end.

Definition cumsum (l : list Q) : list Q := cumsum_from 0 l.

(** [np.argmax]: position of the first maximal element, [0] on the empty
    array never being used by the source. *)
Fixpoint argmax_from (best_i : nat) (best : Q) (i : nat) (l : list Q) : nat :=
  match l with
  | [] => best_i
  | x :: t =>
      if Qle_bool x best
      then argmax_from best_i best (S i) t
      else argmax_from i x (S i) t
  end.

Definition argmax (l : list Q) : nat :=
  match l with
  | [] => 0
  | x :: t => argmax_from 0 x 1 t
  end.

(** *** [np.histogram(a, density=True)] with its default of 10 bins *)

Definition n_bins : nat := 10.

(** The histogram range: [(a.min(), a.max())], widened by one half on each
    side when both coincide, and [(0, 1)] for an empty array. *)
Definition outer_edges (a : list Q) : Q * Q :=
  match a with
  | [] => (0, 1)
  | x :: t =>
      let lo := fold_left Qmin t x in
      let hi := fold_left Qmax t x in
      if Qeq_bool lo hi then (lo - (1 # 2), hi + (1 # 2)) else (lo, hi)
  end.

(** [np.linspace(lo, hi, n_bins + 1)]. *)
Definition bin_edges (lo hi : Q) : list Q :=
  map (fun j => if Nat.eqb j n_bins then hi
                else lo + inject_Z (Z.of_nat j) * ((hi - lo) / inject_Z (Z.of_nat n_bins)))
      (seq 0 (S n_bins)).

(** The bin of a value: bins are closed on the left and open on the right,
    except the last one, which is closed. *)
Definition bin_index (lo hi x : Q) : nat :=
  let f := Z.to_nat (Qfloor ((x - lo) / (hi - lo) * inject_Z (Z.of_nat n_bins))) in
  if Nat.eqb f n_bins then n_bins - 1 else f.

Definition bin_counts (lo hi : Q) (a : list Q) : list Q :=
  map (fun j => inject_Z (Z.of_nat
                 (length (filter (fun x => Nat.eqb (bin_index lo hi x) j) a))))
      (seq 0 n_bins).

(** [np.diff]. *)
Definition diff (l : list Q) : list Q :=
  map (fun '(b, a) => b - a) (combine (tl l) l).

(** Returns [(hist, bins)] with [hist = n / db / n.sum()]. *)
Definition histogram (a : list Q) : list Q * list Q :=
  let '(lo, hi) := outer_edges a in
  let bins := bin_edges lo hi in
  let n := bin_counts lo hi a in
  let db := diff bins in
  let total := Py.sum n in
  (map (fun '(c, w) => c / w / total) (combine n db), bins).

End Np.

(** ** The engine of [src/algorithms/monti.py] *)

Module Monti.

Import Np.

(** The guard [1e-8] of the normalising denominator. *)
Definition eps : Q := 1 # 100000000.

(** The data matrix: [N] rows of features; only [data.shape[0]] is read. *)
Definition dataset : Type := list (list Q).

Definition shape0 (data : dataset) : nat := length data.

(** What one resampling trial hands to the engine: the row indices returned
    by [util.resample] and the labels [Mh] returned by the clustering
    primitive on the resampled rows. *)
Record Trial : Type := mkTrial {
  resampled_indices : list nat;
  Mh : list Z
}.

(** Arrays of the dimensions the attribute [Mk] can have. *)
Inductive ndarray : Type :=
| Arr0 (x : Q)
| Arr1 (v : list Q)
| Arr2 (m : matrix)
| Arr3 (t : list matrix).

(** The attributes of a [ConsensusCluster] object; [None] is Python's
    [None] (and, for [X], an attribute not yet assigned). *)
Record engine (C : Type) : Type := mkEngine {
  cluster_ : C;
  resample_proportion_ : Q;
  L_ : Z;
  K_ : Z;
  H_ : Z;
  Mk : option ndarray;
  Ak : option (list Q);
  deltaK : option (list Q);
  bestK : option Z;
  X : option dataset
}.

Arguments mkEngine {C}.
Arguments cluster_ {C}.
Arguments resample_proportion_ {C}.
Arguments L_ {C}.
Arguments K_ {C}.
Arguments H_ {C}.
Arguments Mk {C}.
Arguments Ak {C}.
Arguments deltaK {C}.
Arguments bestK {C}.
Arguments X {C}.

(** [ConsensusCluster.__init__] *)
Definition init {C : Type} (cluster : C) (L K H : Z) (resample_proportion : Q)
  : result (engine C) :=
  if Qle_bool 0 resample_proportion && Qle_bool resample_proportion 1
  then Ok (mkEngine cluster resample_proportion L K H None None None None None)
  else Raise AssertionError.

Section Engine.

(** [np.argsort], see [Np.argsort_contract]. *)
Variable argsort : list Z -> list nat.

(** The body of [for i in range(k)]: the pairs of the [i]-th cluster are
    added to the accumulator [M]. *)
Definition accumulate_cluster (N : nat) (resampled : list nat)
  (id_clusts : list nat) (sorted_ : list Z) (i : Z) (M : matrix)
  : result matrix :=
  let ia := bisect_left sorted_ i in
  let ib := bisect_right sorted_ i in
  let cluster_indices := slice ia ib id_clusts in
  is_ <- take resampled cluster_indices ;;
  let ids_ := combinations2 is_ in
  match ids_ with
  | [] => Ok M
  | _ :: _ => fancy_incr N M ids_
  end.

(** The body of [for h in range(self.H_)], from the sort of the labels to
    the update of [Is].  [fit] and [fit_from_cfg] repeat the same lines and
    differ in the number of clusters they loop over, given here by [nclust]
    applied to the sorted labels.  With fewer than two resampled rows
    [ids_2] is empty and [ids_2[0]] raises [IndexError]. *)
Definition trial_step (N : nat) (nclust : list Z -> Z) (t : Trial)
  (s : matrix * matrix) : result (matrix * matrix) :=
  let '(M, Is) := s in
  let id_clusts := argsort (Mh t) in
  let sorted_ := map (fun p => nth p (Mh t) 0%Z) id_clusts in
  M' <- for_each (range 0 (nclust sorted_))
          (accumulate_cluster N (resampled_indices t) id_clusts sorted_) M ;;
  let ids_2 := combinations2 (resampled_indices t) in
  match ids_2 with
  | [] => Raise IndexError
  | _ :: _ => Is' <- fancy_incr N Is ids_2 ;; Ok (M', Is')
  end.

(** The lines after the trials: [Is += Is.T], [Mk /= Is + 1e-8],
    [Mk += Mk.T], [Mk += np.eye(N)], [Is.fill(0)].  In the two in-place
    additions of a transpose NumPy reads the operand as it was before the
    statement. *)
Definition finalize (N : nat) (M Is : matrix) : matrix * matrix :=
  let Is1 := add N Is (transpose N Is) in
  let M1 := div N M (add_scalar N Is1 eps) in
  let M2 := add N M1 (transpose N M1) in
  let M3 := add N M2 (eye N) in
  (M3, zeros N).

(** [l[i] = x] for an in-range position. *)
Fixpoint set_nth {A : Type} (i : nat) (x : A) (l : list A) : list A :=
  match l, i with
  | [], _ => []
  | _ :: t, O => x :: t
  | y :: t, S i' => y :: set_nth i' x t
  end.

(** The body of [for k in range(self.L_, self.K_)] on the state made of the
    tensor [Mk] and the counter [Is]. *)
Definition candidate_step (N : nat) (L H : Z) (trials : Z -> Z -> Trial)
  (k : Z) (s : list matrix * matrix) : result (list matrix * matrix) :=
  let '(Mk, Is) := s in
  let i_ := Z.to_nat (k - L) in
  '(M, Is') <- for_each (range 0 H)
                 (fun h => trial_step N (fun _ => k) (trials k h))
                 (nth i_ Mk (zeros N), Is) ;;
  let '(M', Is'') := finalize N M Is' in
  Ok (set_nth i_ M' Mk, Is'').

(** [Ak[i]] for one consensus matrix, the "area under CDF" of the
    docstring: the sum over the bins of [h * (b - a)], [h] running over
    [np.cumsum(hist)]. *)
Definition cdf_area (m : matrix) : Q :=
  let '(hist, bins) := histogram (ravel m) in
  Py.sum (map (fun '(b, a, h) => h * (b - a))
              (zip3 (tl bins) (removelast bins) (cumsum hist))).

Definition delta_curve (L K : Z) (Ak : list Q) : list Q :=
  map (fun '(Ab, Aa, i) => if (2 <? i)%Z then (Ab - Aa) / Aa else Aa)
      (zip3 (tl Ak) (removelast Ak) (range L (K - 1))).

Definition best_k (L : Z) (deltaK : list Q) : Z :=
  if Nat.ltb 0 (length deltaK) then (Z.of_nat (argmax deltaK) + L)%Z else L.

(** [ConsensusCluster.fit]; [np.zeros] refuses a negative dimension. *)
Definition fit {C : Type} (trials : Z -> Z -> Trial) (e : engine C)
  (data : dataset) : result (engine C) :=
  let N := shape0 data in
  if (K_ e - L_ e <? 0)%Z then Raise ValueError else
  let Mk0 := repeat (zeros N) (Z.to_nat (K_ e - L_ e)) in
  '(Mk, _) <- for_each (range (L_ e) (K_ e))
                (candidate_step N (L_ e) (H_ e) trials) (Mk0, zeros N) ;;
  let Ak := map cdf_area Mk in
  let deltaK := delta_curve (L_ e) (K_ e) Ak in
  let bestK := best_k (L_ e) deltaK in
  Ok (mkEngine (cluster_ e) (resample_proportion_ e) (L_ e) (K_ e) (H_ e)
        (Some (Arr3 Mk)) (Some Ak) (Some deltaK) (Some bestK) (X e)).

(** [ConsensusCluster.fit_from_cfg]: the number of clusters of a trial is
    the number of distinct labels. *)
Definition fit_from_cfg {C : Type} (trials : Z -> Trial) (e : engine C)
  (data : dataset) : result (engine C) :=
  let N := shape0 data in
  '(M, Is) <- for_each (range 0 (H_ e))
                (fun h => trial_step N n_unique (trials h))
                (zeros N, zeros N) ;;
  let '(M', _) := finalize N M Is in
  Ok (mkEngine (cluster_ e) (resample_proportion_ e) (L_ e) (K_ e) (H_ e)
        (Some (Arr2 M')) (Ak e) (deltaK e) (bestK e) (Some data)).

End Engine.

(** [arr[i]] for a Python integer [i]: negative positions count from the
    end, positions out of range raise [IndexError]. *)
Definition nth_wrap {A : Type} (l : list A) (i : Z) : result A :=
  let len := Z.of_nat (length l) in
  let j := if (i <? 0)%Z then (i + len)%Z else i in
  if ((0 <=? j) && (j <? len))%Z
  then match nth_error l (Z.to_nat j) with
       | Some x => Ok x
       | None => Raise IndexError
       end
  else Raise IndexError.

Definition index0 (arr : ndarray) (i : Z) : result ndarray :=
  match arr with
  | Arr0 _ => Raise IndexError
  | Arr1 v => x <- nth_wrap v i ;; Ok (Arr0 x)
  | Arr2 m => v <- nth_wrap m i ;; Ok (Arr1 v)
  | Arr3 t => m <- nth_wrap t i ;; Ok (Arr2 m)
  end.

(** [1 - arr]. *)
Definition one_minus (arr : ndarray) : ndarray :=
  match arr with
  | Arr0 x => Arr0 (1 - x)
  | Arr1 v => Arr1 (map (fun x => 1 - x) v)
  | Arr2 m => Arr2 (map (map (fun x => 1 - x)) m)
  | Arr3 t => Arr3 (map (map (map (fun x => 1 - x))) t)
  end.

(** [ConsensusCluster.predict].  [primitive b arr] stands for
    [self.cluster_(n_clusters=b).fit_predict(arr)], the clustering primitive
    on a precomputed matrix.  With [bestK] unset the call cannot be made:
    the subtraction [self.bestK - self.L_] raises [TypeError]. *)
Definition predict {C : Type} (primitive : Z -> ndarray -> list Z)
  (e : engine C) : result (list Z) :=
  match Mk e with
  | None => Raise AssertionError
  | Some mk =>
      match bestK e with
      | None => Raise TypeError
      | Some b =>
          arr <- index0 mk (b - L_ e)%Z ;;
          Ok (primitive b (one_minus arr))
      end
  end.

End Monti.

(** ** Reading the loops: which cells a trial increments *)

Module Spec.

Import Np Monti.

Definition ind (b : bool) : Q := if b then 1 else 0.

(** The insertion points of a sorted array, counted from the left: the
    number of leading elements below [x], respectively not above [x]. *)
Fixpoint below (a : list Z) (x : Z) : nat :=
  match a with
  | [] => 0
  | e :: a' => if (e <? x)%Z then S (below a' x) else 0
  end.

Fixpoint not_above (a : list Z) (x : Z) : nat :=
  match a with
  | [] => 0
  | e :: a' => if (e <=? x)%Z then S (not_above a' x) else 0
  end.

Section Readings.

Variable argsort : list Z -> list nat.

(** The positions of a trial's label array that carry label [i], in the
    order of the sort. *)
Definition positions_of (t : Trial) (i : Z) : list nat :=
  filter (fun p => (nth p (Mh t) 0 =? i)%Z) (argsort (Mh t)).

(** The original row indices of the resampled rows labelled [i]. *)
Definition cluster_rows (t : Trial) (i : Z) : list nat :=
  map (fun p => nth p (resampled_indices t) 0%nat) (positions_of t i).

(** Cell [(a, b)] is selected by the pairs of one of the clusters [labels]. *)
Definition cluster_hit (t : Trial) (labels : list Z) (a b : nat) : bool :=
  existsb (fun i => pair_in (a, b) (combinations2 (cluster_rows t i))) labels.

(** Cell [(a, b)] is selected by the pairs of the whole resample. *)
Definition drawn_hit (t : Trial) (a b : nat) : bool :=
  pair_in (a, b) (combinations2 (resampled_indices t)).

(** The labels a trial loops over: [range(k)], [k] being read off the sorted
    labels by [nclust]. *)
Definition trial_labels (nclust : list Z -> Z) (t : Trial) : list Z :=
  range 0 (nclust (map (fun p => nth p (Mh t) 0%Z) (argsort (Mh t)))).

(** What the accumulator and the counter of a candidate count satisfy after
    any number of trials: non-negative cells, an empty diagonal of the
    accumulator, and no more same-cluster pairs than joint draws for each
    unordered pair of rows. *)
Definition counts_ok (N : nat) (s : matrix * matrix) : Prop :=
  forall a b, (a < N)%nat -> (b < N)%nat ->
    0 <= entry (fst s) a b /\ 0 <= entry (snd s) a b
    /\ entry (fst s) a a == 0
    /\ entry (fst s) a b + entry (fst s) b a
       <= entry (snd s) a b + entry (snd s) b a.

(** What [util.resample] and the clustering primitive owe to the engine in
    one trial: distinct row indices below [N] and one label per resampled
    row. *)
Definition trial_contract (N : nat) (t : Trial) : Prop :=
  NoDup (resampled_indices t)
  /\ Forall (fun a => (a < N)%nat) (resampled_indices t)
  /\ length (Mh t) = length (resampled_indices t).

(** The consensus matrix of one candidate count computed on its own, from
    zeroed accumulators. *)
Definition consensus_of (N : nat) (H k : Z) (trials_k : Z -> Trial)
  : result matrix :=
  '(M, Is) <- for_each (range 0 H)
                (fun h => trial_step argsort N (fun _ => k) (trials_k h))
                (zeros N, zeros N) ;;
  Ok (fst (finalize N M Is)).

End Readings.

(** The sum of [f 0, ..., f (n - 1)]. *)
Fixpoint big_sum (n : nat) (f : nat -> Q) : Q :=
  match n with
  | O => 0
  | S n' => big_sum n' f + f n'
  end.

(** The stability area in the words of the specification: over the bins of
    the histogram, the sum of (cumulative density up to that bin) times (bin
    width). *)
Definition bin_width (bins : list Q) (j : nat) : Q :=
  nth (S j) bins 0 - nth j bins 0.

Definition cumulative_density (hist : list Q) (j : nat) : Q :=
  big_sum (S j) (fun l => nth l hist 0).

Definition cdf_area_spec (values : list Q) : Q :=
  let '(hist, bins) := histogram values in
  big_sum n_bins (fun j => cumulative_density hist j * bin_width bins j).

(** The area under the empirical CDF of the histogram.  The CDF at the
    right edge of bin [j] is the share of the values in the bins up to [j]:
    the sum of (density of the bin) times (width of the bin). *)
Definition empirical_cdf (hist bins : list Q) (j : nat) : Q :=
  big_sum (S j) (fun l => nth l hist 0 * bin_width bins l).

Definition area_under_cdf (values : list Q) : Q :=
  let '(hist, bins) := histogram values in
  big_sum n_bins (fun j => empirical_cdf hist bins j * bin_width bins j).

End Spec.

Import Spec.

(** ** Inputs of the concrete runs *)

Module Demo.

Import Np Monti.

(** Three rows, candidate counts 2, 3 and 4, two trials each: the first
    trial draws rows 2, 0, 1 with labels 1, 0, 1, the second draws rows 1, 2
    with labels 0, 0. *)
Definition data3 : dataset := [[0]; [1]; [2]].

Definition trials3 (k h : Z) : Trial :=
  if (h =? 0)%Z then mkTrial [2; 0; 1]%nat [1; 0; 1]%Z
  else mkTrial [1; 2]%nat [0; 0]%Z.

Definition fresh3 : engine unit :=
  mkEngine tt (1 # 2) 2 5 2 None None None None None.

Definition fitted3 : engine unit :=
  match fit stable_argsort trials3 fresh3 data3 with
  | Ok e => e
  | Raise _ => fresh3
  end.

(** An engine whose candidate range [[2, 2)] is empty. *)
Definition empty_range : engine unit :=
  mkEngine tt (1 # 2) 2 2 2 None None None None None.

(** Draws of a single row, as a small resample proportion produces. *)
Definition trials_one_row (k h : Z) : Trial := mkTrial [0]%nat [0]%Z.

(** Four rows and a configured model that labels the drawn rows 3, 1, 0, 2
    with 0, 5, 5, 0: two distinct labels, one of them not below 2. *)
Definition data4 : dataset := [[0]; [1]; [2]; [3]].

Definition trial4 : Trial := mkTrial [3; 1; 0; 2]%nat [0; 5; 5; 0]%Z.

Definition trials4 (h : Z) : Trial := trial4.

Definition step4 : matrix * matrix :=
  match trial_step stable_argsort 4 n_unique trial4 (zeros 4, zeros 4) with
  | Ok s => s
  | Raise _ => (zeros 4, zeros 4)
  end.

Definition fresh4 : engine unit :=
  mkEngine tt (1 # 2) 2 5 1 None None None None None.

Definition cfg_fitted4 : engine unit :=
  match fit_from_cfg stable_argsort trials4 fresh4 data4 with
  | Ok e => e
  | Raise _ => fresh4
  end.

End Demo.

(** ** The other methods of [ConsensusCluster] *)

Module Predictions.

Import Np Monti.

(** The [linkage] argument of [AgglomerativeClustering]. *)
Inductive linkage : Set :=
| Complete
| Average.

(** How [predict_from_tuned] can end: with labels, with an exception of
    [Py.exn] raised by its own lines, with the [AttributeError] of reading
    [self.X] before [fit_from_cfg] has assigned it, or with the exception
    that one of its external calls raised. *)
Inductive tuned (A : Type) : Type :=
| Returns (a : A)
| Throws (e : exn)
| ThrowsAttributeError
| ThrowsFromCall (e : exn).

Arguments Returns {A} a.
Arguments Throws {A} e.
Arguments ThrowsAttributeError {A}.
Arguments ThrowsFromCall {A} e.

(** [ConsensusCluster.predict_hierarchical].  [agglomerative n l arr]
    stands for
    [AgglomerativeClustering(n_clusters=n, linkage=l, affinity='precomputed')
     .fit(arr).labels_], an external call that returns labels or raises. *)
Definition predict_hierarchical {C : Type}
  (agglomerative : Z -> linkage -> ndarray -> result (list Z)) (e : engine C)
  : result (list Z) :=
  match Mk e with
  | None => Raise AssertionError
  | Some mk =>
      match bestK e with
      | None => Raise TypeError
      | Some b =>
          arr <- index0 mk (b - L_ e)%Z ;;
          agglomerative b Complete (one_minus arr)
      end
  end.

(** The body of the loop of [predict_from_tuned] on the pair of lists
    [(scores, labels)]; [sil x ls] stands for [silhouette_score(x, ls)],
    an external call that returns a score or raises.  [self.X] is read
    after the clustering and before the score. *)
Definition tuned_step
  (agglomerative : Z -> linkage -> ndarray -> result (list Z))
  (sil : dataset -> list Z -> result Q) (mk : ndarray) (x : option dataset)
  (k : Z) (s : list Q * list (list Z)) : tuned (list Q * list (list Z)) :=
  let '(scores, labels) := s in
  match agglomerative k Average (one_minus mk) with
  | Raise ex => ThrowsFromCall ex
  | Ok ls =>
      match x with
      | None => ThrowsAttributeError
      | Some x' =>
          match sil x' ls with
          | Raise ex => ThrowsFromCall ex
          | Ok score => Returns (scores ++ [score], labels ++ [ls])
          end
      end
  end.

Fixpoint tuned_loop
  (agglomerative : Z -> linkage -> ndarray -> result (list Z))
  (sil : dataset -> list Z -> result Q) (mk : ndarray) (x : option dataset)
  (ks : list Z) (s : list Q * list (list Z)) : tuned (list Q * list (list Z)) :=
  match ks with
  | [] => Returns s
  | k :: ks' =>
      match tuned_step agglomerative sil mk x k s with
      | Returns s' => tuned_loop agglomerative sil mk x ks' s'
      | Throws e => Throws e
      | ThrowsAttributeError => ThrowsAttributeError
      | ThrowsFromCall e => ThrowsFromCall e
      end
  end.

(** [ConsensusCluster.predict_from_tuned]; [np.argmax] of an empty list
    raises [ValueError]. *)
Definition predict_from_tuned {C : Type}
  (agglomerative : Z -> linkage -> ndarray -> result (list Z))
  (sil : dataset -> list Z -> result Q) (e : engine C) : tuned (list Z) :=
  match Mk e with
  | None => Throws AssertionError
  | Some mk =>
      match tuned_loop agglomerative sil mk (X e) (range (L_ e) (K_ e)) ([], []) with
      | Returns (scores, labels) =>
          match scores with
          | [] => Throws ValueError
          | _ :: _ => Returns (nth (argmax scores) labels [])
          end
      | Throws ex => Throws ex
      | ThrowsAttributeError => ThrowsAttributeError
      | ThrowsFromCall ex => ThrowsFromCall ex
      end
  end.

(** [ConsensusCluster.predict_data].  [primitive n data] stands for
    [self.cluster_(n_clusters=n).fit_predict(data)], [n] being [None] when
    [bestK] is unset. *)
Definition predict_data {C : Type} (primitive : option Z -> dataset -> list Z)
  (e : engine C) (data : dataset) : result (list Z) :=
  match Mk e with
  | None => Raise AssertionError
  | Some _ => Ok (primitive (bestK e) data)
  end.

End Predictions.

(** ** The drivers of [src/algorithms.py] built on the engine *)

Module Algorithms.

Import Np Monti Predictions.

Section Drivers.

Variable argsort : list Z -> list nat.

(** [run_monti], before its decoration: construct, [fit], [predict]. *)
Definition run_monti {C Y : Type} (trials : Z -> Z -> Trial)
  (primitive : Z -> ndarray -> list Z) (KMeans : C)
  (X : dataset) (L n_clusters H : Z) (proportion : Q) (y : Y)
  : result (dataset * list Z * Y) :=
  monti <- init KMeans L n_clusters H proportion ;;
  monti' <- fit argsort trials monti X ;;
  labels <- predict primitive monti' ;;
  Ok (X, labels, y).

(** [run_monti_hierarchical], before its decoration. *)
Definition run_monti_hierarchical {C Y : Type} (trials : Z -> Z -> Trial)
  (agglomerative : Z -> linkage -> ndarray -> result (list Z)) (KMeans : C)
  (X : dataset) (L n_clusters H : Z) (proportion : Q) (y : Y)
  : result (dataset * list Z * Y) :=
  monti <- init KMeans L n_clusters H proportion ;;
  monti' <- fit argsort trials monti X ;;
  labels <- predict_hierarchical agglomerative monti' ;;
  Ok (X, labels, y).

End Drivers.

(** [np.array(cvis).mean(axis=0)]: the mean of each column.  Of an empty
    list the mean is [nan], which is no rational and is rendered [None]. *)
Definition mean_axis0 (cvis : list (list Q)) : option (list Q) :=
  match cvis with
  | [] => None
  | row :: _ =>
      Some (map (fun j => Py.sum (map (fun r => nth j r 0) cvis)
                          / inject_Z (Z.of_nat (length cvis)))
                (seq 0 (length row)))
  end.

(** [[metric(X, labels) for metric in metrics]]: the metrics are external
    calls, evaluated in order, each returning a number or raising. *)
Fixpoint metric_row (metrics : list (dataset -> list Z -> result Q))
  (X : dataset) (labels : list Z) : result (list Q) :=
  match metrics with
  | [] => Ok []
  | metric :: rest =>
      v <- metric X labels ;;
      vs <- metric_row rest X labels ;;
      Ok (v :: vs)
  end.

(** The [wrapper] returned by [with_metrics(test, n_runs)].  [test r] is
    the [r]-th call of [test] on the arguments of the wrapper, which draws
    its own random numbers; [metrics] stands for the list
    [[sil, ch, gd41, os_score]]. *)
Definition with_metrics {Y : Type}
  (metrics : list (dataset -> list Z -> result Q))
  (test : Z -> result (dataset * list Z * Y)) (n_runs : Z)
  : result (option (list Q)) :=
  cvis <- for_each (range 0 n_runs)
            (fun r cvis =>
               '(X, labels, _) <- test r ;;
               row <- metric_row metrics X labels ;;
               Ok (cvis ++ [row]))
            [] ;;
  Ok (mean_axis0 cvis).

(** A run of the loop of the wrapper went through: [test] returned and so
    did each metric on its data and labels. *)
Definition run_measured {Y : Type}
  (metrics : list (dataset -> list Z -> result Q))
  (test : Z -> result (dataset * list Z * Y)) (r : Z) : Prop :=
  exists X labels y,
    test r = Ok (X, labels, y)
    /\ forall metric, In metric metrics -> is_ok (metric X labels) = true.

(** The value of a metric in a run, [0] where the run or the metric
    raised. *)
Definition metric_value {Y : Type} (test : Z -> result (dataset * list Z * Y))
  (metric : dataset -> list Z -> result Q) (r : Z) : Q :=
  match test r with
  | Ok (X, labels, _) =>
      match metric X labels with
      | Ok v => v
      | Raise _ => 0
      end
  | Raise _ => 0
  end.

(** The [n_runs] of the decorator form [@with_metrics], its default. *)
Definition default_n_runs : Z := 5.

(** [run_monti] as the module exports it, decorated by [@with_metrics]:
    [trials r] and [primitive r] are the resampling trials and the clustering
    primitive of the [r]-th run. *)
Definition run_monti_decorated {C Y : Type} (argsort : list Z -> list nat)
  (metrics : list (dataset -> list Z -> result Q))
  (trials : Z -> Z -> Z -> Trial) (primitive : Z -> Z -> ndarray -> list Z)
  (KMeans : C) (X : dataset) (L n_clusters H : Z) (proportion : Q) (y : Y)
  : result (option (list Q)) :=
  with_metrics metrics
    (fun r => run_monti argsort (trials r) (primitive r) KMeans X L n_clusters
                H proportion y)
    default_n_runs.

End Algorithms.

(** ** Counting trials *)

Module Counts.

Import Np Monti.

(** The position of row [a] among the resampled rows. *)
Fixpoint index_of (a : nat) (l : list nat) : option nat :=
  match l with
  | [] => None
  | x :: l' => if Nat.eqb x a then Some 0%nat else option_map S (index_of a l')
  end.

(** The label the clustering primitive gave to row [a] in a trial, if the
    row was drawn. *)
Definition label_of (t : Trial) (a : nat) : option Z :=
  match index_of a (resampled_indices t) with
  | Some p => nth_error (Mh t) p
  | None => None
  end.

(** Rows [a] and [b] were both drawn in the trial. *)
Definition drawn_together (t : Trial) (a b : nat) : bool :=
  existsb (Nat.eqb a) (resampled_indices t)
  && existsb (Nat.eqb b) (resampled_indices t).

(** Rows [a] and [b] were both drawn and received the same label, one of
    [0, ..., k-1]. *)
Definition clustered_together (t : Trial) (k : Z) (a b : nat) : bool :=
  match label_of t a, label_of t b with
  | Some i, Some j => ((i =? j) && (0 <=? i) && (i <? k))%Z
  | _, _ => false
  end.

(** The number of trials [0, ..., H-1] for which [f] holds. *)
Definition count_trials (f : Z -> bool) (H : Z) : Q :=
  inject_Z (Z.of_nat (length (filter f (range 0 H)))).

End Counts.


(** ** Inputs of further concrete runs *)

Module Scenes.

Import Np Monti Predictions Algorithms.

(** An engine whose candidate range is reversed. *)
Definition reversed_range : engine unit :=
  mkEngine tt (1 # 2) 3 2 5 None None None None None.

(** An engine that asks for no trial. *)
Definition no_trials : engine unit :=
  mkEngine tt (1 # 2) 2 5 0 None None None None None.

(** [no_trials] after [fit] on three rows: no resample is drawn. *)
Definition fitted_no_trials : engine unit :=
  match fit stable_argsort Demo.trials3 no_trials Demo.data3 with
  | Ok e => e
  | Raise _ => no_trials
  end.

(** The configured model of the two trials of [Demo.trials3]. *)
Definition cfg_trials3 (h : Z) : Trial := Demo.trials3 0 h.

(** [Demo.fitted3] after a further [fit_from_cfg]. *)
Definition refitted3 : engine unit :=
  match fit_from_cfg stable_argsort cfg_trials3 Demo.fitted3 Demo.data3 with
  | Ok e => e
  | Raise _ => Demo.fresh3
  end.

(** The consensus matrix of candidate count 2 on [Demo.trials3]. *)
Definition consensus3 : matrix :=
  match consensus_of stable_argsort 3 2 2 (Demo.trials3 2) with
  | Ok m => m
  | Raise _ => []
  end.

(** Four rows with candidate counts 2 and 3, fitted by [fit_from_cfg] on
    the trial of [Demo.trials4]. *)
Definition fresh_tuned4 : engine unit :=
  mkEngine tt (1 # 2) 2 4 1 None None None None None.

Definition tuned4 : engine unit :=
  match fit_from_cfg stable_argsort Demo.trials4 fresh_tuned4 Demo.data4 with
  | Ok e => e
  | Raise _ => fresh_tuned4
  end.

Definition mk_tuned4 : ndarray :=
  match Mk tuned4 with
  | Some mk => mk
  | None => Arr2 []
  end.

(** Stand-ins for the external calls.  A clustering of four rows into the
    requested number of groups, and one that fails for three groups. *)
Definition labels_upto (k : Z) (l : linkage) (arr : ndarray)
  : result (list Z) :=
  Ok [0; 1; k - 1; 0]%Z.

Definition fails_at_three (k : Z) (l : linkage) (arr : ndarray)
  : result (list Z) :=
  if (k =? 3)%Z then Raise ValueError else Ok [0; 1; k - 1; 0]%Z.

(** A score and two metrics: the number of groups, which like the
    silhouette score needs at least two of them, the number of labels, and
    the first label. *)
Definition n_groups (x : dataset) (ls : list Z) : result Q :=
  if (n_unique ls <? 2)%Z then Raise ValueError else Ok (inject_Z (n_unique ls)).

Definition n_labels (x : dataset) (ls : list Z) : result Q :=
  Ok (inject_Z (Z.of_nat (length ls))).

Definition first_label (x : dataset) (ls : list Z) : result Q :=
  Ok (inject_Z (hd 0%Z ls)).

(** A clustering primitive that puts every row in one group. *)
Definition one_label (n : Z) (arr : ndarray) : list Z := [n].

(** Runs that all see the trials of [Demo.trials3]. *)
Definition runs3 (r : Z) : Z -> Z -> Trial := Demo.trials3.

(** Tests: one whose runs all return, one whose second run raises, one
    whose second run returns a single group. *)
Definition all_runs_return (r : Z) : result (dataset * list Z * unit) :=
  Ok (Demo.data3, [r; 0; 1]%Z, tt).

Definition second_run_fails (r : Z) : result (dataset * list Z * unit) :=
  if (r =? 1)%Z then Raise IndexError else Ok (Demo.data3, [r; 0; 1]%Z, tt).

Definition second_run_one_group (r : Z) : result (dataset * list Z * unit) :=
  if (r =? 1)%Z then Ok (Demo.data3, [0; 0; 0]%Z, tt)
  else Ok (Demo.data3, [r; 0; 1]%Z, tt).

End Scenes.
(** * Properties *)

Import Np Monti.

(** ** Loops and lists *)

Lemma for_each_app {A S : Type} (xs ys : list A) (body : A -> S -> result S) (s : S) :
  for_each (xs ++ ys) body s = bind (for_each xs body s) (for_each ys body).
Proof.
  revert s. induction xs as [|x xs IH]; intros s; simpl.
  - reflexivity.
  - destruct (body x s) as [s'|e]; simpl; [apply IH | reflexivity].
Qed.

Lemma for_each_prefix {A S : Type} (xs ys : list A) (body : A -> S -> result S)
  (s s' : S) :
  for_each (xs ++ ys) body s = Ok s' ->
  exists s1, for_each xs body s = Ok s1 /\ for_each ys body s1 = Ok s'.
Proof.
  rewrite for_each_app. destruct (for_each xs body s) as [s1|e]; simpl.
  - intros H. exists s1. auto.
  - discriminate.
Qed.

(** A loop preserves every invariant its body preserves. *)
Lemma for_each_invariant {A S : Type} (P : S -> Prop)
  (body : A -> S -> result S) (xs : list A) :
  (forall x s s', In x xs -> P s -> body x s = Ok s' -> P s') ->
  forall s s', P s -> for_each xs body s = Ok s' -> P s'.
Proof.
  induction xs as [|x xs IH]; intros Hbody s s' Hs Hrun; simpl in Hrun.
  - inversion Hrun; subst; exact Hs.
  - destruct (body x s) as [s1|e] eqn:E; simpl in Hrun; [|discriminate].
    apply (IH (fun y t t' Hy => Hbody y t t' (or_intror Hy)) s1 s').
    + apply (Hbody x s s1); [left; reflexivity | exact Hs | exact E].
    + exact Hrun.
Qed.

Lemma for_each_total {A S : Type} (xs : list A) (body : A -> S -> result S) :
  (forall x s, In x xs -> is_ok (body x s) = true) ->
  forall s, is_ok (for_each xs body s) = true.
Proof.
  induction xs as [|x xs IH]; intros Hbody s; simpl; [reflexivity|].
  pose proof (Hbody x s (or_introl eq_refl)) as Hx.
  destruct (body x s) as [s1|e]; [|discriminate]. simpl.
  apply IH. intros y s2 Hy. apply Hbody. right. exact Hy.
Qed.

Lemma for_each_raise {A S : Type} (xs : list A) (body : A -> S -> result S)
  (s : S) (e : exn) :
  for_each xs body s = Raise e ->
  exists x s1, In x xs /\ body x s1 = Raise e.
Proof.
  revert s. induction xs as [|x xs IH]; intros s; simpl; [discriminate|].
  destruct (body x s) as [s1|e1] eqn:E; simpl.
  - intros H. destruct (IH s1 H) as [y [s2 [Hy Hr]]]. exists y, s2. auto.
  - intros H. inversion H; subst. exists x, s. auto.
Qed.

Lemma for_each_ok_body {A S : Type} (xs : list A) (body : A -> S -> result S)
  (s s' : S) :
  for_each xs body s = Ok s' ->
  forall x, In x xs -> exists s1 s2, body x s1 = Ok s2.
Proof.
  revert s. induction xs as [|x xs IH]; intros s Hrun y Hy; simpl in *; [tauto|].
  destruct (body x s) as [s1|e] eqn:E; simpl in Hrun; [|discriminate].
  destruct Hy as [<-|Hy].
  - exists s, s1. exact E.
  - exact (IH s1 Hrun y Hy).
Qed.

Lemma for_each_ext {A S : Type} (xs : list A) (f g : A -> S -> result S) :
  (forall x s, In x xs -> f x s = g x s) ->
  forall s, for_each xs f s = for_each xs g s.
Proof.
  induction xs as [|x xs IH]; intros Hfg s; simpl; [reflexivity|].
  rewrite (Hfg x s (or_introl eq_refl)).
  destruct (g x s) as [s1|e]; simpl; [|reflexivity].
  apply IH. intros y s2 Hy. apply Hfg. right. exact Hy.
Qed.

Lemma range_NoDup (lo hi : Z) : NoDup (range lo hi).
Proof.
  unfold range. apply Finite.Injective_map_NoDup; [|apply seq_NoDup].
  intros x y E. lia.
Qed.

Lemma in_range (lo hi i : Z) : In i (range lo hi) <-> (lo <= i < hi)%Z.
Proof.
  unfold range. rewrite in_map_iff. split.
  - intros [n [E Hn]]. apply in_seq in Hn. lia.
  - intros H. exists (Z.to_nat (i - lo)). split; [lia|]. apply in_seq. lia.
Qed.

Lemma length_range (lo hi : Z) : length (range lo hi) = Z.to_nat (hi - lo).
Proof. unfold range. rewrite length_map, length_seq. reflexivity. Qed.

Lemma nth_range (lo hi : Z) (i : nat) :
  (i < Z.to_nat (hi - lo))%nat -> nth i (range lo hi) 0%Z = (lo + Z.of_nat i)%Z.
Proof.
  intros Hi. unfold range.
  rewrite (nth_indep _ 0%Z (lo + Z.of_nat 0)%Z) by (rewrite length_map, length_seq; exact Hi).
  rewrite (map_nth (fun i => (lo + Z.of_nat i)%Z)), seq_nth by exact Hi.
  reflexivity.
Qed.

Lemma seq_add_shift (a s n : nat) :
  seq (a + s) n = map (fun i => (a + i)%nat) (seq s n).
Proof.
  revert s. induction n as [|n IH]; intros s; simpl; [reflexivity|].
  f_equal. rewrite <- IH. f_equal. lia.
Qed.

Lemma range_split (lo mid hi : Z) :
  (lo <= mid <= hi)%Z -> range lo hi = range lo mid ++ range mid hi.
Proof.
  intros H. unfold range.
  replace (Z.to_nat (hi - lo)) with (Z.to_nat (mid - lo) + Z.to_nat (hi - mid))%nat by lia.
  rewrite seq_app, map_app. f_equal. simpl.
  rewrite <- (Nat.add_0_r (Z.to_nat (mid - lo))) at 1.
  rewrite seq_add_shift, map_map. apply map_ext_in. intros i _. lia.
Qed.

Lemma zip3_length {A B C : Type} (xs : list A) (ys : list B) (zs : list C) (n : nat) :
  length xs = n -> length ys = n -> length zs = n -> length (zip3 xs ys zs) = n.
Proof.
  revert ys zs n. induction xs as [|x xs IH]; intros [|y ys] [|z zs] n; simpl;
    intros; subst; try discriminate; auto.
Qed.

Lemma zip3_nth {A B C : Type} (xs : list A) (ys : list B) (zs : list C)
  (dx : A) (dy : B) (dz : C) (i : nat) :
  (i < length xs)%nat -> (i < length ys)%nat -> (i < length zs)%nat ->
  nth i (zip3 xs ys zs) (dx, dy, dz) = (nth i xs dx, nth i ys dy, nth i zs dz).
Proof.
  revert ys zs i. induction xs as [|x xs IH]; intros [|y ys] [|z zs] [|i]; simpl;
    intros; try lia; auto.
  apply IH; lia.
Qed.

Lemma nth_tl {A : Type} (l : list A) (d : A) (i : nat) :
  nth i (tl l) d = nth (S i) l d.
Proof. destruct l; simpl; [destruct i|]; reflexivity. Qed.

Lemma length_tl {A : Type} (l : list A) : length (tl l) = (length l - 1)%nat.
Proof. destruct l; simpl; lia. Qed.

Lemma length_removelast {A : Type} (l : list A) :
  length (removelast l) = (length l - 1)%nat.
Proof.
  induction l as [|x [|y l] IH]; simpl in *; auto. lia.
Qed.

Lemma nth_removelast {A : Type} (l : list A) (d : A) (i : nat) :
  (i < length l - 1)%nat -> nth i (removelast l) d = nth i l d.
Proof.
  revert i. induction l as [|x [|y l] IH]; intros i Hi; simpl in *; try lia.
  destruct i; [reflexivity|]. apply IH. lia.
Qed.

Lemma map_nth_seq {A : Type} (l : list A) (d : A) :
  map (fun p => nth p l d) (seq 0 (length l)) = l.
Proof.
  induction l as [|x l IH]; simpl; [reflexivity|].
  f_equal. rewrite <- seq_shift, map_map. exact IH.
Qed.

Lemma length_set_nth {A : Type} (i : nat) (x : A) (l : list A) :
  length (set_nth i x l) = length l.
Proof.
  revert i. induction l as [|y l IH]; intros [|i]; simpl; auto.
Qed.

Lemma nth_set_nth_eq {A : Type} (i : nat) (x d : A) (l : list A) :
  (i < length l)%nat -> nth i (set_nth i x l) d = x.
Proof.
  revert i. induction l as [|y l IH]; intros [|i]; simpl; intros H;
    try lia; auto. apply IH. lia.
Qed.

Lemma nth_set_nth_neq {A : Type} (i j : nat) (x d : A) (l : list A) :
  i <> j -> nth j (set_nth i x l) d = nth j l d.
Proof.
  revert i j. induction l as [|y l IH]; intros [|i] [|j]; simpl; intros H;
    try lia; auto.
Qed.

(** ** Pairs of a list *)

Section Combinations.
Context {A : Type}.
Implicit Types (l : list A) (x y : A).

Lemma in_combinations2 l x y :
  In (x, y) (combinations2 l) -> In x l /\ In y l.
Proof.
  induction l as [|z t IH]; simpl; [tauto|].
  rewrite in_app_iff, in_map_iff.
  intros [[w [E Hw]]|H].
  - inversion E; subst. auto.
  - destruct (IH H). auto.
Qed.

Lemma combinations2_irrefl l x :
  NoDup l -> ~ In (x, x) (combinations2 l).
Proof.
  induction 1 as [|z t Hz Ht IH]; simpl; [tauto|].
  rewrite in_app_iff, in_map_iff.
  intros [[w [E Hw]]|H].
  - inversion E; subst. contradiction.
  - exact (IH H).
Qed.

Lemma combinations2_asym l x y :
  NoDup l -> In (x, y) (combinations2 l) -> ~ In (y, x) (combinations2 l).
Proof.
  induction 1 as [|z t Hz Ht IH]; simpl; [tauto|].
  rewrite !in_app_iff, !in_map_iff.
  intros [[w [E Hw]]|H] [[w' [E' Hw']]|H'].
  - inversion E; inversion E'; subst. contradiction.
  - inversion E; subst. apply in_combinations2 in H'. tauto.
  - inversion E'; subst. apply in_combinations2 in H. tauto.
  - exact (IH H H').
Qed.

Lemma combinations2_total l x y :
  In x l -> In y l -> x <> y ->
  In (x, y) (combinations2 l) \/ In (y, x) (combinations2 l).
Proof.
  induction l as [|z t IH]; simpl; [tauto|].
  rewrite !in_app_iff, !in_map_iff.
  intros [Hx|Hx] [Hy|Hy] Hne; subst.
  - contradiction.
  - left. left. exists y. auto.
  - right. left. exists x. auto.
  - destruct (IH Hx Hy Hne); auto.
Qed.

Lemma combinations2_nil_short l :
  combinations2 l = [] <-> (length l < 2)%nat.
Proof.
  destruct l as [|x [|y t]]; simpl; split; intros H; try reflexivity; try lia; discriminate.
Qed.

End Combinations.

(** ** [argsort] and [bisect] *)

Section InsertBy.
Variable key : nat -> Z.

Lemma insert_by_perm (p : nat) (l : list nat) :
  Permutation (insert_by key p l) (p :: l).
Proof.
  induction l as [|q l IH]; simpl.
  - reflexivity.
  - destruct (key p <=? key q)%Z.
    + reflexivity.
    + rewrite IH. apply perm_swap.
Qed.

Lemma insert_by_sorted (p : nat) (l : list nat) :
  StronglySorted Z.le (map key l) ->
  StronglySorted Z.le (map key (insert_by key p l)).
Proof.
  induction l as [|q l IH]; simpl; intros Hs.
  - repeat constructor.
  - destruct (key p <=? key q)%Z eqn:E.
    + simpl. constructor; [exact Hs|].
      apply Z.leb_le in E. inversion Hs as [|? ? _ Hall]; subst.
      constructor; [exact E|].
      eapply Forall_impl; [|exact Hall]. intros; simpl in *; lia.
    + apply Z.leb_gt in E. inversion Hs as [|? ? Hs' Hall]; subst.
      simpl. constructor; [apply IH; exact Hs'|].
      rewrite (Permutation_map key (insert_by_perm p l)). simpl.
      constructor; [lia | exact Hall].
Qed.
End InsertBy.

(** The insertion sort of positions meets the contract of [np.argsort]. *)
Lemma stable_argsort_contract : argsort_contract stable_argsort.
Proof.
  intros keys. unfold stable_argsort.
  induction (seq 0 (length keys)) as [|p l [IHp IHs]]; simpl.
  - split; [reflexivity | constructor].
  - split.
    + rewrite insert_by_perm. constructor. exact IHp.
    + apply insert_by_sorted. exact IHs.
Qed.

Section InsertionPoints.
Variable a : list Z.
Variable x : Z.
Hypothesis a_sorted : StronglySorted Z.le a.

Lemma below_le_length : (below a x <= length a)%nat.
Proof.
  clear a_sorted. induction a as [|e l IH]; simpl; [lia|].
  destruct (e <? x)%Z; simpl; lia.
Qed.

Lemma not_above_le_length : (not_above a x <= length a)%nat.
Proof.
  clear a_sorted. induction a as [|e l IH]; simpl; [lia|].
  destruct (e <=? x)%Z; simpl; lia.
Qed.

(** In a sorted array the elements below [x] are those before [below a x]. *)
Lemma below_iff (m : nat) :
  (m < length a)%nat -> ((nth m a 0 < x)%Z <-> (m < below a x)%nat).
Proof.
  revert m. induction a_sorted as [|e l Hs IH Hall]; intros m Hm; simpl in *; [lia|].
  specialize (IH Hs). rewrite Forall_forall in Hall.
  destruct (Z.ltb_spec e x) as [Hlt|Hge].
  - destruct m as [|m]; [split; intros; lia|].
    rewrite IH by lia. lia.
  - split; [|lia]. intros Hn. destruct m as [|m]; [lia|].
    assert (e <= nth m l 0)%Z by (apply Hall, nth_In; lia). lia.
Qed.

Lemma not_above_iff (m : nat) :
  (m < length a)%nat -> ((nth m a 0 <= x)%Z <-> (m < not_above a x)%nat).
Proof.
  revert m. induction a_sorted as [|e l Hs IH Hall]; intros m Hm; simpl in *; [lia|].
  specialize (IH Hs). rewrite Forall_forall in Hall.
  destruct (Z.leb_spec e x) as [Hle|Hgt].
  - destruct m as [|m]; [split; intros; lia|].
    rewrite IH by lia. lia.
  - split; [|lia]. intros Hn. destruct m as [|m]; [lia|].
    assert (e <= nth m l 0)%Z by (apply Hall, nth_In; lia). lia.
Qed.

(** The binary search keeps the insertion point inside [[lo, hi]] and
    leaves the loop within [hi - lo] turns. *)
Lemma bisect_left_loop_inv (turns lo hi : nat) :
  (lo <= below a x <= hi)%nat -> (hi <= length a)%nat -> (hi - lo <= turns)%nat ->
  bisect_left_loop turns a x lo hi = below a x.
Proof.
  revert lo hi. induction turns as [|turns IH]; intros lo hi Hin Hhi Hfuel.
  - simpl. lia.
  - cbn [bisect_left_loop bisect_right_loop]. cbv zeta.
    destruct (Nat.ltb_spec lo hi) as [Hlt|Hge]; [|lia].
    assert (lo <= (lo + hi) / 2 < hi)%nat as Hmid
      by (split; [apply Nat.div_le_lower_bound | apply Nat.Div0.div_lt_upper_bound]; lia).
    pose proof (below_iff ((lo + hi) / 2)) as Hb.
    destruct (Z.ltb_spec (nth ((lo + hi) / 2) a 0%Z) x) as [Hx|Hx];
      apply IH; lia.
Qed.

Lemma bisect_right_loop_inv (turns lo hi : nat) :
  (lo <= not_above a x <= hi)%nat -> (hi <= length a)%nat -> (hi - lo <= turns)%nat ->
  bisect_right_loop turns a x lo hi = not_above a x.
Proof.
  revert lo hi. induction turns as [|turns IH]; intros lo hi Hin Hhi Hfuel.
  - simpl. lia.
  - cbn [bisect_left_loop bisect_right_loop]. cbv zeta.
    destruct (Nat.ltb_spec lo hi) as [Hlt|Hge]; [|lia].
    assert (lo <= (lo + hi) / 2 < hi)%nat as Hmid
      by (split; [apply Nat.div_le_lower_bound | apply Nat.Div0.div_lt_upper_bound]; lia).
    pose proof (not_above_iff ((lo + hi) / 2)) as Hb.
    destruct (Z.ltb_spec x (nth ((lo + hi) / 2) a 0%Z)) as [Hx|Hx];
      apply IH; lia.
Qed.

Lemma bisect_left_sorted : bisect_left a x = below a x.
Proof.
  unfold bisect_left. pose proof below_le_length.
  apply bisect_left_loop_inv; lia.
Qed.

Lemma bisect_right_sorted : bisect_right a x = not_above a x.
Proof.
  unfold bisect_right. pose proof not_above_le_length.
  apply bisect_right_loop_inv; lia.
Qed.
End InsertionPoints.

Section Bisect.
Variable key : nat -> Z.
Variable i : Z.

Let is_i (p : nat) : bool := (key p =? i)%Z.

Lemma filter_above (l : list nat) :
  Forall (fun p => (i < key p)%Z) l -> filter is_i l = [].
Proof.
  induction 1 as [|p l Hp _ IH]; simpl; [reflexivity|].
  unfold is_i at 1. destruct (Z.eqb_spec (key p) i); [lia | exact IH].
Qed.

Lemma firstn_not_above (l : list nat) :
  StronglySorted Z.le (map key l) ->
  Forall (fun p => (i <= key p)%Z) l ->
  firstn (not_above (map key l) i) l = filter is_i l.
Proof.
  induction l as [|p l IH]; simpl; intros Hs Hge; [reflexivity|].
  inversion Hs as [|? ? Hs' Hall]; subst.
  inversion Hge as [|? ? Hp Hge']; subst.
  unfold is_i at 1.
  destruct (Z.leb_spec (key p) i) as [Hle|Hgt].
  - destruct (Z.eqb_spec (key p) i); [|lia].
    simpl. f_equal. apply IH; assumption.
  - destruct (Z.eqb_spec (key p) i); [lia|].
    simpl. symmetry. apply filter_above.
    rewrite Forall_map in Hall. eapply Forall_impl; [|exact Hall].
    intros; simpl in *; lia.
Qed.

Lemma slice_insertion_points (l : list nat) :
  StronglySorted Z.le (map key l) ->
  slice (below (map key l) i) (not_above (map key l) i) l = filter is_i l.
Proof.
  unfold slice.
  induction l as [|p l IH]; simpl; intros Hs; [reflexivity|].
  inversion Hs as [|? ? Hs' Hall]; subst.
  rewrite Forall_map in Hall.
  unfold is_i at 1.
  destruct (Z.ltb_spec (key p) i) as [Hlt|Hge].
  - destruct (Z.leb_spec (key p) i); [|lia].
    destruct (Z.eqb_spec (key p) i); [lia|].
    simpl. apply IH. exact Hs'.
  - destruct (Z.leb_spec (key p) i) as [Hle|Hgt].
    + destruct (Z.eqb_spec (key p) i); [|lia].
      simpl. f_equal. apply firstn_not_above; [exact Hs'|].
      eapply Forall_impl; [|exact Hall]. intros; simpl in *; lia.
    + destruct (Z.eqb_spec (key p) i); [lia|].
      simpl. symmetry. apply filter_above.
      eapply Forall_impl; [|exact Hall]. intros; simpl in *; lia.
Qed.

(** Between the two insertion points of [i] in the sorted keys lie the
    positions whose key is [i]. *)
Lemma slice_bisect (l : list nat) :
  StronglySorted Z.le (map key l) ->
  slice (bisect_left (map key l) i) (bisect_right (map key l) i) l
  = filter is_i l.
Proof.
  intros Hs. rewrite bisect_left_sorted, bisect_right_sorted by exact Hs.
  apply slice_insertion_points. exact Hs.
Qed.
End Bisect.

Lemma n_unique_perm (l l' : list Z) :
  Permutation l l' -> n_unique l = n_unique l'.
Proof.
  intros Hp. unfold n_unique. f_equal. apply Permutation_length.
  apply NoDup_Permutation; try apply NoDup_nodup.
  intros x. rewrite !nodup_In. split; apply Permutation_in;
    [exact Hp | exact (Permutation_sym Hp)].
Qed.

(** ** Arrays *)

Lemma entry_tabulate (N : nat) (f : nat -> nat -> Q) (a b : nat) :
  (a < N)%nat -> (b < N)%nat -> entry (tabulate N f) a b = f a b.
Proof.
  intros Ha Hb. unfold entry, tabulate.
  rewrite (nth_indep _ [] (map (f 0%nat) (seq 0 N))) by (rewrite length_map, length_seq; exact Ha).
  rewrite (map_nth (fun a0 => map (f a0) (seq 0 N))).
  rewrite seq_nth by exact Ha. simpl.
  rewrite (nth_indep _ 0 (f a 0%nat)) by (rewrite length_map, length_seq; exact Hb).
  rewrite (map_nth (f a)). rewrite seq_nth by exact Hb. reflexivity.
Qed.

Lemma entry_zeros (N a b : nat) :
  (a < N)%nat -> (b < N)%nat -> entry (zeros N) a b = 0.
Proof. intros Ha Hb. unfold zeros. apply entry_tabulate; assumption. Qed.

Lemma pair_in_iff (p : nat * nat) (ps : list (nat * nat)) :
  pair_in p ps = true <-> In p ps.
Proof.
  unfold pair_in. rewrite existsb_exists. split.
  - intros [q [Hq E]]. unfold pair_eqb in E.
    apply andb_true_iff in E as [E1 E2].
    apply Nat.eqb_eq in E1, E2. destruct p, q; simpl in *; subst. exact Hq.
  - intros H. exists p. split; [exact H|].
    unfold pair_eqb. rewrite !Nat.eqb_refl. reflexivity.
Qed.

Lemma pair_in_false (p : nat * nat) (ps : list (nat * nat)) :
  pair_in p ps = false <-> ~ In p ps.
Proof.
  rewrite <- pair_in_iff. destruct (pair_in p ps); split; intros; congruence.
Qed.

Lemma in_bounds_iff (N : nat) (ps : list (nat * nat)) :
  in_bounds N ps = true <->
  (forall a b, In (a, b) ps -> (a < N)%nat /\ (b < N)%nat).
Proof.
  unfold in_bounds. rewrite forallb_forall. split.
  - intros H a b Hin. specialize (H _ Hin). simpl in H.
    apply andb_true_iff in H as [H1 H2].
    apply Nat.ltb_lt in H1, H2. auto.
  - intros H [a b] Hin. destruct (H a b Hin) as [H1 H2]. simpl.
    apply andb_true_iff. split; apply Nat.ltb_lt; assumption.
Qed.

Lemma fancy_incr_ok (N : nat) (m m' : matrix) (ps : list (nat * nat)) :
  fancy_incr N m ps = Ok m' ->
  forall a b, (a < N)%nat -> (b < N)%nat ->
    entry m' a b == entry m a b + ind (pair_in (a, b) ps).
Proof.
  unfold fancy_incr. destruct (in_bounds N ps); [|discriminate].
  intros H a b Ha Hb. inversion H; subst.
  rewrite entry_tabulate by assumption.
  unfold ind. destruct (pair_in (a, b) ps); ring.
Qed.

Lemma fancy_incr_raise (N : nat) (m : matrix) (ps : list (nat * nat)) (e : exn) :
  fancy_incr N m ps = Raise e -> e = IndexError.
Proof. unfold fancy_incr. destruct (in_bounds N ps); congruence. Qed.

Lemma take_ok {A : Type} (d : A) (arr : list A) (idx : list nat) (xs : list A) :
  take arr idx = Ok xs ->
  Forall (fun p => (p < length arr)%nat) idx /\ xs = map (fun p => nth p arr d) idx.
Proof.
  revert xs. induction idx as [|p idx IH]; simpl; intros xs H.
  - inversion H. split; [constructor | reflexivity].
  - destruct (nth_error arr p) as [x|] eqn:E; [|discriminate].
    destruct (take arr idx) as [ys|e]; simpl in H; [|discriminate].
    inversion H; subst. destruct (IH ys eq_refl) as [Hall Hys].
    split.
    + constructor; [|exact Hall]. apply nth_error_Some. congruence.
    + simpl. f_equal; [|exact Hys]. symmetry. apply nth_error_nth. exact E.
Qed.

Lemma take_in_range {A : Type} (arr : list A) (idx : list nat) :
  Forall (fun p => (p < length arr)%nat) idx -> is_ok (take arr idx) = true.
Proof.
  induction 1 as [|p idx Hp _ IH]; simpl; [reflexivity|].
  destruct (nth_error arr p) eqn:E.
  - destruct (take arr idx); [reflexivity | discriminate].
  - apply nth_error_None in E. lia.
Qed.

Lemma take_raise {A : Type} (arr : list A) (idx : list nat) (e : exn) :
  take arr idx = Raise e -> e = IndexError.
Proof.
  induction idx as [|p idx IH]; simpl; [discriminate|].
  destruct (nth_error arr p); [|congruence].
  destruct (take arr idx) as [xs|e1]; simpl; [discriminate|].
  intros H. inversion H; subst. apply IH. reflexivity.
Qed.

(** ** Sums, [cumsum], [argmax] and the curves *)

Lemma big_sum_ext (n : nat) (f g : nat -> Q) :
  (forall j, (j < n)%nat -> f j == g j) -> big_sum n f == big_sum n g.
Proof.
  induction n as [|n IH]; intros E; simpl; [reflexivity|].
  rewrite IH by (intros j Hj; apply E; lia).
  rewrite (E n) by lia. reflexivity.
Qed.

Lemma big_sum_shift (n : nat) (f : nat -> Q) :
  big_sum (S n) f == f 0%nat + big_sum n (fun j => f (S j)).
Proof.
  induction n as [|n IH]; simpl in *; [ring|].
  rewrite IH. ring.
Qed.

Lemma sum_snoc (l : list Q) (x : Q) : Py.sum (l ++ [x]) = Py.sum l + x.
Proof. unfold Py.sum. rewrite fold_left_app. reflexivity. Qed.

Lemma sum_big_sum (l : list Q) :
  Py.sum l == big_sum (length l) (fun j => nth j l 0).
Proof.
  induction l as [|x l IH] using rev_ind; [reflexivity|].
  rewrite sum_snoc, length_app, Nat.add_1_r. simpl.
  rewrite nth_middle, IH.
  rewrite (big_sum_ext (length l) (fun j => nth j (l ++ [x]) 0) (fun j => nth j l 0)).
  - reflexivity.
  - intros j Hj. rewrite app_nth1 by exact Hj. reflexivity.
Qed.

Lemma cumsum_from_length (acc : Q) (l : list Q) :
  length (cumsum_from acc l) = length l.
Proof.
  revert acc. induction l as [|x l IH]; intros acc; simpl; auto.
Qed.

Lemma cumsum_from_nth (l : list Q) :
  forall (acc : Q) (j : nat), (j < length l)%nat ->
    nth j (cumsum_from acc l) 0 == acc + big_sum (S j) (fun i => nth i l 0).
Proof.
  induction l as [|x l IH]; intros acc j Hj; simpl in Hj; [lia|].
  destruct j as [|j].
  - simpl. ring.
  - cbn [cumsum_from nth]. rewrite IH by lia.
    rewrite (big_sum_shift (S j) (fun i => nth i (x :: l) 0)).
    cbn [nth]. ring.
Qed.

(** The loop of [fit] over the bins computes the sum of the specification. *)
Lemma area_pipeline (hist bins : list Q) (n : nat) :
  length hist = n -> length bins = S n ->
  Py.sum (map (fun '(b, a, h) => h * (b - a))
            (zip3 (tl bins) (removelast bins) (cumsum hist)))
  == big_sum n (fun j => cumulative_density hist j * bin_width bins j).
Proof.
  intros Hh Hb.
  set (f := fun '(b, a, h) => h * (b - a)).
  assert (length (zip3 (tl bins) (removelast bins) (cumsum hist)) = n) as Hz.
  { apply zip3_length.
    - rewrite length_tl. lia.
    - rewrite length_removelast. lia.
    - unfold cumsum. rewrite cumsum_from_length. exact Hh. }
  rewrite sum_big_sum, length_map, Hz.
  apply big_sum_ext. intros j Hj.
  rewrite (nth_indep _ 0 (f (0, 0, 0))) by (rewrite length_map, Hz; exact Hj).
  rewrite (map_nth f), zip3_nth.
  - unfold f, bin_width, cumulative_density, cumsum.
    rewrite nth_tl, nth_removelast by lia.
    rewrite cumsum_from_nth by lia. ring.
  - rewrite length_tl. lia.
  - rewrite length_removelast. lia.
  - unfold cumsum. rewrite cumsum_from_length. lia.
Qed.

Lemma histogram_shape (a : list Q) :
  length (fst (histogram a)) = n_bins
  /\ length (snd (histogram a)) = S n_bins
  /\ nth 0 (snd (histogram a)) 0 == fst (outer_edges a)
  /\ nth n_bins (snd (histogram a)) 0 = snd (outer_edges a).
Proof.
  unfold histogram. destruct (outer_edges a) as [lo hi]. simpl.
  repeat split; try reflexivity.
  unfold Qdiv. ring.
Qed.

Lemma cdf_area_correct (m : matrix) : cdf_area m == cdf_area_spec (ravel m).
Proof.
  unfold cdf_area, cdf_area_spec.
  destruct (histogram_shape (ravel m)) as [Hh [Hb _]].
  destruct (histogram (ravel m)) as [hist bins]. simpl in Hh, Hb.
  apply area_pipeline; assumption.
Qed.

Lemma outer_edges_distinct (a : list Q) :
  ~ fst (outer_edges a) == snd (outer_edges a).
Proof.
  unfold outer_edges. destruct a as [|x t]; simpl; [lra|].
  destruct (Qeq_bool (fold_left Qmin t x) (fold_left Qmax t x)) eqn:E; simpl.
  - apply Qeq_bool_iff in E. lra.
  - apply Qeq_bool_neq in E. exact E.
Qed.

Lemma bin_width_edges (lo hi : Q) (l : nat) :
  (l < n_bins)%nat ->
  bin_width (bin_edges lo hi) l == (hi - lo) / inject_Z (Z.of_nat n_bins).
Proof.
  intros Hl. unfold n_bins in *.
  do 10 (destruct l as [|l]; [unfold bin_width, bin_edges; simpl; field; discriminate|]).
  lia.
Qed.

Lemma big_sum_scale (n : nat) (f : nat -> Q) (c : Q) :
  big_sum n f * c == big_sum n (fun j => f j * c).
Proof.
  induction n as [|n IH]; simpl; [ring|]. rewrite <- IH. ring.
Qed.

Lemma density_times_width (c w w' total : Q) :
  w == w' -> ~ w == 0 -> c / w / total * w' == c / total.
Proof.
  intros E Hw. rewrite <- E. unfold Qdiv.
  setoid_replace (c * / w * / total * w) with (c * / total * (w * / w)) by ring.
  rewrite Qmult_inv_r by exact Hw. ring.
Qed.

Lemma histogram_density (a : list Q) (l : nat) :
  (l < n_bins)%nat ->
  let lo := fst (outer_edges a) in
  let hi := snd (outer_edges a) in
  let counts := bin_counts lo hi a in
  nth l (fst (histogram a)) 0
  == nth l counts 0 / bin_width (snd (histogram a)) l / Py.sum counts.
Proof.
  intros Hl. unfold histogram. destruct (outer_edges a) as [lo hi]. simpl fst. simpl snd.
  unfold n_bins in Hl.
  do 10 (destruct l as [|l]; [apply Qeq_refl|]). lia.
Qed.

(** What the stability area amounts to: the density of a bin times a bin
    width is the fraction of the values that fall in the bin, so each term is
    the fraction of the values in the bins up to [j], and the area is the
    sum of these ten fractions. *)
Lemma cdf_area_spec_fractions (values : list Q) :
  let lo := fst (outer_edges values) in
  let hi := snd (outer_edges values) in
  let counts := bin_counts lo hi values in
  cdf_area_spec values
  == big_sum n_bins
       (fun j => big_sum (S j) (fun l => nth l counts 0) / Py.sum counts).
Proof.
  cbv zeta. unfold cdf_area_spec.
  pose proof (histogram_density values) as Hd. cbv zeta in Hd.
  pose proof (outer_edges_distinct values) as Hne.
  assert (snd (histogram values)
          = bin_edges (fst (outer_edges values)) (snd (outer_edges values))) as Hbins.
  { unfold histogram. destruct (outer_edges values). reflexivity. }
  destruct (histogram values) as [hist bins]. cbn [fst snd] in Hd, Hbins. subst bins.
  set (lo := fst (outer_edges values)) in *.
  set (hi := snd (outer_edges values)) in *.
  apply big_sum_ext. intros j Hj.
  unfold cumulative_density.
  rewrite big_sum_scale.
  unfold Qdiv at 1. rewrite big_sum_scale.
  apply big_sum_ext. intros l Hl.
  rewrite (Hd l) by lia.
  apply density_times_width.
  - rewrite !bin_width_edges by lia. reflexivity.
  - rewrite bin_width_edges by lia. unfold n_bins. simpl.
    intros E. apply Hne. fold lo hi.
    assert (hi - lo == 0) as Hz.
    { rewrite <- (Qmult_div_r (hi - lo) (inject_Z 10)) by discriminate.
      rewrite E. ring. }
    lra.
Qed.

Lemma delta_curve_length (L K : Z) (ak : list Q) :
  length ak = Z.to_nat (K - L) ->
  length (delta_curve L K ak) = Z.to_nat (K - L - 1).
Proof.
  intros Hlen. unfold delta_curve. rewrite length_map.
  apply zip3_length.
  - rewrite length_tl. lia.
  - rewrite length_removelast. lia.
  - rewrite length_range. lia.
Qed.

Lemma delta_curve_nth (L K : Z) (ak : list Q) (i : nat) :
  length ak = Z.to_nat (K - L) -> (i < Z.to_nat (K - L - 1))%nat ->
  nth i (delta_curve L K ak) 0
  = if (2 <? L + Z.of_nat i)%Z
    then (nth (S i) ak 0 - nth i ak 0) / nth i ak 0
    else nth i ak 0.
Proof.
  intros Hlen Hi. unfold delta_curve.
  set (f := fun '(Ab, Aa, i0) => if (2 <? i0)%Z then (Ab - Aa) / Aa else Aa).
  rewrite (nth_indep _ 0 (f (0, 0, 0%Z)))
    by (rewrite length_map;
        rewrite (zip3_length _ _ _ (Z.to_nat (K - L - 1)));
        [exact Hi | rewrite length_tl; lia | rewrite length_removelast; lia
         | rewrite length_range; lia]).
  rewrite (map_nth f).
  rewrite zip3_nth.
  - rewrite nth_tl, nth_removelast by lia. rewrite nth_range by lia. reflexivity.
  - rewrite length_tl. lia.
  - rewrite length_removelast. lia.
  - rewrite length_range. lia.
Qed.

Lemma argmax_from_spec (t : list Q) :
  forall (bi : nat) (b : Q) (i0 : nat),
    let r := argmax_from bi b i0 t in
    (r = bi /\ Forall (fun x => x <= b) t)
    \/ ((i0 <= r < i0 + length t)%nat
        /\ b < nth (r - i0) t 0
        /\ (forall j, (j < r - i0)%nat -> nth j t 0 < nth (r - i0) t 0)
        /\ Forall (fun x => x <= nth (r - i0) t 0) t).
Proof.
  induction t as [|x t IH]; intros bi b i0; simpl.
  - left. split; [reflexivity | constructor].
  - destruct (Qle_bool x b) eqn:E.
    + apply Qle_bool_iff in E.
      destruct (IH bi b (S i0)) as [[Hr Hall]|[Hr [Hb [Hlt Hall]]]].
      * left. split; [exact Hr | constructor; assumption].
      * right.
        replace (argmax_from bi b (S i0) t - i0)%nat
          with (S (argmax_from bi b (S i0) t - S i0)) by lia.
        split; [lia|]. split; [exact Hb|]. split.
        -- intros [|j] Hj; [lra | apply Hlt; lia].
        -- constructor; [lra | exact Hall].
    + assert (b < x) as Hbx.
      { apply Qnot_le_lt. intros Hle. apply Qle_bool_iff in Hle. congruence. }
      right.
      destruct (IH i0 x (S i0)) as [[Hr Hall]|[Hr [Hb [Hlt Hall]]]].
      * rewrite Hr, Nat.sub_diag. simpl.
        split; [lia|]. split; [exact Hbx|]. split.
        -- intros j Hj. lia.
        -- constructor; [lra | exact Hall].
      * replace (argmax_from i0 x (S i0) t - i0)%nat
          with (S (argmax_from i0 x (S i0) t - S i0)) by lia.
        split; [lia|]. split; [lra|]. split.
        -- intros [|j] Hj; [exact Hb | apply Hlt; lia].
        -- constructor; [lra | exact Hall].
Qed.

(** [np.argmax] returns the position of a maximal element, the first one. *)
Lemma argmax_spec (l : list Q) :
  l <> [] ->
  (argmax l < length l)%nat
  /\ (forall j, (j < length l)%nat -> nth j l 0 <= nth (argmax l) l 0)
  /\ (forall j, (j < argmax l)%nat -> nth j l 0 < nth (argmax l) l 0).
Proof.
  destruct l as [|x t]; [congruence|]. intros _. simpl.
  destruct (argmax_from_spec t 0 x 1) as [[Hr Hall]|[Hr [Hb [Hlt Hall]]]].
  - rewrite Hr. split; [lia|]. split; [|intros j Hj; lia].
    intros [|j] Hj; [lra|].
    rewrite Forall_forall in Hall. apply Hall, nth_In. lia.
  - destruct (argmax_from 0 x 1 t) as [|r] eqn:Er; [lia|].
    replace (S r - 1)%nat with r in * by lia.
    split; [lia|]. split.
    + intros [|j] Hj; [lra|].
      rewrite Forall_forall in Hall. apply Hall, nth_In. lia.
    + intros [|j] Hj; [exact Hb | apply Hlt; lia].
Qed.

(** ** From accumulators to a consensus matrix *)

Lemma counts_ok_zeros (N : nat) : counts_ok N (zeros N, zeros N).
Proof.
  intros a b Ha Hb. simpl. rewrite !entry_zeros by assumption. repeat split; lra.
Qed.

(** The consensus matrix obtained from accumulators in the state
    [counts_ok]: symmetric, ones on the diagonal, entries between 0 and 1. *)
Lemma finalize_consensus (N : nat) (M Is : matrix) :
  counts_ok N (M, Is) ->
  forall a b, (a < N)%nat -> (b < N)%nat ->
    let C := fst (finalize N M Is) in
    entry C a b == entry C b a /\ entry C a a == 1
    /\ 0 <= entry C a b <= 1.
Proof.
  intros Hs a b Ha Hb. simpl.
  unfold add, div, add_scalar, transpose, eye.
  rewrite !entry_tabulate by assumption.
  destruct (Hs a b Ha Hb) as [HM [HI [Hd Hle]]].
  destruct (Hs b a Hb Ha) as [HM' [HI' [Hd' _]]].
  simpl in *.
  set (x := entry M a b) in *. set (y := entry M b a) in *.
  set (u := entry Is a b) in *. set (v := entry Is b a) in *.
  rewrite Nat.eqb_refl, (Nat.eqb_sym b a).
  split; [ring|]. split.
  { rewrite Hd. unfold Qdiv. ring. }
  assert (0 < u + v + eps) as Hpos by (unfold eps; lra).
  assert (x / (u + v + eps) + y / (v + u + eps) == (x + y) / (u + v + eps)) as ->.
  { field. repeat split; lra. }
  destruct (Nat.eqb_spec a b) as [->|Hne].
  - unfold x, y. rewrite Hd.
    setoid_replace ((0 + 0) / (u + v + eps)) with 0 by (unfold Qdiv; ring).
    split; lra.
  - split.
    + assert (0 <= (x + y) / (u + v + eps)); [|lra].
      apply Qle_shift_div_l; [exact Hpos|lra].
    + assert ((x + y) / (u + v + eps) <= 1); [|lra].
      apply Qle_shift_div_r; [exact Hpos|unfold eps; lra].
Qed.

(** ** Construction *)

(** C6, as the code has it.  Construction raises (the [AssertionError] of
    its only check) exactly when [resample_proportion] is outside [[0, 1]];
    otherwise, for any [L] and [K], it returns an engine holding the
    configuration with [Mk], [Ak], [deltaK] and [bestK] unset. *)
Theorem init_checks_proportion_only {C : Type} (cluster : C) (L K H : Z) (rp : Q) :
  (0 <= rp <= 1 ->
   init cluster L K H rp
   = Ok (mkEngine cluster rp L K H None None None None None))
  /\ (~ (0 <= rp <= 1) -> init cluster L K H rp = Raise AssertionError).
Proof.
  unfold init. split.
  - intros [H0 H1]. apply Qle_bool_iff in H0, H1. rewrite H0, H1. reflexivity.
  - intros Hout.
    destruct (Qle_bool 0 rp) eqn:E0; destruct (Qle_bool rp 1) eqn:E1;
      try reflexivity.
    exfalso. apply Hout. split; apply Qle_bool_iff; assumption.
Qed.

(** ** The loops of the engine, for any [argsort] that meets its contract *)

Section EngineFacts.

Variable argsort : list Z -> list nat.
Hypothesis argsort_ok : argsort_contract argsort.

Lemma argsort_perm (keys : list Z) :
  Permutation (argsort keys) (seq 0 (length keys)).
Proof. exact (proj1 (argsort_ok keys)). Qed.

Lemma argsort_sorted (keys : list Z) :
  StronglySorted Z.le (map (fun p => nth p keys 0%Z) (argsort keys)).
Proof. exact (proj2 (argsort_ok keys)). Qed.

Lemma argsort_NoDup (keys : list Z) : NoDup (argsort keys).
Proof.
  apply (Permutation_NoDup (Permutation_sym (argsort_perm keys))), seq_NoDup.
Qed.

Lemma in_argsort (keys : list Z) (p : nat) :
  In p (argsort keys) <-> (p < length keys)%nat.
Proof.
  split; intros H.
  - apply (Permutation_in _ (argsort_perm keys)) in H. apply in_seq in H. lia.
  - apply (Permutation_in _ (Permutation_sym (argsort_perm keys))).
    apply in_seq. lia.
Qed.

Lemma sorted_labels_perm (keys : list Z) :
  Permutation (map (fun p => nth p keys 0%Z) (argsort keys)) keys.
Proof.
  rewrite (Permutation_map _ (argsort_perm keys)), map_nth_seq. reflexivity.
Qed.

Lemma sorted_labels_slice (t : Trial) (i : Z) :
  let id_clusts := argsort (Mh t) in
  let sorted_ := map (fun p => nth p (Mh t) 0%Z) id_clusts in
  slice (bisect_left sorted_ i) (bisect_right sorted_ i) id_clusts
  = positions_of argsort t i.
Proof.
  simpl. unfold positions_of.
  apply (slice_bisect (fun p => nth p (Mh t) 0%Z) i), argsort_sorted.
Qed.

(** *** One cluster of one trial *)

(** One pass of the loop over clusters adds one to the cells selected by the
    pairs of that cluster. *)
Lemma accumulate_cluster_ok (N : nat) (t : Trial) (i : Z) (M M' : matrix) :
  accumulate_cluster N (resampled_indices t) (argsort (Mh t))
    (map (fun p => nth p (Mh t) 0%Z) (argsort (Mh t))) i M = Ok M' ->
  Forall (fun p => (p < length (resampled_indices t))%nat) (positions_of argsort t i)
  /\ forall a b, (a < N)%nat -> (b < N)%nat ->
       entry M' a b == entry M a b
                       + ind (pair_in (a, b) (combinations2 (cluster_rows argsort t i))).
Proof.
  unfold accumulate_cluster.
  pose proof (sorted_labels_slice t i) as Hs. simpl in Hs. rewrite Hs. clear Hs.
  destruct (take (resampled_indices t) (positions_of argsort t i)) as [is_|e] eqn:E;
    simpl; [|discriminate].
  apply (take_ok 0%nat) in E as [Hall His]. fold (cluster_rows argsort t i) in His.
  subst is_. intros H. split; [exact Hall|].
  destruct (combinations2 (cluster_rows argsort t i)) as [|pr ps] eqn:Ec.
  - inversion H; subst. intros a b _ _. simpl. unfold ind. ring.
  - intros a b Ha Hb. apply (fancy_incr_ok N M M' _ H a b Ha Hb).
Qed.

Lemma accumulate_cluster_raise (N : nat) (res ids : list nat) (sorted_ : list Z)
  (i : Z) (M : matrix) (e : exn) :
  accumulate_cluster N res ids sorted_ i M = Raise e -> e = IndexError.
Proof.
  unfold accumulate_cluster.
  destruct (take res _) as [is_|e1] eqn:E; simpl.
  - destruct (combinations2 is_); [discriminate|]. apply fancy_incr_raise.
  - intros H. inversion H; subst. exact (take_raise _ _ _ E).
Qed.

Section ClusterRows.
Variable t : Trial.

Let res := resampled_indices t.
Let valid (i : Z) : Prop :=
  Forall (fun p => (p < length res)%nat) (positions_of argsort t i).

Lemma in_positions_of (i : Z) (p : nat) :
  In p (positions_of argsort t i) <-> (p < length (Mh t))%nat /\ nth p (Mh t) 0%Z = i.
Proof.
  unfold positions_of. rewrite filter_In, in_argsort, Z.eqb_eq. tauto.
Qed.

Lemma positions_of_NoDup (i : Z) : NoDup (positions_of argsort t i).
Proof. apply NoDup_filter, argsort_NoDup. Qed.

Lemma in_cluster_rows (i : Z) (a : nat) :
  In a (cluster_rows argsort t i) <->
  exists p, (p < length (Mh t))%nat /\ nth p (Mh t) 0%Z = i /\ nth p res 0%nat = a.
Proof.
  unfold cluster_rows. rewrite in_map_iff. split.
  - intros [p [E Hp]]. apply in_positions_of in Hp. exists p. tauto.
  - intros [p [H1 [H2 E]]]. exists p. split; [exact E|].
    apply in_positions_of. auto.
Qed.

Hypothesis res_NoDup : NoDup res.

Lemma cluster_rows_NoDup (i : Z) : valid i -> NoDup (cluster_rows argsort t i).
Proof.
  intros Hv. unfold cluster_rows.
  apply Finite.Injective_map_NoDup_in; [|apply positions_of_NoDup].
  intros p q Hp Hq E.
  unfold valid in Hv. rewrite Forall_forall in Hv.
  apply (proj1 (NoDup_nth res 0%nat) res_NoDup p q (Hv p Hp) (Hv q Hq) E).
Qed.

(** A resampled row carries one label. *)
Lemma cluster_rows_label (i j : Z) (a : nat) :
  valid i -> valid j ->
  In a (cluster_rows argsort t i) -> In a (cluster_rows argsort t j) -> i = j.
Proof.
  unfold valid, cluster_rows. rewrite !Forall_forall, !in_map_iff.
  intros Hi Hj [p [Ep Hp]] [q [Eq Hq]].
  assert (p = q) as ->.
  { apply (proj1 (NoDup_nth res 0%nat) res_NoDup); auto.
    unfold res. rewrite Ep, Eq. reflexivity. }
  apply in_positions_of in Hp, Hq. destruct Hp, Hq. congruence.
Qed.

Lemma cluster_rows_drawn (i : Z) (a : nat) :
  valid i -> In a (cluster_rows argsort t i) -> In a res.
Proof.
  unfold valid, cluster_rows. rewrite Forall_forall, in_map_iff.
  intros Hv [p [E Hp]]. subst a. apply nth_In. auto.
Qed.

(** The cells selected by the clusters [labels]: never on the diagonal,
    never both [(a, b)] and [(b, a)], and only among the cells selected by
    the pairs of the whole resample or their mirror images. *)
Lemma cluster_hit_diag (labels : list Z) (a : nat) :
  (forall i, In i labels -> valid i) -> cluster_hit argsort t labels a a = false.
Proof.
  intros Hv. unfold cluster_hit.
  apply not_true_is_false. rewrite existsb_exists. intros [i [Hi Hin]].
  apply pair_in_iff in Hin.
  exact (combinations2_irrefl _ a (cluster_rows_NoDup i (Hv i Hi)) Hin).
Qed.

Lemma cluster_hit_asym (labels : list Z) (a b : nat) :
  (forall i, In i labels -> valid i) ->
  cluster_hit argsort t labels a b = true -> cluster_hit argsort t labels b a = false.
Proof.
  intros Hv. unfold cluster_hit. rewrite existsb_exists. intros [i [Hi Hin]].
  apply not_true_is_false. rewrite existsb_exists. intros [j [Hj Hin']].
  apply pair_in_iff in Hin, Hin'.
  assert (i = j) as <-.
  { apply in_combinations2 in Hin, Hin'.
    apply (cluster_rows_label i j a); auto; tauto. }
  exact (combinations2_asym _ a b (cluster_rows_NoDup i (Hv i Hi)) Hin Hin').
Qed.

Lemma cluster_hit_drawn (labels : list Z) (a b : nat) :
  (forall i, In i labels -> valid i) ->
  cluster_hit argsort t labels a b = true ->
  drawn_hit t a b || drawn_hit t b a = true.
Proof.
  intros Hv. unfold cluster_hit, drawn_hit. rewrite existsb_exists.
  intros [i [Hi Hin]]. apply pair_in_iff in Hin.
  assert (a <> b) as Hne.
  { intros ->. exact (combinations2_irrefl _ b (cluster_rows_NoDup i (Hv i Hi)) Hin). }
  apply in_combinations2 in Hin as [Ha Hb].
  apply (cluster_rows_drawn i a (Hv i Hi)) in Ha.
  apply (cluster_rows_drawn i b (Hv i Hi)) in Hb.
  apply orb_true_iff. rewrite !pair_in_iff.
  apply combinations2_total; assumption.
Qed.

Lemma drawn_hit_asym (a b : nat) :
  drawn_hit t a b = true -> drawn_hit t b a = false.
Proof.
  unfold drawn_hit. rewrite pair_in_iff, pair_in_false.
  apply combinations2_asym. exact res_NoDup.
Qed.

(** No cell is selected by two clusters of a list without repetition. *)
Lemma cluster_hit_cons (i : Z) (labels : list Z) (a b : nat) :
  ~ In i labels -> (forall j, In j (i :: labels) -> valid j) ->
  ind (pair_in (a, b) (combinations2 (cluster_rows argsort t i)))
    + ind (cluster_hit argsort t labels a b)
  == ind (cluster_hit argsort t (i :: labels) a b).
Proof.
  intros Hnot Hv. simpl.
  destruct (pair_in (a, b) (combinations2 (cluster_rows argsort t i))) eqn:E1;
    destruct (cluster_hit argsort t labels a b) eqn:E2; simpl; try ring.
  exfalso. unfold cluster_hit in E2. apply existsb_exists in E2 as [j [Hj E2]].
  apply pair_in_iff in E1, E2.
  apply in_combinations2 in E1 as [E1 _]. apply in_combinations2 in E2 as [E2 _].
  assert (i = j) by (apply (cluster_rows_label i j a); auto; apply Hv; simpl; auto).
  subst j. contradiction.
Qed.
End ClusterRows.

(** *** One trial *)

Section TrialStep.
Variable N : nat.
Variable t : Trial.
Hypothesis res_NoDup : NoDup (resampled_indices t).

Let valid (i : Z) : Prop :=
  Forall (fun p => (p < length (resampled_indices t))%nat) (positions_of argsort t i).

Lemma cluster_loop_ok (labels : list Z) (M M' : matrix) :
  NoDup labels ->
  for_each labels
    (accumulate_cluster N (resampled_indices t) (argsort (Mh t))
       (map (fun p => nth p (Mh t) 0%Z) (argsort (Mh t)))) M = Ok M' ->
  (forall i, In i labels -> valid i)
  /\ forall a b, (a < N)%nat -> (b < N)%nat ->
       entry M' a b == entry M a b + ind (cluster_hit argsort t labels a b).
Proof.
  intros Hnd. revert M. induction Hnd as [|i labels Hi Hnd IH]; intros M Hrun.
  - inversion Hrun; subst. split; [intros i []|].
    intros a b _ _. simpl. unfold ind. ring.
  - simpl in Hrun.
    destruct (accumulate_cluster _ _ _ _ i M) as [M1|e] eqn:E;
      simpl in Hrun; [|discriminate].
    apply accumulate_cluster_ok in E as [Hvi E].
    destruct (IH M1 Hrun) as [Hv IHcells].
    assert (forall j, In j (i :: labels) -> valid j) as Hv'.
    { intros j [<-|Hj]; [exact Hvi | exact (Hv j Hj)]. }
    split; [exact Hv'|].
    intros a b Ha Hb.
    rewrite (IHcells a b Ha Hb), (E a b Ha Hb).
    rewrite <- (cluster_hit_cons t res_NoDup i labels a b Hi Hv'). ring.
Qed.

Lemma trial_step_ok (nclust : list Z -> Z) (M Is M' Is' : matrix) :
  trial_step argsort N nclust t (M, Is) = Ok (M', Is') ->
  (forall i, In i (trial_labels argsort nclust t) -> valid i)
  /\ (2 <= length (resampled_indices t))%nat
  /\ forall a b, (a < N)%nat -> (b < N)%nat ->
       entry M' a b == entry M a b + ind (cluster_hit argsort t (trial_labels argsort nclust t) a b)
       /\ entry Is' a b == entry Is a b + ind (drawn_hit t a b).
Proof.
  unfold trial_step. fold (trial_labels argsort nclust t).
  destruct (for_each (trial_labels argsort nclust t) _ M) as [M1|e] eqn:E;
    simpl; [|discriminate].
  apply cluster_loop_ok in E as [Hv Hcells]; [|apply range_NoDup].
  destruct (combinations2 (resampled_indices t)) as [|pr ps] eqn:Ec;
    [discriminate|].
  destruct (fancy_incr N Is (pr :: ps)) as [Is1|e] eqn:EI; simpl; [|discriminate].
  intros H. inversion H; subst M1 Is1.
  split; [exact Hv|]. split.
  { destruct (Nat.lt_ge_cases (length (resampled_indices t)) 2) as [Hlt|Hge];
      [|exact Hge].
    apply combinations2_nil_short in Hlt. congruence. }
  intros a b Ha Hb. split; [exact (Hcells a b Ha Hb)|].
  unfold drawn_hit. rewrite Ec. exact (fancy_incr_ok N Is Is' _ EI a b Ha Hb).
Qed.
End TrialStep.

Lemma trial_step_counts (N : nat) (nclust : list Z -> Z) (t : Trial)
  (s s' : matrix * matrix) :
  NoDup (resampled_indices t) ->
  counts_ok N s -> trial_step argsort N nclust t s = Ok s' -> counts_ok N s'.
Proof.
  intros Hnd Hs Hrun. destruct s as [M Is], s' as [M' Is'].
  destruct (trial_step_ok N t Hnd nclust M Is M' Is' Hrun) as [Hv [_ Hcells]].
  intros a b Ha Hb. simpl.
  destruct (Hs a b Ha Hb) as [HM [HI [Hd Hle]]]. simpl in HM, HI, Hd, Hle.
  destruct (Hcells a b Ha Hb) as [Eab Iab].
  destruct (Hcells b a Hb Ha) as [Eba Iba].
  destruct (Hcells a a Ha Ha) as [Eaa _].
  rewrite Eab, Eba, Iab, Iba, Eaa.
  rewrite (cluster_hit_diag t Hnd _ a Hv).
  pose proof (cluster_hit_asym t Hnd _ a b Hv) as Has.
  pose proof (cluster_hit_asym t Hnd _ b a Hv) as Has'.
  pose proof (cluster_hit_drawn t Hnd _ a b Hv) as Hdr.
  pose proof (cluster_hit_drawn t Hnd _ b a Hv) as Hdr'.
  pose proof (drawn_hit_asym t Hnd a b) as Hda.
  destruct (cluster_hit argsort t (trial_labels argsort nclust t) a b);
    destruct (cluster_hit argsort t (trial_labels argsort nclust t) b a);
    destruct (drawn_hit t a b); destruct (drawn_hit t b a);
    simpl in *;
    try (specialize (Has eq_refl)); try (specialize (Has' eq_refl));
    try (specialize (Hdr eq_refl)); try (specialize (Hdr' eq_refl));
    try (specialize (Hda eq_refl)); try discriminate;
    repeat split; lra.
Qed.

Lemma trials_loop_counts (N : nat) (nclust : list Z -> Z) (tr : Z -> Trial)
  (hs : list Z) (s s' : matrix * matrix) :
  (forall h, In h hs -> NoDup (resampled_indices (tr h))) ->
  counts_ok N s ->
  for_each hs (fun h => trial_step argsort N nclust (tr h)) s = Ok s' ->
  counts_ok N s'.
Proof.
  intros Hnd Hs Hrun.
  revert Hs Hrun. apply for_each_invariant.
  intros h s1 s2 Hh Hs1. apply trial_step_counts; auto.
Qed.

Lemma trial_step_raise (N : nat) (nclust : list Z -> Z) (t : Trial)
  (s : matrix * matrix) (e : exn) :
  trial_step argsort N nclust t s = Raise e -> e = IndexError.
Proof.
  destruct s as [M Is]. unfold trial_step.
  destruct (for_each _ _ M) as [M1|e1] eqn:E; simpl.
  - destruct (combinations2 (resampled_indices t)); [congruence|].
    destruct (fancy_incr N Is _) as [Is1|e2] eqn:EI; simpl; [discriminate|].
    intros H. inversion H; subst. exact (fancy_incr_raise _ _ _ _ EI).
  - intros H. inversion H; subst.
    apply for_each_raise in E as [i [M2 [_ E]]].
    exact (accumulate_cluster_raise _ _ _ _ _ _ _ E).
Qed.

Lemma trial_step_two_rows (N : nat) (nclust : list Z -> Z) (t : Trial)
  (s s' : matrix * matrix) :
  trial_step argsort N nclust t s = Ok s' -> (2 <= length (resampled_indices t))%nat.
Proof.
  destruct s as [M Is]. unfold trial_step.
  destruct (for_each _ _ M) as [M1|e1]; simpl; [|discriminate].
  destruct (combinations2 (resampled_indices t)) eqn:Ec; [discriminate|].
  intros _.
  destruct (Nat.lt_ge_cases (length (resampled_indices t)) 2) as [Hlt|Hge];
    [|exact Hge].
  apply combinations2_nil_short in Hlt. congruence.
Qed.

(** *** One candidate count and the whole of [fit] *)

Lemma consensus_of_ext (N : nat) (H k : Z) (tr tr' : Z -> Trial) :
  (forall h, (0 <= h < H)%Z -> tr' h = tr h) ->
  consensus_of argsort N H k tr' = consensus_of argsort N H k tr.
Proof.
  intros E. unfold consensus_of. f_equal.
  apply for_each_ext. intros h s Hh. apply in_range in Hh.
  rewrite (E h Hh). reflexivity.
Qed.

Lemma consensus_of_props (N : nat) (H k : Z) (tr : Z -> Trial) (C : matrix) :
  (forall h, (0 <= h < H)%Z -> NoDup (resampled_indices (tr h))) ->
  consensus_of argsort N H k tr = Ok C ->
  forall a b, (a < N)%nat -> (b < N)%nat ->
    entry C a b == entry C b a /\ entry C a a == 1 /\ 0 <= entry C a b <= 1.
Proof.
  intros Hnd. unfold consensus_of.
  destruct (for_each (range 0 H) _ (zeros N, zeros N)) as [[M Is]|e] eqn:E;
    simpl; [|discriminate].
  intros HC. inversion HC; subst C. clear HC.
  apply finalize_consensus.
  apply (trials_loop_counts N (fun _ => k) tr (range 0 H) (zeros N, zeros N)).
  - intros h Hh. apply Hnd. apply in_range in Hh. exact Hh.
  - apply counts_ok_zeros.
  - exact E.
Qed.

Section FitLoop.
Variable N : nat.
Variables L H : Z.
Variable trials : Z -> Z -> Trial.

Lemma candidate_step_ok (k : Z) (Mk Mk' : list matrix) (Is' : matrix) :
  nth (Z.to_nat (k - L)) Mk (zeros N) = zeros N ->
  candidate_step argsort N L H trials k (Mk, zeros N) = Ok (Mk', Is') ->
  Is' = zeros N
  /\ exists C, consensus_of argsort N H k (trials k) = Ok C
               /\ Mk' = set_nth (Z.to_nat (k - L)) C Mk.
Proof.
  intros Hz. unfold candidate_step, consensus_of. rewrite Hz.
  destruct (for_each (range 0 H) _ (zeros N, zeros N)) as [[M Is1]|e];
    simpl; [|discriminate].
  intros E. inversion E; subst. split; [reflexivity|].
  eexists. split; reflexivity.
Qed.

(** Running the candidates [L + j, ..., L + j + m - 1] from a state whose
    counter is zero and whose slices from [j] on are still zero. *)
Lemma candidates_loop_ok (m : nat) :
  forall (j : nat) (Mk0 Mk : list matrix) (Is : matrix),
  (j + m <= length Mk0)%nat ->
  (forall i, (j <= i < j + m)%nat -> nth i Mk0 (zeros N) = zeros N) ->
  for_each (map (fun i => (L + Z.of_nat i)%Z) (seq j m))
    (candidate_step argsort N L H trials) (Mk0, zeros N) = Ok (Mk, Is) ->
  Is = zeros N /\ length Mk = length Mk0
  /\ (forall i, (i < j)%nat -> nth i Mk (zeros N) = nth i Mk0 (zeros N))
  /\ (forall i, (j <= i < j + m)%nat ->
        consensus_of argsort N H (L + Z.of_nat i) (trials (L + Z.of_nat i))
        = Ok (nth i Mk (zeros N))).
Proof.
  induction m as [|m IH]; intros j Mk0 Mk Is Hlen Hzero Hrun;
    cbn [for_each map seq] in Hrun.
  - inversion Hrun; subst. repeat split; auto; try lia.
  - destruct (candidate_step argsort N L H trials (L + Z.of_nat j) (Mk0, zeros N))
      as [[Mk1 Is1]|e] eqn:E; simpl in Hrun; [|discriminate].
    assert (Z.to_nat (L + Z.of_nat j - L) = j) as Hj by lia.
    assert (nth (Z.to_nat (L + Z.of_nat j - L)) Mk0 (zeros N) = zeros N) as Hz
      by (rewrite Hj; apply Hzero; lia).
    apply (candidate_step_ok _ _ _ _ Hz) in E.
    rewrite Hj in E. destruct E as [-> [C [HC ->]]].
    apply IH in Hrun.
    + destruct Hrun as [HIs [Hlen' [Hlow Hhigh]]].
      rewrite length_set_nth in Hlen'.
      split; [exact HIs|]. split; [exact Hlen'|]. split.
      * intros i Hi. rewrite Hlow by lia. apply nth_set_nth_neq. lia.
      * intros i Hi. destruct (Nat.eq_dec i j) as [->|Hne].
        -- rewrite Hlow by lia. rewrite nth_set_nth_eq by lia. exact HC.
        -- apply Hhigh. lia.
    + rewrite length_set_nth. lia.
    + intros i Hi. rewrite nth_set_nth_neq by lia. apply Hzero. lia.
Qed.

Lemma nth_repeat_zeros (n i : nat) :
  nth i (repeat (zeros N) n) (zeros N) = zeros N.
Proof.
  revert i. induction n as [|n IH]; intros [|i]; simpl; auto.
Qed.
End FitLoop.

Lemma candidate_step_raise (N : nat) (L H : Z) (trials : Z -> Z -> Trial)
  (k : Z) (s : list matrix * matrix) (e : exn) :
  candidate_step argsort N L H trials k s = Raise e -> e = IndexError.
Proof.
  destruct s as [Mk Is]. unfold candidate_step.
  destruct (for_each (range 0 H) _ _) as [[M Is1]|e1] eqn:E; simpl; [discriminate|].
  intros H0. inversion H0; subst.
  apply for_each_raise in E as [h [s1 [_ E]]].
  exact (trial_step_raise _ _ _ _ _ E).
Qed.

(** What a successful [fit] leaves in the engine. *)
Lemma fit_ok {C : Type} (trials : Z -> Z -> Trial) (e e' : engine C)
  (data : dataset) :
  fit argsort trials e data = Ok e' ->
  (L_ e <= K_ e)%Z
  /\ exists mk : list matrix,
       let N := shape0 data in
       let ak := map cdf_area mk in
       let dk := delta_curve (L_ e) (K_ e) ak in
       e' = mkEngine (cluster_ e) (resample_proportion_ e) (L_ e) (K_ e) (H_ e)
              (Some (Arr3 mk)) (Some ak) (Some dk) (Some (best_k (L_ e) dk)) (X e)
       /\ length mk = Z.to_nat (K_ e - L_ e)
       /\ forall i, (i < length mk)%nat ->
            consensus_of argsort N (H_ e) (L_ e + Z.of_nat i)%Z
              (trials (L_ e + Z.of_nat i)%Z)
            = Ok (nth i mk (zeros N)).
Proof.
  unfold fit. destruct (Z.ltb_spec (K_ e - L_ e) 0) as [Hneg|Hpos]; [discriminate|].
  destruct (for_each (range (L_ e) (K_ e)) _ _) as [[mk Is]|ex] eqn:E;
    simpl; [|discriminate].
  intros He. inversion He; subst e'. clear He.
  split; [lia|]. exists mk. simpl.
  unfold range in E.
  apply (candidates_loop_ok (shape0 data) (L_ e) (H_ e) trials
           (Z.to_nat (K_ e - L_ e)) 0) in E.
  - destruct E as [_ [Hlen [_ Hall]]]. rewrite repeat_length in Hlen.
    split; [reflexivity|]. split; [exact Hlen|].
    intros i Hi. apply Hall. lia.
  - rewrite repeat_length. simpl. lia.
  - intros i _. apply nth_repeat_zeros.
Qed.

(** The slice of the fitted tensor for candidate count [k]. *)
Lemma fit_slice {C : Type} (trials : Z -> Z -> Trial) (e e' : engine C)
  (data : dataset) :
  fit argsort trials e data = Ok e' ->
  exists mk, Mk e' = Some (Arr3 mk)
    /\ length mk = Z.to_nat (K_ e - L_ e)
    /\ forall k, (L_ e <= k < K_ e)%Z ->
         consensus_of argsort (shape0 data) (H_ e) k (trials k)
         = Ok (nth (Z.to_nat (k - L_ e)) mk []).
Proof.
  intros Hfit. apply fit_ok in Hfit as [HLK [mk [-> [Hlen Hall]]]].
  exists mk. split; [reflexivity|]. split; [exact Hlen|].
  intros k Hk.
  specialize (Hall (Z.to_nat (k - L_ e))).
  replace (L_ e + Z.of_nat (Z.to_nat (k - L_ e)))%Z with k in Hall by lia.
  rewrite (nth_indep mk [] (zeros (shape0 data))) by lia.
  apply Hall. lia.
Qed.

(** [fit] raises [ValueError] exactly for [K < L]; any other exception comes
    from an index and is an [IndexError]. *)
Lemma fit_raise {C : Type} (trials : Z -> Z -> Trial) (e : engine C)
  (data : dataset) (ex : exn) :
  fit argsort trials e data = Raise ex ->
  (ex = ValueError /\ (K_ e < L_ e)%Z) \/ (ex = IndexError /\ (L_ e <= K_ e)%Z).
Proof.
  unfold fit. destruct (Z.ltb_spec (K_ e - L_ e) 0) as [Hneg|Hpos].
  - intros H. inversion H. left. split; [reflexivity | lia].
  - destruct (for_each (range (L_ e) (K_ e)) _ _) as [[mk Is]|e1] eqn:E;
      simpl; [discriminate|].
    intros H. inversion H; subst.
    apply for_each_raise in E as [k [s1 [_ E]]].
    right. split; [exact (candidate_step_raise _ _ _ _ _ _ _ E) | lia].
Qed.

(** *** Runs that return *)

Section Progress.
Variable N : nat.

Lemma accumulate_cluster_total (t : Trial) (i : Z) (M : matrix) :
  Forall (fun a => (a < N)%nat) (resampled_indices t) ->
  length (Mh t) = length (resampled_indices t) ->
  is_ok (accumulate_cluster N (resampled_indices t) (argsort (Mh t))
           (map (fun p => nth p (Mh t) 0%Z) (argsort (Mh t))) i M) = true.
Proof.
  intros Hlt Hlen. unfold accumulate_cluster.
  pose proof (sorted_labels_slice t i) as Hs. simpl in Hs. rewrite Hs. clear Hs.
  assert (Forall (fun p => (p < length (resampled_indices t))%nat)
            (positions_of argsort t i)) as Hv.
  { apply Forall_forall. intros p Hp. apply in_positions_of in Hp. lia. }
  pose proof (take_in_range _ _ Hv) as Hok.
  destruct (take (resampled_indices t) (positions_of argsort t i)) as [is_|e] eqn:E;
    [|discriminate].
  simpl. apply (take_ok 0%nat) in E as [_ His].
  destruct (combinations2 is_) as [|pr ps] eqn:Ec; [reflexivity|].
  unfold fancy_incr.
  assert (in_bounds N (pr :: ps) = true) as ->; [|reflexivity].
  apply in_bounds_iff. intros a b Hin. rewrite <- Ec in Hin.
  apply in_combinations2 in Hin as [Ha Hb]. subst is_.
  rewrite Forall_forall in Hlt, Hv.
  apply in_map_iff in Ha as [p [<- Hp]]. apply in_map_iff in Hb as [q [<- Hq]].
  split; apply Hlt, nth_In, Hv; assumption.
Qed.

Lemma trial_step_total (nclust : list Z -> Z) (t : Trial) (s : matrix * matrix) :
  trial_contract N t -> (2 <= length (resampled_indices t))%nat ->
  is_ok (trial_step argsort N nclust t s) = true.
Proof.
  intros [_ [Hlt Hlen]] Htwo. destruct s as [M Is]. unfold trial_step.
  pose proof (for_each_total (range 0 (nclust (map (fun p => nth p (Mh t) 0%Z)
                                                  (argsort (Mh t)))))
                (accumulate_cluster N (resampled_indices t) (argsort (Mh t))
                   (map (fun p => nth p (Mh t) 0%Z) (argsort (Mh t))))
                (fun i M0 _ => accumulate_cluster_total t i M0 Hlt Hlen) M) as Hok.
  destruct (for_each _ _ M) as [M1|e]; [|discriminate]. simpl.
  destruct (combinations2 (resampled_indices t)) as [|pr ps] eqn:Ec.
  - apply combinations2_nil_short in Ec. lia.
  - unfold fancy_incr.
    assert (in_bounds N (pr :: ps) = true) as ->; [|reflexivity].
    apply in_bounds_iff. intros a b Hin. rewrite <- Ec in Hin.
    apply in_combinations2 in Hin as [Ha Hb].
    rewrite Forall_forall in Hlt. auto.
Qed.

Lemma candidate_step_total (L H : Z) (trials : Z -> Z -> Trial) (k : Z)
  (s : list matrix * matrix) :
  (forall h, (0 <= h < H)%Z ->
     trial_contract N (trials k h)
     /\ (2 <= length (resampled_indices (trials k h)))%nat) ->
  is_ok (candidate_step argsort N L H trials k s) = true.
Proof.
  intros Hwf. destruct s as [Mk Is]. unfold candidate_step.
  pose proof (for_each_total (range 0 H)
                (fun h => trial_step argsort N (fun _ => k) (trials k h))
                (fun h s0 Hh =>
                   trial_step_total (fun _ => k) (trials k h) s0
                     (proj1 (Hwf h (proj1 (in_range 0 H h) Hh)))
                     (proj2 (Hwf h (proj1 (in_range 0 H h) Hh))))
                (nth (Z.to_nat (k - L)) Mk (zeros N), Is)) as Hok.
  destruct (for_each (range 0 H) _ _) as [[M Is1]|e]; [|discriminate].
  reflexivity.
Qed.
End Progress.

(** [fit] returns whenever the candidate range is not reversed and every
    trial it runs is well formed. *)
Lemma fit_total {C : Type} (trials : Z -> Z -> Trial) (e : engine C)
  (data : dataset) :
  (L_ e <= K_ e)%Z ->
  (forall k h, (L_ e <= k < K_ e)%Z -> (0 <= h < H_ e)%Z ->
     trial_contract (shape0 data) (trials k h)
     /\ (2 <= length (resampled_indices (trials k h)))%nat) ->
  exists e', fit argsort trials e data = Ok e'.
Proof.
  intros HLK Hwf. unfold fit.
  destruct (Z.ltb_spec (K_ e - L_ e) 0) as [Hneg|Hpos]; [lia|].
  pose proof (for_each_total (range (L_ e) (K_ e))
                (candidate_step argsort (shape0 data) (L_ e) (H_ e) trials)
                (fun k s Hk => candidate_step_total (shape0 data) (L_ e) (H_ e)
                                 trials k s
                                 (fun h Hh => Hwf k h (proj1 (in_range _ _ k) Hk) Hh))
                (repeat (zeros (shape0 data)) (Z.to_nat (K_ e - L_ e)),
                 zeros (shape0 data))) as Hok.
  destruct (for_each (range (L_ e) (K_ e)) _ _) as [[mk Is]|ex]; [|discriminate].
  simpl. eexists. reflexivity.
Qed.

(** ** The consensus matrices *)

(** C1. After a successful [fit] on [N] rows, drawn without replacement in
    every trial, the consensus matrix stored for each candidate count [k] of
    [[L, K)] is symmetric and its diagonal entries are equal to 1. *)
Theorem fit_consensus_symmetric_diag_one {C : Type} (trials : Z -> Z -> Trial)
  (e e' : engine C) (data : dataset) :
  (forall k h, (L_ e <= k < K_ e)%Z -> (0 <= h < H_ e)%Z ->
     NoDup (resampled_indices (trials k h))) ->
  fit argsort trials e data = Ok e' ->
  exists mk, Mk e' = Some (Arr3 mk)
    /\ length mk = Z.to_nat (K_ e - L_ e)
    /\ forall k, (L_ e <= k < K_ e)%Z ->
       forall a b, (a < shape0 data)%nat -> (b < shape0 data)%nat ->
         let m := nth (Z.to_nat (k - L_ e)) mk [] in
         entry m a b == entry m b a /\ entry m a a == 1.
Proof.
  intros Hnd Hfit. destruct (fit_slice trials e e' data Hfit) as [mk [HMk [Hlen Hall]]].
  exists mk. split; [exact HMk|]. split; [exact Hlen|].
  intros k Hk a b Ha Hb. simpl.
  destruct (consensus_of_props _ _ _ _ _ (fun h Hh => Hnd k h Hk Hh) (Hall k Hk) a b Ha Hb)
    as [Hsym [Hdiag _]].
  split; assumption.
Qed.

(** C2. After a successful [fit], every entry of every consensus matrix lies
    between 0 and 1 (the guard [1e-8] only makes the quotients smaller). *)
Theorem fit_consensus_entries_in_unit_interval {C : Type}
  (trials : Z -> Z -> Trial) (e e' : engine C) (data : dataset) :
  (forall k h, (L_ e <= k < K_ e)%Z -> (0 <= h < H_ e)%Z ->
     NoDup (resampled_indices (trials k h))) ->
  fit argsort trials e data = Ok e' ->
  exists mk, Mk e' = Some (Arr3 mk)
    /\ length mk = Z.to_nat (K_ e - L_ e)
    /\ forall k, (L_ e <= k < K_ e)%Z ->
       forall a b, (a < shape0 data)%nat -> (b < shape0 data)%nat ->
         0 <= entry (nth (Z.to_nat (k - L_ e)) mk []) a b <= 1.
Proof.
  intros Hnd Hfit. destruct (fit_slice trials e e' data Hfit) as [mk [HMk [Hlen Hall]]].
  exists mk. split; [exact HMk|]. split; [exact Hlen|].
  intros k Hk a b Ha Hb.
  destruct (consensus_of_props _ _ _ _ _ (fun h Hh => Hnd k h Hk Hh) (Hall k Hk) a b Ha Hb)
    as [_ [_ Hbnd]].
  exact Hbnd.
Qed.

(** C8. In a successful [fit], the counter [Is] is zero when the trials of
    each candidate count [k] start (the state reached after the iterations
    for [L, ..., k - 1] has a zero counter), and the consensus matrix of [k]
    is settled by the trials of [k] alone: another run that agrees on those
    trials produces the same matrix for [k], whatever happens for the other
    candidate counts. *)
Theorem fit_counter_zero_at_each_candidate {C : Type} (trials : Z -> Z -> Trial)
  (e e' : engine C) (data : dataset) :
  fit argsort trials e data = Ok e' ->
  (forall k, (L_ e <= k < K_ e)%Z ->
     exists Mk_k,
       for_each (range (L_ e) k)
         (candidate_step argsort (shape0 data) (L_ e) (H_ e) trials)
         (repeat (zeros (shape0 data)) (Z.to_nat (K_ e - L_ e)), zeros (shape0 data))
       = Ok (Mk_k, zeros (shape0 data)))
  /\ (forall (trials' : Z -> Z -> Trial) (e'' : engine C),
        fit argsort trials' e data = Ok e'' ->
        forall k, (L_ e <= k < K_ e)%Z ->
          (forall h, (0 <= h < H_ e)%Z -> trials' k h = trials k h) ->
          exists mk mk',
            Mk e' = Some (Arr3 mk) /\ Mk e'' = Some (Arr3 mk')
            /\ nth (Z.to_nat (k - L_ e)) mk' [] = nth (Z.to_nat (k - L_ e)) mk []).
Proof.
  intros Hfit. split.
  - intros k Hk. unfold fit in Hfit.
    destruct (Z.ltb_spec (K_ e - L_ e) 0) as [Hneg|Hpos]; [discriminate|].
    destruct (for_each (range (L_ e) (K_ e)) _ _) as [[mk Is]|ex] eqn:E;
      simpl in Hfit; [|discriminate].
    rewrite (range_split (L_ e) k (K_ e)) in E by lia.
    apply for_each_prefix in E as [[Mk_k Is_k] [Epre _]].
    exists Mk_k. rewrite Epre. f_equal. f_equal.
    unfold range in Epre.
    apply (candidates_loop_ok (shape0 data) (L_ e) (H_ e) trials
             (Z.to_nat (k - L_ e)) 0) in Epre.
    + tauto.
    + rewrite repeat_length. lia.
    + intros i _. apply nth_repeat_zeros.
  - intros trials' e'' Hfit' k Hk Hagree.
    destruct (fit_slice trials e e' data Hfit) as [mk [HMk [_ Hall]]].
    destruct (fit_slice trials' e e'' data Hfit') as [mk' [HMk' [_ Hall']]].
    exists mk, mk'. split; [exact HMk|]. split; [exact HMk'|].
    specialize (Hall k Hk). specialize (Hall' k Hk).
    rewrite (consensus_of_ext _ _ _ _ _ Hagree) in Hall'.
    congruence.
Qed.

(** ** Degenerate resamples *)

(** C7. With draws of distinct, in-range rows and one label per drawn row:
    if some trial that [fit] runs draws fewer than 2 rows, [fit] raises (the
    [IndexError] of [ids_2[0]]); if every trial draws at least 2 rows, that
    error is not raised, and [fit] returns unless [K < L]. *)
Theorem fit_degenerate_resample_raises {C : Type} (trials : Z -> Z -> Trial)
  (e : engine C) (data : dataset) :
  (forall k h, (L_ e <= k < K_ e)%Z -> (0 <= h < H_ e)%Z ->
     trial_contract (shape0 data) (trials k h)) ->
  ((exists k h, (L_ e <= k < K_ e)%Z /\ (0 <= h < H_ e)%Z
                /\ (length (resampled_indices (trials k h)) < 2)%nat) ->
   fit argsort trials e data = Raise IndexError)
  /\ ((forall k h, (L_ e <= k < K_ e)%Z -> (0 <= h < H_ e)%Z ->
         (2 <= length (resampled_indices (trials k h)))%nat) ->
      fit argsort trials e data <> Raise IndexError
      /\ ((L_ e <= K_ e)%Z -> exists e', fit argsort trials e data = Ok e')).
Proof.
  intros Hc. split.
  - intros [k [h [Hk [Hh Hshort]]]].
    destruct (fit argsort trials e data) as [e'|ex] eqn:Hfit.
    + exfalso. apply fit_slice in Hfit as [mk [_ [_ Hall]]].
      specialize (Hall k Hk). unfold consensus_of in Hall.
      destruct (for_each (range 0 (H_ e)) _ _) as [[M Is]|e1] eqn:E;
        simpl in Hall; [|discriminate].
      destruct (for_each_ok_body _ _ _ _ E h (proj2 (in_range 0 (H_ e) h) Hh))
        as [s1 [s2 Hstep]].
      apply trial_step_two_rows in Hstep. lia.
    + apply fit_raise in Hfit as [[_ Hlt]|[-> _]]; [lia | reflexivity].
  - intros Htwo.
    assert ((L_ e <= K_ e)%Z -> exists e', fit argsort trials e data = Ok e') as Hok.
    { intros HLK. apply fit_total; [exact HLK|].
      intros k h Hk Hh. split; [apply Hc | apply Htwo]; assumption. }
    split; [|exact Hok].
    intros Hfit. destruct (Z.le_gt_cases (L_ e) (K_ e)) as [HLK|HKL].
    + destruct (Hok HLK) as [e' He]. congruence.
    + apply fit_raise in Hfit as [[Hv _]|[_ HLK]]; [discriminate | lia].
Qed.

(** ** The delta curve and the selected count *)

(** C4. After a successful [fit], [deltaK] has one entry for each pair of
    adjacent candidate counts, one fewer than [Ak], that is [(K - L) - 1] of
    them (none for an empty range), and the entry of index
    [i], of real count [L + i], is [Ak[i]] when the count is at most 2 and
    [(Ak[i+1] - Ak[i]) / Ak[i]] when it exceeds 2. *)
Theorem fit_delta_curve {C : Type} (trials : Z -> Z -> Trial) (e e' : engine C)
  (data : dataset) :
  fit argsort trials e data = Ok e' ->
  exists ak dk,
    Ak e' = Some ak /\ deltaK e' = Some dk
    /\ length ak = Z.to_nat (K_ e - L_ e)
    /\ length dk = (length ak - 1)%nat
    /\ length dk = Z.to_nat (K_ e - L_ e - 1)
    /\ forall i, (i < length dk)%nat ->
         ((L_ e + Z.of_nat i <= 2)%Z -> nth i dk 0 = nth i ak 0)
         /\ ((2 < L_ e + Z.of_nat i)%Z ->
             nth i dk 0 = (nth (S i) ak 0 - nth i ak 0) / nth i ak 0).
Proof.
  intros Hfit. apply fit_ok in Hfit as [HLK [mk [-> [Hlen _]]]]. simpl.
  assert (length (map cdf_area mk) = Z.to_nat (K_ e - L_ e)) as Hak
    by (rewrite length_map; exact Hlen).
  exists (map cdf_area mk), (delta_curve (L_ e) (K_ e) (map cdf_area mk)).
  split; [reflexivity|]. split; [reflexivity|]. split; [exact Hak|].
  split; [rewrite (delta_curve_length _ _ _ Hak), Hak; lia|].
  split; [apply delta_curve_length; exact Hak|].
  intros i Hi. rewrite delta_curve_length in Hi by exact Hak.
  rewrite (delta_curve_nth _ _ _ _ Hak Hi).
  destruct (Z.ltb_spec 2 (L_ e + Z.of_nat i)); split; intros; try lia; reflexivity.
Qed.

(** C3, as the code has it.  After a successful [fit], [bestK] is [L] when
    [deltaK] is empty and otherwise [L] plus the position of the first
    maximal entry of [deltaK]; it lies in [[L, K)] whenever that range is not
    empty, that is for [L < K]. *)
Theorem fit_best_k {C : Type} (trials : Z -> Z -> Trial) (e e' : engine C)
  (data : dataset) :
  fit argsort trials e data = Ok e' ->
  exists dk b,
    deltaK e' = Some dk /\ bestK e' = Some b
    /\ (dk = [] -> b = L_ e)
    /\ (dk <> [] ->
        exists i, b = (L_ e + Z.of_nat i)%Z /\ (i < length dk)%nat
          /\ (forall j, (j < length dk)%nat -> nth j dk 0 <= nth i dk 0)
          /\ (forall j, (j < i)%nat -> nth j dk 0 < nth i dk 0))
    /\ ((L_ e < K_ e)%Z -> (L_ e <= b < K_ e)%Z).
Proof.
  intros Hfit. apply fit_ok in Hfit as [HLK [mk [-> [Hlen _]]]]. simpl.
  set (dk := delta_curve (L_ e) (K_ e) (map cdf_area mk)).
  assert (length dk = Z.to_nat (K_ e - L_ e - 1)) as Hdk
    by (apply delta_curve_length; rewrite length_map; exact Hlen).
  exists dk, (best_k (L_ e) dk).
  split; [reflexivity|]. split; [reflexivity|].
  unfold best_k. split; [|split].
  - intros ->. reflexivity.
  - intros Hne. destruct (argmax_spec dk Hne) as [Hlt [Hmax Hfirst]].
    destruct (Nat.ltb_spec 0 (length dk)) as [_|Hz]; [|lia].
    exists (argmax dk). split; [lia|]. auto.
  - intros HLt. destruct (Nat.ltb_spec 0 (length dk)) as [Hpos|Hz]; [|lia].
    assert (dk <> []) as Hne by (intros E; rewrite E in Hpos; simpl in Hpos; lia).
    destruct (argmax_spec dk Hne) as [Hlt _]. lia.
Qed.

(** ** The single-model variant and the guard of [predict] *)

(** C10. One trial of [fit_from_cfg], run on distinct in-range rows with one
    label per row; [k] is the number of distinct labels.  A pair of rows
    sharing a label of [{0, ..., k-1}] is counted exactly once: one of the
    cells [(a, b)], [(b, a)] grows by one and the other is unchanged.  So
    when the labels are exactly [{0, ..., k-1}] every same-cluster pair is
    counted exactly once.  A row whose label is [k] or greater changes no
    cell of its line or column. *)
Theorem cfg_trial_counts_labels_below_k (N : nat) (t : Trial)
  (M Is M' Is' : matrix) :
  trial_contract N t ->
  trial_step argsort N n_unique t (M, Is) = Ok (M', Is') ->
  let k := n_unique (Mh t) in
  let len := length (Mh t) in
  let label := fun q => nth q (Mh t) 0%Z in
  let row := fun q => nth q (resampled_indices t) 0%nat in
  let once := fun a b =>
    (entry M' a b == entry M a b + 1 /\ entry M' b a == entry M b a)
    \/ (entry M' a b == entry M a b /\ entry M' b a == entry M b a + 1) in
  (forall q1 q2, (q1 < len)%nat -> (q2 < len)%nat -> q1 <> q2 ->
     label q1 = label q2 -> (0 <= label q1 < k)%Z -> once (row q1) (row q2))
  /\ ((forall v, In v (Mh t) <-> (0 <= v < k)%Z) ->
      forall q1 q2, (q1 < len)%nat -> (q2 < len)%nat -> q1 <> q2 ->
        label q1 = label q2 -> once (row q1) (row q2))
  /\ (forall q, (q < len)%nat -> (k <= label q)%Z ->
      forall b, (b < N)%nat ->
        entry M' (row q) b == entry M (row q) b
        /\ entry M' b (row q) == entry M b (row q)).
Proof.
  intros [Hnd [Hlt Hlen]] Hrun. simpl.
  destruct (trial_step_ok N t Hnd n_unique M Is M' Is' Hrun) as [Hv [_ Hcells]].
  assert (trial_labels argsort n_unique t = range 0 (n_unique (Mh t))) as Hlab.
  { unfold trial_labels. f_equal. apply n_unique_perm, sorted_labels_perm. }
  rewrite Hlab in Hv, Hcells.
  set (labels := range 0 (n_unique (Mh t))) in *.
  assert (forall i, Forall (fun p => (p < length (resampled_indices t))%nat)
                      (positions_of argsort t i)) as Hvalid.
  { intros i. apply Forall_forall. intros p Hp. apply in_positions_of in Hp. lia. }
  rewrite Forall_forall in Hlt.
  assert (forall q, (q < length (Mh t))%nat ->
            (nth q (resampled_indices t) 0 < N)%nat) as Hrow.
  { intros q Hq. apply Hlt, nth_In. lia. }
  assert (forall q, (q < length (Mh t))%nat ->
            In (nth q (resampled_indices t) 0%nat) (cluster_rows argsort t (nth q (Mh t) 0%Z)))
    as Hin.
  { intros q Hq. apply in_cluster_rows. exists q. auto. }
  assert (forall q1 q2, (q1 < length (Mh t))%nat -> (q2 < length (Mh t))%nat ->
            q1 <> q2 -> nth q1 (Mh t) 0%Z = nth q2 (Mh t) 0%Z ->
            (0 <= nth q1 (Mh t) 0 < n_unique (Mh t))%Z ->
            let a := nth q1 (resampled_indices t) 0%nat in
            let b := nth q2 (resampled_indices t) 0%nat in
            (entry M' a b == entry M a b + 1 /\ entry M' b a == entry M b a)
            \/ (entry M' a b == entry M a b /\ entry M' b a == entry M b a + 1))
    as Honce.
  { intros q1 q2 H1 H2 Hne Heq Hrange a b.
    assert (a <> b) as Hab.
    { unfold a, b. intros E. apply Hne.
      apply (proj1 (NoDup_nth (resampled_indices t) 0%nat) Hnd); auto; lia. }
    pose proof (Hin q1 H1) as Ha. pose proof (Hin q2 H2) as Hb.
    rewrite <- Heq in Hb. fold a in Ha. fold b in Hb.
    destruct (Hcells a b (Hrow q1 H1) (Hrow q2 H2)) as [Eab _].
    destruct (Hcells b a (Hrow q2 H2) (Hrow q1 H1)) as [Eba _].
    assert (In (nth q1 (Mh t) 0%Z) labels) as Hl by (apply in_range; exact Hrange).
    assert (cluster_hit argsort t labels a b = true \/ cluster_hit argsort t labels b a = true) as Hhit.
    { destruct (combinations2_total _ a b Ha Hb Hab) as [Hc|Hc];
        [left|right]; unfold cluster_hit; apply existsb_exists;
        exists (nth q1 (Mh t) 0%Z); (split; [exact Hl | apply pair_in_iff; exact Hc]). }
    destruct Hhit as [Hh|Hh].
    - left. rewrite Eab, Eba, Hh, (cluster_hit_asym t Hnd labels a b Hv Hh).
      simpl. split; ring.
    - right. rewrite Eab, Eba, Hh, (cluster_hit_asym t Hnd labels b a Hv Hh).
      simpl. split; ring. }
  split; [exact Honce|]. split.
  - intros Hexact q1 q2 H1 H2 Hne Heq. apply Honce; auto.
    apply Hexact, nth_In. exact H1.
  - intros q Hq Hk b Hb.
    set (a := nth q (resampled_indices t) 0%nat).
    assert (forall c d, (c = a \/ d = a) -> cluster_hit argsort t labels c d = false) as Hno.
    { intros c d Hcd. apply not_true_is_false. unfold cluster_hit.
      rewrite existsb_exists. intros [i [Hi Hp]].
      apply in_range in Hi. apply pair_in_iff, in_combinations2 in Hp as [Hc Hd].
      assert (In a (cluster_rows argsort t i)) as Ha by (destruct Hcd; subst; assumption).
      pose proof (cluster_rows_label t Hnd i (nth q (Mh t) 0%Z) a
                    (Hvalid _) (Hvalid _) Ha (Hin q Hq)) as E.
      lia. }
    destruct (Hcells a b (Hrow q Hq) Hb) as [Eab _].
    destruct (Hcells b a Hb (Hrow q Hq)) as [Eba _].
    rewrite Eab, Eba, !Hno by auto. simpl. split; ring.
Qed.

(** C9. After [fit_from_cfg] on a freshly constructed engine, [Mk] is set
    and [bestK] is still [None]; the assertion of [predict] passes, and
    [predict] goes on to use the unset [bestK] (the subtraction
    [self.bestK - self.L_] then raises [TypeError]). *)
Theorem predict_guard_after_fit_from_cfg {C : Type} (cluster : C) (L K H : Z)
  (rp : Q) (trials : Z -> Trial) (data : dataset)
  (primitive : Z -> ndarray -> list Z) (e0 e1 : engine C) :
  init cluster L K H rp = Ok e0 ->
  fit_from_cfg argsort trials e0 data = Ok e1 ->
  (exists m, Mk e1 = Some (Arr2 m))
  /\ bestK e1 = None
  /\ predict primitive e1 <> Raise AssertionError
  /\ predict primitive e1 = Raise TypeError.
Proof.
  intros Hinit Hfit. unfold init in Hinit.
  destruct (Qle_bool 0 rp && Qle_bool rp 1); [|discriminate].
  inversion Hinit; subst e0. clear Hinit.
  unfold fit_from_cfg in Hfit.
  destruct (for_each _ _ _) as [[M Is]|ex]; simpl in Hfit; [|discriminate].
  inversion Hfit; subst e1. clear Hfit.
  unfold predict. simpl.
  split; [eexists; reflexivity|]. split; [reflexivity|].
  split; [discriminate | reflexivity].
Qed.

End EngineFacts.

(** ** Concrete runs *)

Lemma trials3_contract (k h : Z) :
  trial_contract 3 (Demo.trials3 k h)
  /\ (2 <= length (resampled_indices (Demo.trials3 k h)))%nat.
Proof.
  unfold trial_contract, Demo.trials3. destruct (h =? 0)%Z; simpl;
    repeat split; repeat constructor; simpl; intuition lia.
Defined.

Lemma fitted3_ok : fit stable_argsort Demo.trials3 Demo.fresh3 Demo.data3 = Ok Demo.fitted3.
Proof.
  destruct (fit_total stable_argsort stable_argsort_contract Demo.trials3 Demo.fresh3 Demo.data3) as [e' He].
  - simpl. lia.
  - intros k h _ _. apply trials3_contract.
  - unfold Demo.fitted3. rewrite He. reflexivity.
Defined.

Lemma fit_consensus_symmetric_diag_one_witness :
  exists mk, Mk Demo.fitted3 = Some (Arr3 mk)
    /\ length mk = 3%nat
    /\ forall k, (2 <= k < 5)%Z ->
       forall a b, (a < 3)%nat -> (b < 3)%nat ->
         let m := nth (Z.to_nat (k - 2)) mk [] in
         entry m a b == entry m b a /\ entry m a a == 1.
Proof.
  apply (fit_consensus_symmetric_diag_one stable_argsort stable_argsort_contract
           Demo.trials3 Demo.fresh3 Demo.fitted3 Demo.data3).
  - intros k h _ _. apply trials3_contract.
  - exact fitted3_ok.
Defined.

Lemma fit_consensus_entries_in_unit_interval_witness :
  exists mk, Mk Demo.fitted3 = Some (Arr3 mk)
    /\ length mk = 3%nat
    /\ forall k, (2 <= k < 5)%Z ->
       forall a b, (a < 3)%nat -> (b < 3)%nat ->
         0 <= entry (nth (Z.to_nat (k - 2)) mk []) a b <= 1.
Proof.
  apply (fit_consensus_entries_in_unit_interval stable_argsort stable_argsort_contract
           Demo.trials3 Demo.fresh3 Demo.fitted3 Demo.data3).
  - intros k h _ _. apply trials3_contract.
  - exact fitted3_ok.
Defined.

Lemma fit_counter_zero_at_each_candidate_witness :
  (forall k, (2 <= k < 5)%Z ->
     exists Mk_k,
       for_each (range 2 k) (candidate_step stable_argsort 3 2 2 Demo.trials3)
         (repeat (zeros 3) 3, zeros 3) = Ok (Mk_k, zeros 3))
  /\ (forall (trials' : Z -> Z -> Trial) (e'' : engine unit),
        fit stable_argsort trials' Demo.fresh3 Demo.data3 = Ok e'' ->
        forall k, (2 <= k < 5)%Z ->
          (forall h, (0 <= h < 2)%Z -> trials' k h = Demo.trials3 k h) ->
          exists mk mk',
            Mk Demo.fitted3 = Some (Arr3 mk) /\ Mk e'' = Some (Arr3 mk')
            /\ nth (Z.to_nat (k - 2)) mk' [] = nth (Z.to_nat (k - 2)) mk []).
Proof.
  exact (fit_counter_zero_at_each_candidate stable_argsort Demo.trials3 Demo.fresh3
           Demo.fitted3 Demo.data3 fitted3_ok).
Defined.

Lemma fit_degenerate_resample_raises_witness :
  fit stable_argsort Demo.trials_one_row Demo.fresh3 Demo.data3 = Raise IndexError
  /\ fit stable_argsort Demo.trials3 Demo.fresh3 Demo.data3 <> Raise IndexError
  /\ exists e', fit stable_argsort Demo.trials3 Demo.fresh3 Demo.data3 = Ok e'.
Proof.
  split.
  - apply (fit_degenerate_resample_raises stable_argsort stable_argsort_contract
               Demo.trials_one_row Demo.fresh3 Demo.data3).
    + intros k h _ _. unfold trial_contract, Demo.trials_one_row; simpl.
      repeat split; repeat constructor; simpl; intuition lia.
    + exists 2%Z, 0%Z. simpl. lia.
  - assert (forall k h, (L_ Demo.fresh3 <= k < K_ Demo.fresh3)%Z ->
                        (0 <= h < H_ Demo.fresh3)%Z ->
              trial_contract (shape0 Demo.data3) (Demo.trials3 k h)) as Hc
      by (intros k h _ _; apply trials3_contract).
    destruct (proj2 (fit_degenerate_resample_raises stable_argsort stable_argsort_contract
                       Demo.trials3 Demo.fresh3 Demo.data3 Hc)) as [Hne Hok].
    + intros k h _ _. apply trials3_contract.
    + split; [exact Hne|]. apply Hok. simpl. lia.
Defined.

Lemma fit_delta_curve_witness :
  exists ak dk,
    Ak Demo.fitted3 = Some ak /\ deltaK Demo.fitted3 = Some dk
    /\ length ak = 3%nat /\ length dk = (length ak - 1)%nat /\ length dk = 2%nat
    /\ forall i, (i < length dk)%nat ->
         ((2 + Z.of_nat i <= 2)%Z -> nth i dk 0 = nth i ak 0)
         /\ ((2 < 2 + Z.of_nat i)%Z ->
             nth i dk 0 = (nth (S i) ak 0 - nth i ak 0) / nth i ak 0).
Proof.
  exact (fit_delta_curve stable_argsort Demo.trials3 Demo.fresh3 Demo.fitted3 Demo.data3 fitted3_ok).
Defined.

Lemma fit_best_k_witness :
  exists dk b,
    deltaK Demo.fitted3 = Some dk /\ bestK Demo.fitted3 = Some b
    /\ (dk = [] -> b = 2%Z)
    /\ (dk <> [] ->
        exists i, b = (2 + Z.of_nat i)%Z /\ (i < length dk)%nat
          /\ (forall j, (j < length dk)%nat -> nth j dk 0 <= nth i dk 0)
          /\ (forall j, (j < i)%nat -> nth j dk 0 < nth i dk 0))
    /\ ((2 < 5)%Z -> (2 <= b < 5)%Z).
Proof.
  exact (fit_best_k stable_argsort Demo.trials3 Demo.fresh3 Demo.fitted3 Demo.data3 fitted3_ok).
Defined.

(** C3 as stated fails when the candidate range is empty: with [L = K = 2]
    the call returns, [deltaK] is empty and [bestK] is 2, outside [[2, 2)]. *)
Lemma fit_best_k_outside_empty_range :
  init tt 2 2 2 (1 # 2) = Ok Demo.empty_range
  /\ exists e', fit stable_argsort Demo.trials3 Demo.empty_range Demo.data3 = Ok e'
       /\ deltaK e' = Some [] /\ bestK e' = Some 2%Z
       /\ ~ (L_ Demo.empty_range <= 2 < K_ Demo.empty_range)%Z.
Proof.
  split; [reflexivity|].
  eexists. split; [vm_compute; reflexivity|].
  split; [reflexivity|]. split; [reflexivity|].
  simpl. lia.
Qed.

Lemma cfg_trial_counts_labels_below_k_witness :
  let t := Demo.trial4 in
  let M := zeros 4 in
  let M' := fst Demo.step4 in
  let k := n_unique (Mh t) in
  let len := length (Mh t) in
  let label := fun q => nth q (Mh t) 0%Z in
  let row := fun q => nth q (resampled_indices t) 0%nat in
  let once := fun a b =>
    (entry M' a b == entry M a b + 1 /\ entry M' b a == entry M b a)
    \/ (entry M' a b == entry M a b /\ entry M' b a == entry M b a + 1) in
  (forall q1 q2, (q1 < len)%nat -> (q2 < len)%nat -> q1 <> q2 ->
     label q1 = label q2 -> (0 <= label q1 < k)%Z -> once (row q1) (row q2))
  /\ ((forall v, In v (Mh t) <-> (0 <= v < k)%Z) ->
      forall q1 q2, (q1 < len)%nat -> (q2 < len)%nat -> q1 <> q2 ->
        label q1 = label q2 -> once (row q1) (row q2))
  /\ (forall q, (q < len)%nat -> (k <= label q)%Z ->
      forall b, (b < 4)%nat ->
        entry M' (row q) b == entry M (row q) b
        /\ entry M' b (row q) == entry M b (row q)).
Proof.
  apply (cfg_trial_counts_labels_below_k stable_argsort stable_argsort_contract 4 Demo.trial4 (zeros 4) (zeros 4)
           (fst Demo.step4) (snd Demo.step4)).
  - unfold trial_contract, Demo.trial4; simpl.
    repeat split; repeat constructor; simpl; intuition lia.
  - vm_compute. reflexivity.
Defined.

Lemma predict_guard_after_fit_from_cfg_witness :
  (exists m, Mk Demo.cfg_fitted4 = Some (Arr2 m))
  /\ bestK Demo.cfg_fitted4 = None
  /\ predict (fun _ _ => []) Demo.cfg_fitted4 <> Raise AssertionError
  /\ predict (fun _ _ => []) Demo.cfg_fitted4 = Raise TypeError.
Proof.
  apply (predict_guard_after_fit_from_cfg stable_argsort tt 2 5 1 (1 # 2) Demo.trials4
           Demo.data4 (fun _ _ => []) Demo.fresh4 Demo.cfg_fitted4).
  - reflexivity.
  - assert (is_ok (fit_from_cfg stable_argsort Demo.trials4 Demo.fresh4 Demo.data4) = true) as H
      by (vm_compute; reflexivity).
    unfold Demo.cfg_fitted4.
    destruct (fit_from_cfg stable_argsort Demo.trials4 Demo.fresh4 Demo.data4);
      [reflexivity | discriminate].
Defined.

Lemma init_checks_proportion_only_witness :
  init tt 2 5 5 (1 # 2) = Ok (mkEngine tt (1 # 2) 2 5 5 None None None None None)
  /\ init tt 2 5 5 (3 # 2) = Raise AssertionError.
Proof.
  split.
  - apply (proj1 (init_checks_proportion_only tt 2 5 5 (1 # 2))). lra.
  - apply (proj2 (init_checks_proportion_only tt 2 5 5 (3 # 2))). lra.
Defined.

(** C6 as stated fails: a candidate range with [K <= L] is accepted. *)
Lemma init_accepts_reversed_range :
  (2 <= 3)%Z
  /\ init tt 3 2 5 (1 # 2) = Ok (mkEngine tt (1 # 2) 3 2 5 None None None None None).
Proof.
  split; [lia | reflexivity].
Qed.

(** ** Values computed on the concrete inputs *)

Example combinations2_value :
  combinations2 [2; 0; 1]%nat = [(2, 0); (2, 1); (0, 1)]%nat.
Proof. reflexivity. Qed.

Example stable_argsort_value :
  stable_argsort [1; 0; 1; 0; 2]%Z = [1; 3; 0; 2; 4]%nat.
Proof. reflexivity. Qed.

Example bisect_value :
  bisect_left [0; 1; 1; 2]%Z 1 = 1%nat /\ bisect_right [0; 1; 1; 2]%Z 1 = 3%nat.
Proof. split; reflexivity. Qed.

(** Candidate count 2 on the three-row input: rows 1 and 2 are drawn
    together twice and clustered together twice, row 0 is never clustered
    with another row. *)
Example consensus3_value :
  match consensus_of stable_argsort 3 2 2 (Demo.trials3 2) with
  | Ok m => map (map Qred) m
            = [[1; 0; 0];
               [0; 1; 200000000 # 200000001];
               [0; 200000000 # 200000001; 1]]
  | Raise _ => False
  end.
Proof. vm_compute. reflexivity. Qed.

(** Its stability area: four of the nine values are in the first bin, the
    other five in the last one, so the ten cumulative fractions are nine
    times 4/9 and once 1. *)
Example cdf_area3_value :
  Qred (cdf_area [[1; 0; 0];
                  [0; 1; 200000000 # 200000001];
                  [0; 200000000 # 200000001; 1]]) = 5.
Proof. vm_compute. reflexivity. Qed.

Example delta_curve_value :
  map Qred (delta_curve 2 5 [5; 5; 5]) = [5; 0] /\ best_k 2 [5; 0] = 2%Z.
Proof. split; vm_compute; reflexivity. Qed.

(** * Further properties of the engine *)

Import Predictions Algorithms.

Section SingleModel.

Variable argsort : list Z -> list nat.
Hypothesis argsort_ok : argsort_contract argsort.

(** What a successful [fit_from_cfg] leaves in the engine. *)
Lemma fit_from_cfg_ok {C : Type} (trials : Z -> Trial) (e e' : engine C)
  (data : dataset) :
  fit_from_cfg argsort trials e data = Ok e' ->
  exists M Is,
    for_each (range 0 (H_ e))
      (fun h => trial_step argsort (shape0 data) n_unique (trials h))
      (zeros (shape0 data), zeros (shape0 data)) = Ok (M, Is)
    /\ e' = mkEngine (cluster_ e) (resample_proportion_ e) (L_ e) (K_ e) (H_ e)
              (Some (Arr2 (fst (finalize (shape0 data) M Is))))
              (Ak e) (deltaK e) (bestK e) (Some data).
Proof.
  unfold fit_from_cfg.
  destruct (for_each (range 0 (H_ e)) _ _) as [[M Is]|ex]; simpl; [|discriminate].
  intros E. inversion E; subst. exists M, Is. split; reflexivity.
Qed.

Lemma fit_from_cfg_raise {C : Type} (trials : Z -> Trial) (e : engine C)
  (data : dataset) (ex : exn) :
  fit_from_cfg argsort trials e data = Raise ex -> ex = IndexError.
Proof.
  unfold fit_from_cfg.
  destruct (for_each (range 0 (H_ e)) _ _) as [[M Is]|e1] eqn:E; simpl;
    [discriminate|].
  intros H. inversion H; subst.
  apply for_each_raise in E as [h [s1 [_ E]]].
  exact (trial_step_raise argsort _ _ _ _ _ E).
Qed.

(** X1. After a successful [fit_from_cfg] whose trials draw distinct rows,
    [Mk] is a single [N] x [N] matrix, symmetric, with ones on the diagonal
    and entries between 0 and 1; the data are kept in [X] and [Ak],
    [deltaK], [bestK] are left as they were. *)
Theorem fit_from_cfg_consensus {C : Type} (trials : Z -> Trial)
  (e e' : engine C) (data : dataset) :
  (forall h, (0 <= h < H_ e)%Z -> NoDup (resampled_indices (trials h))) ->
  fit_from_cfg argsort trials e data = Ok e' ->
  X e' = Some data /\ Ak e' = Ak e /\ deltaK e' = deltaK e /\ bestK e' = bestK e
  /\ exists m, Mk e' = Some (Arr2 m)
       /\ forall a b, (a < shape0 data)%nat -> (b < shape0 data)%nat ->
            entry m a b == entry m b a /\ entry m a a == 1
            /\ 0 <= entry m a b <= 1.
Proof.
  intros Hnd Hfit.
  apply fit_from_cfg_ok in Hfit as [M [Is [Hrun ->]]]. simpl.
  repeat (split; [reflexivity|]).
  eexists. split; [reflexivity|].
  apply finalize_consensus.
  apply (trials_loop_counts argsort argsort_ok (shape0 data) n_unique trials
           (range 0 (H_ e)) (zeros (shape0 data), zeros (shape0 data)));
    [|apply counts_ok_zeros|exact Hrun].
  intros h Hh. apply Hnd, in_range, Hh.
Qed.

(** [fit_from_cfg] returns when every trial obeys the contract and draws
    at least two rows. *)
Lemma fit_from_cfg_total {C : Type} (trials : Z -> Trial) (e : engine C)
  (data : dataset) :
  (forall h, (0 <= h < H_ e)%Z ->
     trial_contract (shape0 data) (trials h)
     /\ (2 <= length (resampled_indices (trials h)))%nat) ->
  exists e', fit_from_cfg argsort trials e data = Ok e'.
Proof.
  intros Hc. unfold fit_from_cfg.
  pose proof (for_each_total (range 0 (H_ e))
                (fun h => trial_step argsort (shape0 data) n_unique (trials h))
                (fun h s Hh =>
                   trial_step_total argsort argsort_ok (shape0 data) n_unique
                     (trials h) s
                     (proj1 (Hc h (proj1 (in_range 0 (H_ e) h) Hh)))
                     (proj2 (Hc h (proj1 (in_range 0 (H_ e) h) Hh))))
                (zeros (shape0 data), zeros (shape0 data))) as Hok.
  destruct (for_each (range 0 (H_ e)) _ _) as [[M Is]|ex]; [|discriminate].
  simpl. eexists. reflexivity.
Qed.

(** X2. With draws of distinct in-range rows and one label per row:
    [fit_from_cfg] raises ([IndexError]) if one of its [H] trials draws
    fewer than two rows, returns if every trial draws at least two, and
    never raises any other exception. *)
Theorem fit_from_cfg_degenerate {C : Type} (trials : Z -> Trial)
  (e : engine C) (data : dataset) :
  (forall h, (0 <= h < H_ e)%Z -> trial_contract (shape0 data) (trials h)) ->
  ((exists h, (0 <= h < H_ e)%Z
              /\ (length (resampled_indices (trials h)) < 2)%nat) ->
   fit_from_cfg argsort trials e data = Raise IndexError)
  /\ ((forall h, (0 <= h < H_ e)%Z ->
         (2 <= length (resampled_indices (trials h)))%nat) ->
      exists e', fit_from_cfg argsort trials e data = Ok e')
  /\ (forall ex, fit_from_cfg argsort trials e data = Raise ex -> ex = IndexError).
Proof.
  intros Hc. split; [|split].
  - intros [h [Hh Hshort]].
    destruct (fit_from_cfg argsort trials e data) as [e'|ex] eqn:Hfit.
    + exfalso. apply fit_from_cfg_ok in Hfit as [M [Is [Hrun _]]].
      destruct (for_each_ok_body _ _ _ _ Hrun h (proj2 (in_range 0 (H_ e) h) Hh))
        as [s1 [s2 Hstep]].
      apply trial_step_two_rows in Hstep. lia.
    + f_equal. exact (fit_from_cfg_raise _ _ _ _ Hfit).
  - intros Htwo. apply fit_from_cfg_total.
    intros h Hh. split; [apply Hc, Hh|apply Htwo, Hh].
  - intros ex. apply fit_from_cfg_raise.
Qed.

End SingleModel.

(** The negative first dimension of [np.zeros] is met before the loops. *)
Lemma fit_reversed_range {C : Type} (argsort : list Z -> list nat)
  (trials : Z -> Z -> Trial) (e : engine C) (data : dataset) :
  (K_ e < L_ e)%Z -> fit argsort trials e data = Raise ValueError.
Proof.
  intros H. unfold fit. destruct (Z.ltb_spec (K_ e - L_ e) 0); [reflexivity|lia].
Qed.

(** X3. [fit] raises [ValueError] when [K < L], whatever the trials: the
    negative first dimension of [np.zeros] is met before any trial is drawn.
    When every trial delivered distinct in-range rows with one label per
    row, this is the only [ValueError]: [fit] raises it exactly when
    [K < L], and any other exception it raises is an [IndexError], with
    [L <= K]. *)
Theorem fit_value_error_iff {C : Type} (argsort : list Z -> list nat)
  (trials : Z -> Z -> Trial) (e : engine C) (data : dataset) :
  ((K_ e < L_ e)%Z -> fit argsort trials e data = Raise ValueError)
  /\ ((forall k h, (L_ e <= k < K_ e)%Z -> (0 <= h < H_ e)%Z ->
         trial_contract (shape0 data) (trials k h)) ->
      (fit argsort trials e data = Raise ValueError <-> (K_ e < L_ e)%Z)
      /\ (forall ex, fit argsort trials e data = Raise ex -> ex <> ValueError ->
            ex = IndexError /\ (L_ e <= K_ e)%Z)).
Proof.
  split; [apply fit_reversed_range|]. intros _.
  split; [split; [|apply fit_reversed_range]|].
  - intros Hfit. apply fit_raise in Hfit as [[_ H]|[H _]]; [exact H|discriminate].
  - intros ex Hfit Hne. apply fit_raise in Hfit as [[H _]|H]; [contradiction|exact H].
Qed.

Lemma range_nonpos (n : Z) : (n <= 0)%Z -> range 0 n = [].
Proof.
  intros H. unfold range. replace (Z.to_nat (n - 0)) with 0%nat by lia. reflexivity.
Qed.

Lemma finalize_zeros_identity (N a b : nat) :
  (a < N)%nat -> (b < N)%nat ->
  entry (fst (finalize N (zeros N) (zeros N))) a b
  == if Nat.eqb a b then 1 else 0.
Proof.
  intros Ha Hb. simpl. unfold add, div, add_scalar, transpose, eye.
  rewrite !entry_tabulate by assumption.
  rewrite !entry_zeros by assumption.
  unfold Qdiv. ring.
Qed.

(** X4. With no trial at all ([H <= 0]) and [L <= K], [fit] returns and
    every consensus matrix is the identity: no pair of distinct rows has any
    consensus. *)
Theorem fit_without_trials_identity {C : Type} (argsort : list Z -> list nat)
  (trials : Z -> Z -> Trial) (e : engine C) (data : dataset) :
  (H_ e <= 0)%Z -> (L_ e <= K_ e)%Z ->
  exists e' mk,
    fit argsort trials e data = Ok e' /\ Mk e' = Some (Arr3 mk)
    /\ length mk = Z.to_nat (K_ e - L_ e)
    /\ forall k, (L_ e <= k < K_ e)%Z ->
       forall a b, (a < shape0 data)%nat -> (b < shape0 data)%nat ->
         entry (nth (Z.to_nat (k - L_ e)) mk []) a b
         == if Nat.eqb a b then 1 else 0.
Proof.
  intros HH HLK.
  destruct (fit argsort trials e data) as [e'|ex] eqn:Hfit.
  - destruct (fit_slice argsort trials e e' data Hfit) as [mk [HMk [Hlen Hall]]].
    exists e', mk. split; [reflexivity|]. split; [exact HMk|]. split; [exact Hlen|].
    intros k Hk a b Ha Hb. specialize (Hall k Hk).
    unfold consensus_of in Hall. rewrite (range_nonpos _ HH) in Hall.
    simpl in Hall. inversion Hall as [E].
    apply finalize_zeros_identity; assumption.
  - exfalso. unfold fit in Hfit.
    destruct (Z.ltb_spec (K_ e - L_ e) 0) as [Hneg|Hpos]; [lia|].
    destruct (for_each (range (L_ e) (K_ e)) _ _) as [[mk Is]|e1] eqn:E;
      simpl in Hfit; [discriminate|].
    apply for_each_raise in E as [k [[Mk0 Is0] [_ E]]].
    unfold candidate_step in E. rewrite (range_nonpos _ HH) in E.
    simpl in E. discriminate.
Qed.

Import Counts.

(** ** The consensus of a pair of rows *)

Lemma index_of_Some (a : nat) (l : list nat) (p : nat) :
  index_of a l = Some p -> (p < length l)%nat /\ nth p l 0%nat = a.
Proof.
  revert p. induction l as [|x l IH]; intros p; simpl; [discriminate|].
  destruct (Nat.eqb_spec x a) as [->|Hne].
  - intros E. inversion E; subst. split; [lia | reflexivity].
  - destruct (index_of a l) as [q|]; simpl; [|discriminate].
    intros E. inversion E; subst. destruct (IH q eq_refl). split; [lia | assumption].
Qed.

Lemma index_of_nth (l : list nat) (p : nat) :
  NoDup l -> (p < length l)%nat -> index_of (nth p l 0%nat) l = Some p.
Proof.
  intros Hnd. revert p. induction Hnd as [|x l Hx Hnd IH]; intros p Hp; simpl in *; [lia|].
  destruct p as [|p].
  - rewrite Nat.eqb_refl. reflexivity.
  - destruct (Nat.eqb_spec x (nth p l 0%nat)) as [E|_].
    + exfalso. apply Hx. rewrite E. apply nth_In. lia.
    + rewrite IH by lia. reflexivity.
Qed.

Lemma existsb_eqb_In (a : nat) (l : list nat) :
  existsb (Nat.eqb a) l = true <-> In a l.
Proof.
  rewrite existsb_exists. split.
  - intros [x [Hx E]]. apply Nat.eqb_eq in E. subst. exact Hx.
  - intros H. exists a. split; [exact H | apply Nat.eqb_refl].
Qed.

Lemma ind_orb (c d : bool) : (c = true -> d = false) -> ind c + ind d == ind (c || d).
Proof. destruct c, d; simpl; intros H; try ring. discriminate (H eq_refl). Qed.

Lemma inject_count_cons (f : Z -> bool) (h : Z) (hs : list Z) :
  inject_Z (Z.of_nat (length (filter f (h :: hs))))
  == ind (f h) + inject_Z (Z.of_nat (length (filter f hs))).
Proof.
  simpl. destruct (f h); simpl length; unfold ind.
  - rewrite Nat2Z.inj_succ, <- Z.add_1_l, inject_Z_plus. reflexivity.
  - ring.
Qed.

Section PairConsensus.

Variable argsort : list Z -> list nat.
Hypothesis argsort_ok : argsort_contract argsort.

Variable N : nat.

(** In one trial the two mirror cells of a pair of distinct rows receive
    together one count when the rows are clustered together, and the
    counter one count when they are drawn together. *)
Lemma trial_pair_counts (t : Trial) (k : Z) (a b : nat) :
  trial_contract N t -> a <> b ->
  ind (cluster_hit argsort t (range 0 k) a b)
  + ind (cluster_hit argsort t (range 0 k) b a)
  == ind (clustered_together t k a b)
  /\ ind (drawn_hit t a b) + ind (drawn_hit t b a) == ind (drawn_together t a b).
Proof.
  intros [Hnd [Hlt Hlen]] Hab.
  assert (forall i, Forall (fun p => (p < length (resampled_indices t))%nat)
                      (positions_of argsort t i)) as Hvalid.
  { intros i. apply Forall_forall. intros p Hp.
    apply (in_positions_of argsort argsort_ok) in Hp. lia. }
  assert (forall c i, In c (cluster_rows argsort t i) <-> label_of t c = Some i)
    as Hlabel.
  { intros c i. rewrite (in_cluster_rows argsort argsort_ok). unfold label_of. split.
    - intros [p [Hp [Hi Hc]]]. subst c.
      rewrite index_of_nth by (auto; lia).
      rewrite (nth_error_nth' (Mh t) 0%Z Hp). congruence.
    - destruct (index_of c (resampled_indices t)) as [p|] eqn:E; [|discriminate].
      intros Hn. apply index_of_Some in E as [Hp Hc].
      exists p. split; [apply nth_error_Some; congruence|].
      split; [apply nth_error_nth; exact Hn | exact Hc]. }
  split.
  - rewrite ind_orb
      by (apply (cluster_hit_asym argsort argsort_ok t Hnd); intros; apply Hvalid).
    assert (cluster_hit argsort t (range 0 k) a b
            || cluster_hit argsort t (range 0 k) b a
            = clustered_together t k a b) as ->; [|reflexivity].
    apply eq_true_iff_eq. rewrite orb_true_iff. unfold cluster_hit, clustered_together.
    rewrite !existsb_exists. split.
    + intros [[i [Hi Hp]]|[i [Hi Hp]]];
        apply in_range in Hi; apply pair_in_iff, in_combinations2 in Hp as [H1 H2];
        apply Hlabel in H1, H2; rewrite H1, H2;
        repeat (apply andb_true_iff; split); lia.
    + destruct (label_of t a) as [i|] eqn:Ea; [|discriminate].
      destruct (label_of t b) as [j|] eqn:Eb; [|discriminate].
      intros H. apply andb_true_iff in H as [H H3].
      apply andb_true_iff in H as [H1 H2].
      apply Z.eqb_eq in H1. subst j.
      apply Hlabel in Ea, Eb.
      destruct (combinations2_total _ a b Ea Eb Hab) as [Hc|Hc];
        [left|right]; exists i; (split; [apply in_range; lia | apply pair_in_iff; exact Hc]).
  - rewrite ind_orb by (apply (drawn_hit_asym t Hnd)).
    assert (drawn_hit t a b || drawn_hit t b a = drawn_together t a b) as ->;
      [|reflexivity].
    apply eq_true_iff_eq. unfold drawn_hit, drawn_together.
    rewrite orb_true_iff, andb_true_iff, !pair_in_iff, !existsb_eqb_In. split.
    + intros [H|H]; apply in_combinations2 in H; tauto.
    + intros [Ha Hb]. apply combinations2_total; assumption.
Qed.

(** The two mirror cells of a pair after a run of trials, each trial
    looping over the clusters [0, ..., kof t - 1]. *)
Lemma trials_loop_pair (nclust : list Z -> Z) (kof : Trial -> Z)
  (tr : Z -> Trial) (a b : nat) (hs : list Z) :
  (forall t, trial_labels argsort nclust t = range 0 (kof t)) ->
  (a < N)%nat -> (b < N)%nat -> a <> b ->
  (forall h, In h hs -> trial_contract N (tr h)) ->
  forall M Is M' Is',
    for_each hs (fun h => trial_step argsort N nclust (tr h)) (M, Is)
    = Ok (M', Is') ->
    entry M' a b + entry M' b a
    == entry M a b + entry M b a
       + inject_Z (Z.of_nat (length (filter
           (fun h => clustered_together (tr h) (kof (tr h)) a b) hs)))
    /\ entry Is' a b + entry Is' b a
       == entry Is a b + entry Is b a
          + inject_Z (Z.of_nat (length (filter
              (fun h => drawn_together (tr h) a b) hs))).
Proof.
  intros Hk Ha Hb Hab. induction hs as [|h hs IH]; intros Hc M Is M' Is' Hrun.
  - inversion Hrun; subst. simpl. split; ring.
  - cbn [for_each] in Hrun.
    destruct (trial_step argsort N nclust (tr h) (M, Is)) as [[M1 Is1]|ex] eqn:E;
      simpl in Hrun; [|discriminate].
    pose proof (Hc h (or_introl eq_refl)) as Hch.
    destruct (trial_step_ok argsort argsort_ok N (tr h) (proj1 Hch)
                nclust M Is M1 Is1 E) as [_ [_ Hcells]].
    rewrite Hk in Hcells.
    destruct (Hcells a b Ha Hb) as [Eab Iab].
    destruct (Hcells b a Hb Ha) as [Eba Iba].
    destruct (trial_pair_counts (tr h) (kof (tr h)) a b Hch Hab) as [Hm Hi].
    destruct (IH (fun h' Hh' => Hc h' (or_intror Hh')) M1 Is1 M' Is' Hrun)
      as [IHm IHi].
    rewrite IHm, IHi, Eab, Eba, Iab, Iba.
    rewrite (inject_count_cons (fun h0 => clustered_together (tr h0) (kof (tr h0)) a b)).
    rewrite (inject_count_cons (fun h0 => drawn_together (tr h0) a b)).
    rewrite <- Hm, <- Hi. split; ring.
Qed.

(** The consensus of a pair after the trials and the normalisation. *)
Lemma finalize_pair (nclust : list Z -> Z) (kof : Trial -> Z)
  (H : Z) (tr : Z -> Trial) (M Is : matrix) (a b : nat) :
  (forall t, trial_labels argsort nclust t = range 0 (kof t)) ->
  (a < N)%nat -> (b < N)%nat -> a <> b ->
  (forall h, (0 <= h < H)%Z -> trial_contract N (tr h)) ->
  for_each (range 0 H) (fun h => trial_step argsort N nclust (tr h))
    (zeros N, zeros N) = Ok (M, Is) ->
  entry (fst (finalize N M Is)) a b
  == count_trials (fun h => clustered_together (tr h) (kof (tr h)) a b) H
     / (count_trials (fun h => drawn_together (tr h) a b) H + eps).
Proof.
  intros Hk Ha Hb Hab Hc E.
  destruct (trials_loop_pair nclust kof tr a b (range 0 H) Hk Ha Hb Hab
              (fun h Hh => Hc h (proj1 (in_range 0 H h) Hh)) _ _ _ _ E) as [Hm Hi].
  rewrite !entry_zeros in Hm, Hi by assumption.
  unfold count_trials.
  assert (0 <= inject_Z (Z.of_nat (length (filter
                 (fun h => drawn_together (tr h) a b) (range 0 H))))) as Hpos
    by (change 0 with (inject_Z 0); rewrite <- Zle_Qle; lia).
  set (same := inject_Z (Z.of_nat (length (filter
                 (fun h => clustered_together (tr h) (kof (tr h)) a b) (range 0 H))))) in *.
  set (drawn := inject_Z (Z.of_nat (length (filter
                  (fun h => drawn_together (tr h) a b) (range 0 H))))) in *.
  simpl. unfold add, div, add_scalar, transpose, eye.
  rewrite !entry_tabulate by assumption.
  destruct (Nat.eqb_spec a b) as [->|_]; [contradiction|].
  set (x := entry M a b) in *. set (y := entry M b a) in *.
  set (u := entry Is a b) in *. set (v := entry Is b a) in *.
  assert (u + v == drawn) as Huv by (rewrite Hi; ring).
  assert (x + y == same) as Hxy by (rewrite Hm; ring).
  assert (0 < u + v + eps) as Hden by (rewrite Huv; unfold eps; lra).
  rewrite <- Huv, <- Hxy. field. repeat split; lra.
Qed.

(** The consensus of a pair computed from zeroed accumulators. *)
Lemma consensus_of_pair (H k : Z) (tr : Z -> Trial) (C : matrix) (a b : nat) :
  (a < N)%nat -> (b < N)%nat -> a <> b ->
  (forall h, (0 <= h < H)%Z -> trial_contract N (tr h)) ->
  consensus_of argsort N H k tr = Ok C ->
  entry C a b
  == count_trials (fun h => clustered_together (tr h) k a b) H
     / (count_trials (fun h => drawn_together (tr h) a b) H + eps).
Proof.
  intros Ha Hb Hab Hc. unfold consensus_of.
  destruct (for_each (range 0 H) _ (zeros N, zeros N)) as [[M Is]|e] eqn:E;
    simpl bind; [|discriminate].
  intros HC. inversion HC; subst C. clear HC.
  apply (finalize_pair (fun _ => k) (fun _ => k) H tr M Is a b); auto.
Qed.

End PairConsensus.

(** X5. After a successful [fit] whose trials obey the contract of the
    resampler and of the clustering primitive, the consensus of two
    distinct rows at candidate count [k] is the number of trials of [k] in
    which they were clustered together, divided by the number of trials in
    which they were drawn together plus [1e-8]. *)
Theorem fit_consensus_is_ratio {C : Type} (argsort : list Z -> list nat)
  (trials : Z -> Z -> Trial) (e e' : engine C) (data : dataset) :
  let N := shape0 data in
  argsort_contract argsort ->
  (forall k h, (L_ e <= k < K_ e)%Z -> (0 <= h < H_ e)%Z ->
     trial_contract N (trials k h)) ->
  fit argsort trials e data = Ok e' ->
  exists mk, Mk e' = Some (Arr3 mk)
    /\ forall k, (L_ e <= k < K_ e)%Z ->
       forall a b, (a < N)%nat -> (b < N)%nat -> a <> b ->
         entry (nth (Z.to_nat (k - L_ e)) mk []) a b
         == count_trials (fun h => clustered_together (trials k h) k a b) (H_ e)
            / (count_trials (fun h => drawn_together (trials k h) a b) (H_ e) + eps).
Proof.
  intros N Hsort Hc Hfit.
  destruct (fit_slice argsort trials e e' data Hfit) as [mk [HMk [_ Hall]]].
  exists mk. split; [exact HMk|].
  intros k Hk a b Ha Hb Hab.
  apply (consensus_of_pair argsort Hsort N (H_ e) k (trials k)); auto.
Qed.

(** X6. The same for [fit_from_cfg], where a trial only loops over the
    labels below its number of distinct labels: the consensus of two
    distinct rows is the number of trials in which they shared such a label,
    divided by the number of trials in which they were drawn together plus
    [1e-8]. *)
Theorem fit_from_cfg_consensus_is_ratio {C : Type} (argsort : list Z -> list nat)
  (trials : Z -> Trial) (e e' : engine C) (data : dataset) :
  let N := shape0 data in
  argsort_contract argsort ->
  (forall h, (0 <= h < H_ e)%Z -> trial_contract N (trials h)) ->
  fit_from_cfg argsort trials e data = Ok e' ->
  exists m, Mk e' = Some (Arr2 m)
    /\ forall a b, (a < N)%nat -> (b < N)%nat -> a <> b ->
         entry m a b
         == count_trials
              (fun h => clustered_together (trials h)
                          (n_unique (Mh (trials h))) a b) (H_ e)
            / (count_trials (fun h => drawn_together (trials h) a b) (H_ e) + eps).
Proof.
  intros N Hsort Hc Hfit.
  apply fit_from_cfg_ok in Hfit as [M [Is [Hrun ->]]]. simpl.
  eexists. split; [reflexivity|].
  intros a b Ha Hb Hab.
  apply (finalize_pair argsort Hsort N n_unique (fun t => n_unique (Mh t))
           (H_ e) trials M Is a b); auto.
  intros t. unfold trial_labels. f_equal.
  apply n_unique_perm, (sorted_labels_perm argsort Hsort).
Qed.

(** ** The prediction methods *)

(** X7. On a freshly constructed engine every prediction method stops at
    its assertion [self.Mk is not None]. *)
Theorem predictions_require_fit {C : Type} (cluster : C) (L K H : Z) (rp : Q)
  (e0 : engine C) (primitive : Z -> ndarray -> list Z)
  (agglomerative : Z -> linkage -> ndarray -> result (list Z))
  (sil : dataset -> list Z -> result Q)
  (primitive_data : option Z -> dataset -> list Z) (data : dataset) :
  init cluster L K H rp = Ok e0 ->
  predict primitive e0 = Raise AssertionError
  /\ predict_hierarchical agglomerative e0 = Raise AssertionError
  /\ predict_from_tuned agglomerative sil e0 = Throws AssertionError
  /\ predict_data primitive_data e0 data = Raise AssertionError.
Proof.
  unfold init. destruct (Qle_bool 0 rp && Qle_bool rp 1); [|discriminate].
  intros E. inversion E; subst. repeat split; reflexivity.
Qed.

Lemma length_tabulate (N : nat) (f : nat -> nat -> Q) : length (tabulate N f) = N.
Proof. unfold tabulate. rewrite length_map, length_seq. reflexivity. Qed.

Lemma nth_tabulate_length (N : nat) (f : nat -> nat -> Q) (a : nat) :
  (a < N)%nat -> length (nth a (tabulate N f) []) = N.
Proof.
  intros Ha. unfold tabulate.
  rewrite (nth_indep _ [] (map (f 0%nat) (seq 0 N)))
    by (rewrite length_map, length_seq; exact Ha).
  rewrite (map_nth (fun a0 => map (f a0) (seq 0 N))).
  rewrite length_map, length_seq. reflexivity.
Qed.

Lemma entry_map_tabulate (g : Q -> Q) (N : nat) (f : nat -> nat -> Q) (a b : nat) :
  (a < N)%nat -> (b < N)%nat ->
  entry (map (map g) (tabulate N f)) a b = g (f a b).
Proof.
  intros Ha Hb. unfold entry.
  rewrite (nth_indep _ [] (map g []))
    by (rewrite length_map, length_tabulate; exact Ha).
  rewrite (map_nth (map g)).
  rewrite (nth_indep _ 0 (g 0))
    by (rewrite length_map, nth_tabulate_length by exact Ha; exact Hb).
  rewrite (map_nth g).
  change (nth b (nth a (tabulate N f) []) 0) with (entry (tabulate N f) a b).
  rewrite entry_tabulate by assumption. reflexivity.
Qed.

Lemma nth_wrap_in_range {A : Type} (l : list A) (d : A) (i : Z) :
  (0 <= i < Z.of_nat (length l))%Z -> nth_wrap l i = Ok (nth (Z.to_nat i) l d).
Proof.
  intros Hi. unfold nth_wrap.
  destruct (Z.ltb_spec i 0); [lia|].
  destruct (Z.leb_spec 0 i); [|lia].
  destruct (Z.ltb_spec i (Z.of_nat (length l))); [|lia]. simpl.
  rewrite (nth_error_nth' l d) by lia. reflexivity.
Qed.

Lemma nth_wrap_overflow {A : Type} (l : list A) (i : Z) :
  (Z.of_nat (length l) <= i)%Z -> nth_wrap l i = Raise IndexError.
Proof.
  intros Hi. unfold nth_wrap.
  destruct (Z.ltb_spec i 0); [lia|].
  destruct (Z.ltb_spec i (Z.of_nat (length l))); [lia|].
  rewrite andb_false_r. reflexivity.
Qed.

(** [bestK] as [fit] computes it is never below [L], and is below [K] when
    the candidate range is not empty. *)
Lemma best_k_bounds (L K : Z) (dk : list Q) :
  length dk = Z.to_nat (K - L - 1) ->
  (L <= best_k L dk)%Z /\ ((L < K)%Z -> (best_k L dk < K)%Z).
Proof.
  intros Hdk. unfold best_k.
  destruct (Nat.ltb_spec 0 (length dk)) as [Hpos|Hz]; [|lia].
  assert (dk <> []) as Hne by (intros E; rewrite E in Hpos; simpl in Hpos; lia).
  destruct (argmax_spec dk Hne) as [Hlt _]. lia.
Qed.

Section AfterFit.

Variable argsort : list Z -> list nat.
Hypothesis argsort_ok : argsort_contract argsort.

Lemma finalize_shape (N : nat) (M Is : matrix) :
  exists f, fst (finalize N M Is) = tabulate N f.
Proof. simpl. unfold add at 1. eexists. reflexivity. Qed.

(** The consensus matrix of a candidate count is a tabulated [N] x [N]
    array. *)
Lemma consensus_of_shape (N : nat) (H k : Z) (tr : Z -> Trial) (C : matrix) :
  consensus_of argsort N H k tr = Ok C -> exists f, C = tabulate N f.
Proof.
  unfold consensus_of.
  destruct (for_each (range 0 H) _ (zeros N, zeros N)) as [[M Is]|e];
    simpl; [|discriminate].
  intros E. inversion E. unfold add. eexists. reflexivity.
Qed.

(** What [fit] leaves for [predict]: the tensor, and a [bestK] never below
    [L]. *)
Lemma fit_best_index {C : Type} (trials : Z -> Z -> Trial) (e e' : engine C)
  (data : dataset) :
  fit argsort trials e data = Ok e' ->
  exists b, bestK e' = Some b /\ L_ e' = L_ e /\ (L_ e <= b)%Z
            /\ ((L_ e < K_ e)%Z -> (b < K_ e)%Z).
Proof.
  intros Hfit. apply fit_ok in Hfit as [HLK [mk [-> [Hlen _]]]]. cbn [bestK L_].
  eexists. split; [reflexivity|]. split; [reflexivity|].
  apply best_k_bounds, delta_curve_length. rewrite length_map. exact Hlen.
Qed.

(** After a successful [fit] over a non-empty candidate range, the
    slice of [bestK] is the consensus matrix of that count. *)
Lemma best_slice_after_fit {C : Type} (trials : Z -> Z -> Trial)
  (e e' : engine C) (data : dataset) :
  (L_ e < K_ e)%Z ->
  fit argsort trials e data = Ok e' ->
  exists b mk,
    bestK e' = Some b /\ (L_ e <= b < K_ e)%Z /\ Mk e' = Some (Arr3 mk)
    /\ L_ e' = L_ e
    /\ index0 (Arr3 mk) (b - L_ e)
       = Ok (Arr2 (nth (Z.to_nat (b - L_ e)) mk []))
    /\ consensus_of argsort (shape0 data) (H_ e) b (trials b)
       = Ok (nth (Z.to_nat (b - L_ e)) mk []).
Proof.
  intros HLK Hfit.
  destruct (fit_best_index trials e e' data Hfit) as [b [Hb [HL [Hlo Hhi]]]].
  specialize (Hhi HLK).
  destruct (fit_slice argsort trials e e' data Hfit) as [mk [HMk [Hlen Hall]]].
  exists b, mk. split; [exact Hb|]. split; [lia|]. split; [exact HMk|].
  split; [exact HL|]. split; [|apply Hall; lia].
  simpl. rewrite (nth_wrap_in_range mk []) by lia. reflexivity.
Qed.

(** One minus a consensus matrix is a dissimilarity matrix. *)
Lemma one_minus_consensus (N : nat) (H k : Z) (tr : Z -> Trial) (m : matrix) :
  (forall h, (0 <= h < H)%Z -> NoDup (resampled_indices (tr h))) ->
  consensus_of argsort N H k tr = Ok m ->
  forall a c, (a < N)%nat -> (c < N)%nat ->
    let D := map (map (fun x => 1 - x)) m in
    entry D a c == 1 - entry m a c
    /\ entry D a c == entry D c a /\ entry D a a == 0
    /\ 0 <= entry D a c <= 1.
Proof.
  intros Hnd Hcons a c Ha Hc.
  destruct (consensus_of_shape _ _ _ _ _ Hcons) as [f Hf].
  pose proof (consensus_of_props argsort argsort_ok _ _ _ _ _ Hnd Hcons) as Hprops.
  rewrite Hf in *. cbv zeta.
  rewrite !entry_map_tabulate by assumption.
  destruct (Hprops a c Ha Hc) as [Hsym [Hdiag Hbnd]].
  rewrite (entry_tabulate _ f a c Ha Hc) in Hsym, Hbnd.
  rewrite (entry_tabulate _ f c a Hc Ha) in Hsym.
  rewrite (entry_tabulate _ f a a Ha Ha) in Hdiag.
  rewrite (entry_tabulate _ f a c Ha Hc).
  split; [reflexivity|]. repeat split; lra.
Qed.

(** With an empty candidate range [fit] returns a tensor without slices
    and [bestK = L]. *)
Lemma fit_empty_range {C : Type} (trials : Z -> Z -> Trial) (e : engine C)
  (data : dataset) :
  L_ e = K_ e ->
  fit argsort trials e data
  = Ok (mkEngine (cluster_ e) (resample_proportion_ e) (L_ e) (K_ e) (H_ e)
          (Some (Arr3 [])) (Some []) (Some []) (Some (L_ e)) (X e)).
Proof.
  intros HLK. destruct e as [c rp L K H mk0 ak dk bk x0]. simpl in *. subst K.
  unfold fit, range. simpl. rewrite Z.sub_diag. reflexivity.
Qed.

(** X8. After a successful [fit] over a non-empty candidate range whose
    trials draw distinct rows, [predict_hierarchical] ends as its call of
    [AgglomerativeClustering] ends, and that call is made with
    [n_clusters = bestK], which lies in [[L, K)], complete linkage, and the
    matrix [D = 1 - Mk[bestK - L]], the one [predict] hands to the
    clustering primitive; [D] is a dissimilarity: symmetric, zero on the
    diagonal, entries between 0 and 1. *)
Theorem predict_hierarchical_after_fit {C : Type} (trials : Z -> Z -> Trial)
  (e e' : engine C) (data : dataset) (primitive : Z -> ndarray -> list Z)
  (agglomerative : Z -> linkage -> ndarray -> result (list Z)) :
  (forall k h, (L_ e <= k < K_ e)%Z -> (0 <= h < H_ e)%Z ->
     NoDup (resampled_indices (trials k h))) ->
  (L_ e < K_ e)%Z ->
  fit argsort trials e data = Ok e' ->
  exists b mk,
    bestK e' = Some b /\ (L_ e <= b < K_ e)%Z /\ Mk e' = Some (Arr3 mk)
    /\ let m := nth (Z.to_nat (b - L_ e)) mk [] in
       let D := map (map (fun x => 1 - x)) m in
       predict_hierarchical agglomerative e'
       = agglomerative b Complete (Arr2 D)
       /\ predict primitive e' = Ok (primitive b (Arr2 D))
       /\ forall a c, (a < shape0 data)%nat -> (c < shape0 data)%nat ->
            entry D a c == 1 - entry m a c
            /\ entry D a c == entry D c a /\ entry D a a == 0
            /\ 0 <= entry D a c <= 1.
Proof.
  intros Hnd HLK Hfit.
  destruct (best_slice_after_fit trials e e' data HLK Hfit)
    as [b [mk [Hb [Hin [HMk [HL [Hidx Hcons]]]]]]].
  exists b, mk. split; [exact Hb|]. split; [exact Hin|]. split; [exact HMk|].
  cbv zeta. split; [|split].
  - unfold predict_hierarchical. rewrite HMk, Hb, HL, Hidx. reflexivity.
  - unfold predict. rewrite HMk, Hb, HL, Hidx. reflexivity.
  - apply (one_minus_consensus (shape0 data) (H_ e) b (trials b)).
    + intros h Hh. apply Hnd; assumption.
    + exact Hcons.
Qed.

(** X9. After a successful [fit] over a non-empty candidate range whose
    trials draw distinct rows, [predict] returns what the clustering
    primitive returns for the number [bestK], which lies in [[L, K)], on the
    matrix [D = 1 - Mk[bestK - L]], which is a dissimilarity: symmetric, zero
    on the diagonal, entries between 0 and 1.  [predict_data] clusters the
    data into the same number of groups. *)
Theorem predict_after_fit {C : Type} (trials : Z -> Z -> Trial)
  (e e' : engine C) (data : dataset) (primitive : Z -> ndarray -> list Z)
  (primitive_data : option Z -> dataset -> list Z) (data' : dataset) :
  (forall k h, (L_ e <= k < K_ e)%Z -> (0 <= h < H_ e)%Z ->
     NoDup (resampled_indices (trials k h))) ->
  (L_ e < K_ e)%Z ->
  fit argsort trials e data = Ok e' ->
  exists b mk,
    bestK e' = Some b /\ (L_ e <= b < K_ e)%Z /\ Mk e' = Some (Arr3 mk)
    /\ let m := nth (Z.to_nat (b - L_ e)) mk [] in
       let D := map (map (fun x => 1 - x)) m in
       predict primitive e' = Ok (primitive b (Arr2 D))
       /\ predict_data primitive_data e' data'
          = Ok (primitive_data (Some b) data')
       /\ forall a c, (a < shape0 data)%nat -> (c < shape0 data)%nat ->
            entry D a c == 1 - entry m a c
            /\ entry D a c == entry D c a /\ entry D a a == 0
            /\ 0 <= entry D a c <= 1.
Proof.
  intros Hnd HLK Hfit.
  destruct (best_slice_after_fit trials e e' data HLK Hfit)
    as [b [mk [Hb [Hin [HMk [HL [Hidx Hcons]]]]]]].
  exists b, mk. split; [exact Hb|]. split; [exact Hin|]. split; [exact HMk|].
  cbv zeta. split; [|split].
  - unfold predict. rewrite HMk, Hb, HL, Hidx. reflexivity.
  - unfold predict_data. rewrite HMk, Hb. reflexivity.
  - apply (one_minus_consensus (shape0 data) (H_ e) b (trials b)).
    + intros h Hh. apply Hnd; assumption.
    + exact Hcons.
Qed.

(** X10. With an empty candidate range [L = K], [fit] returns but the
    tensor has no slice: [predict] and [predict_hierarchical] raise
    [IndexError], [predict_from_tuned] raises the [ValueError] of the
    [argmax] of no score, and only [predict_data] returns, with
    [bestK = L]. *)
Theorem predictions_on_empty_range {C : Type} (trials : Z -> Z -> Trial)
  (e : engine C) (data : dataset) (primitive : Z -> ndarray -> list Z)
  (agglomerative : Z -> linkage -> ndarray -> result (list Z))
  (sil : dataset -> list Z -> result Q)
  (primitive_data : option Z -> dataset -> list Z) (data' : dataset) :
  L_ e = K_ e ->
  exists e',
    fit argsort trials e data = Ok e'
    /\ Mk e' = Some (Arr3 []) /\ bestK e' = Some (L_ e)
    /\ predict primitive e' = Raise IndexError
    /\ predict_hierarchical agglomerative e' = Raise IndexError
    /\ predict_from_tuned agglomerative sil e' = Throws ValueError
    /\ predict_data primitive_data e' data'
       = Ok (primitive_data (Some (L_ e)) data').
Proof.
  intros HLK. eexists. split; [apply fit_empty_range; exact HLK|].
  unfold predict, predict_hierarchical, predict_from_tuned, predict_data.
  cbn [Mk bestK L_ K_ X]. rewrite <- HLK. unfold range.
  rewrite !Z.sub_diag. simpl.
  repeat split; reflexivity.
Qed.

(** X11. After [fit] followed by [fit_from_cfg], [bestK] is the one chosen
    by [fit] but [Mk] is the single matrix of [fit_from_cfg]; [predict]
    then indexes a row of it: it hands a one-dimensional array of [N]
    entries to the clustering primitive when [bestK - L < N] and raises
    [IndexError] otherwise. *)
Theorem predict_after_both_fits {C : Type} (trials : Z -> Z -> Trial)
  (trials' : Z -> Trial) (e e1 e2 : engine C) (data data' : dataset)
  (primitive : Z -> ndarray -> list Z) :
  fit argsort trials e data = Ok e1 ->
  fit_from_cfg argsort trials' e1 data' = Ok e2 ->
  exists b,
    bestK e1 = Some b /\ bestK e2 = Some b /\ (L_ e <= b)%Z
    /\ ((b - L_ e < Z.of_nat (shape0 data'))%Z ->
        exists row, length row = shape0 data'
          /\ predict primitive e2 = Ok (primitive b (Arr1 row)))
    /\ ((Z.of_nat (shape0 data') <= b - L_ e)%Z ->
        predict primitive e2 = Raise IndexError).
Proof.
  intros Hfit Hcfg.
  destruct (fit_best_index trials e e1 data Hfit) as [b [Hb [HL [HLb _]]]].
  apply (fit_from_cfg_ok argsort) in Hcfg as [M [Is [_ ->]]].
  exists b. split; [exact Hb|]. split; [exact Hb|]. split; [exact HLb|].
  destruct (finalize_shape (shape0 data') M Is) as [f ->].
  unfold predict. cbn [Mk bestK L_]. rewrite Hb, HL. cbn [index0].
  pose proof (length_tabulate (shape0 data') f) as Hm.
  split.
  - intros Hlt. rewrite (nth_wrap_in_range _ []) by lia. cbn [bind one_minus].
    eexists. split; [|reflexivity].
    rewrite length_map. apply nth_tabulate_length. lia.
  - intros Hge. rewrite nth_wrap_overflow by lia. reflexivity.
Qed.

End AfterFit.

(** ** The tuned prediction *)

Section Tuned.

Variable agglomerative : Z -> linkage -> ndarray -> result (list Z).
Variable sil : dataset -> list Z -> result Q.
Variable mk : ndarray.
Variable x : dataset.
Variable labels_for : Z -> list Z.
Variable score_for : Z -> Q.

(** Both external calls of the iteration for [k] returned. *)
Let calls_return (k : Z) : Prop :=
  agglomerative k Average (one_minus mk) = Ok (labels_for k)
  /\ sil x (labels_for k) = Ok (score_for k).

Lemma tuned_loop_with_data (ks : list Z) (scores : list Q) (labels : list (list Z)) :
  (forall k, In k ks -> calls_return k) ->
  tuned_loop agglomerative sil mk (Some x) ks (scores, labels)
  = Returns (scores ++ map score_for ks, labels ++ map labels_for ks).
Proof.
  revert scores labels. induction ks as [|k ks IH]; intros scores labels Hret.
  - simpl. rewrite !app_nil_r. reflexivity.
  - destruct (Hret k (or_introl eq_refl)) as [Ha Hs].
    cbn [tuned_loop tuned_step]. rewrite Ha, Hs.
    rewrite IH by (intros k' Hk'; apply Hret; right; exact Hk').
    cbn [map]. rewrite <- !app_assoc. reflexivity.
Qed.

Lemma tuned_pick (ks : list Z) :
  ks <> [] ->
  (forall k, In k ks -> calls_return k) ->
  match tuned_loop agglomerative sil mk (Some x) ks ([], []) with
  | Returns (scores, labels) =>
      match scores with
      | [] => Throws ValueError
      | _ :: _ => Returns (nth (argmax scores) labels [])
      end
  | Throws ex => Throws ex
  | ThrowsAttributeError => ThrowsAttributeError
  | ThrowsFromCall ex => ThrowsFromCall ex
  end
  = Returns (nth (argmax (map score_for ks)) (map labels_for ks) []).
Proof.
  intros Hks Hret. rewrite tuned_loop_with_data by exact Hret. cbn [app].
  destruct ks as [|k ks']; [congruence | reflexivity].
Qed.

(** The first external call that raises ends the loop. *)
Lemma tuned_loop_call_raises (ks1 ks2 : list Z) (k : Z) (ex : exn)
  (s : list Q * list (list Z)) :
  (forall k', In k' ks1 -> calls_return k') ->
  agglomerative k Average (one_minus mk) = Raise ex
  \/ (exists ls, agglomerative k Average (one_minus mk) = Ok ls
                 /\ sil x ls = Raise ex) ->
  tuned_loop agglomerative sil mk (Some x) (ks1 ++ k :: ks2) s
  = ThrowsFromCall ex.
Proof.
  revert s. induction ks1 as [|k1 ks1 IH]; intros [scores labels] Hret Hex.
  - cbn [app tuned_loop tuned_step].
    destruct Hex as [Ha|[ls [Ha Hs]]]; rewrite Ha; [reflexivity|].
    rewrite Hs. reflexivity.
  - destruct (Hret k1 (or_introl eq_refl)) as [Ha Hs].
    cbn [app tuned_loop tuned_step]. rewrite Ha, Hs.
    apply IH; [|exact Hex]. intros k' Hk'. apply Hret. right. exact Hk'.
Qed.

Lemma tuned_loop_without_data (k : Z) (ks : list Z) (s : list Q * list (list Z)) :
  tuned_loop agglomerative sil mk None (k :: ks) s = ThrowsAttributeError
  \/ exists ex, tuned_loop agglomerative sil mk None (k :: ks) s
                = ThrowsFromCall ex.
Proof.
  destruct s as [scores labels]. cbn [tuned_loop tuned_step].
  destruct (agglomerative k Average (one_minus mk)) as [ls|ex].
  - left. reflexivity.
  - right. exists ex. reflexivity.
Qed.

End Tuned.

(** X12. Once [Mk] is set and the data are retained ([X], assigned by
    [fit_from_cfg]), [predict_from_tuned] reads no [bestK].  When for each
    candidate count of a non-empty range the calls of
    [AgglomerativeClustering] (average linkage, on [1 - Mk]) and of
    [silhouette_score] return, it returns the labels of the count whose
    score is maximal, the first such count in case of a tie.  When one of
    these calls raises after those of the smaller counts returned, it ends
    with that exception. *)
Theorem predict_from_tuned_best_silhouette {C : Type} (e : engine C)
  (agglomerative : Z -> linkage -> ndarray -> result (list Z))
  (sil : dataset -> list Z -> result Q) (mk : ndarray) (x : dataset)
  (labels_for : Z -> list Z) (score_for : Z -> Q) :
  Mk e = Some mk -> X e = Some x ->
  let returned := fun k =>
    agglomerative k Average (one_minus mk) = Ok (labels_for k)
    /\ sil x (labels_for k) = Ok (score_for k) in
  ((L_ e < K_ e)%Z ->
   (forall k, (L_ e <= k < K_ e)%Z -> returned k) ->
   exists k,
     (L_ e <= k < K_ e)%Z
     /\ predict_from_tuned agglomerative sil e = Returns (labels_for k)
     /\ (forall k', (L_ e <= k' < K_ e)%Z -> score_for k' <= score_for k)
     /\ (forall k', (L_ e <= k' < k)%Z -> score_for k' < score_for k))
  /\ (forall k ex, (L_ e <= k < K_ e)%Z ->
        (forall k', (L_ e <= k' < k)%Z -> returned k') ->
        agglomerative k Average (one_minus mk) = Raise ex
        \/ (exists ls, agglomerative k Average (one_minus mk) = Ok ls
                       /\ sil x ls = Raise ex) ->
        predict_from_tuned agglomerative sil e = ThrowsFromCall ex).
Proof.
  intros HMk HX returned. split.
  - intros HLK Hret.
    pose proof (length_range (L_ e) (K_ e)) as Hlen.
    remember (range (L_ e) (K_ e)) as ks eqn:Eks.
    assert (ks <> []) as Hks by (destruct ks; [simpl in Hlen; lia | discriminate]).
    remember (map score_for ks) as scores eqn:Es.
    assert (length scores = length ks) as Hls by (subst scores; apply length_map).
    assert (scores <> []) as Hne
      by (destruct scores; [destruct ks; simpl in *; congruence | discriminate]).
    destruct (argmax_spec scores Hne) as [Hlt [Hmax Hfirst]].
    assert (forall j, (j < length ks)%nat ->
              nth j scores 0 = score_for (L_ e + Z.of_nat j)%Z) as Hnth.
    { intros j Hj. rewrite Es.
      rewrite (nth_indep _ 0 (score_for 0%Z)) by (rewrite length_map; exact Hj).
      rewrite (map_nth score_for).
      rewrite Eks, nth_range by lia. reflexivity. }
    exists (L_ e + Z.of_nat (argmax scores))%Z.
    split; [lia|]. split; [|split].
    + unfold predict_from_tuned. rewrite HMk, HX, <- Eks.
      rewrite (tuned_pick agglomerative sil mk x labels_for score_for ks Hks)
        by (intros k Hk; apply Hret, in_range; rewrite <- Eks; exact Hk).
      rewrite <- Es. f_equal.
      rewrite (nth_indep _ [] (labels_for 0%Z)) by (rewrite length_map; lia).
      rewrite (map_nth labels_for).
      rewrite Eks, nth_range by lia. reflexivity.
    + intros k' Hk'.
      specialize (Hmax (Z.to_nat (k' - L_ e))).
      rewrite !Hnth in Hmax by lia.
      replace (L_ e + Z.of_nat (Z.to_nat (k' - L_ e)))%Z with k' in Hmax by lia.
      apply Hmax. lia.
    + intros k' Hk'.
      specialize (Hfirst (Z.to_nat (k' - L_ e))).
      rewrite !Hnth in Hfirst by lia.
      replace (L_ e + Z.of_nat (Z.to_nat (k' - L_ e)))%Z with k' in Hfirst by lia.
      apply Hfirst. lia.
  - intros k ex Hk Hbefore Hex.
    unfold predict_from_tuned. rewrite HMk, HX.
    rewrite (range_split (L_ e) k (K_ e)) by lia.
    assert (exists ks, range k (K_ e) = k :: ks) as [ks ->].
    { unfold range. destruct (Z.to_nat (K_ e - k)) eqn:E; [lia|].
      simpl. rewrite Z.add_0_r. eauto. }
    rewrite (tuned_loop_call_raises agglomerative sil mk x labels_for score_for
               (range (L_ e) k) ks k ex).
    + reflexivity.
    + intros k' Hk'. apply Hbefore, in_range, Hk'.
    + exact Hex.
Qed.

(** X13. After [fit] alone on a freshly constructed engine with a
    non-empty candidate range, [predict_from_tuned] passes its assertion but
    never returns labels: the silhouette score needs [self.X], which only
    [fit_from_cfg] assigns. *)
Theorem predict_from_tuned_needs_data {C : Type} (argsort : list Z -> list nat)
  (cluster : C) (L K H : Z) (rp : Q) (trials : Z -> Z -> Trial)
  (data : dataset) (e0 e1 : engine C)
  (agglomerative : Z -> linkage -> ndarray -> result (list Z))
  (sil : dataset -> list Z -> result Q) :
  init cluster L K H rp = Ok e0 ->
  fit argsort trials e0 data = Ok e1 ->
  (L < K)%Z ->
  X e1 = None
  /\ predict_from_tuned agglomerative sil e1 <> Throws AssertionError
  /\ forall ls, predict_from_tuned agglomerative sil e1 <> Returns ls.
Proof.
  intros Hinit Hfit HLK. unfold init in Hinit.
  destruct (Qle_bool 0 rp && Qle_bool rp 1); [|discriminate].
  inversion Hinit; subst e0. clear Hinit.
  apply fit_ok in Hfit as [_ [mk [-> _]]]. simpl.
  unfold predict_from_tuned. simpl.
  assert (exists k ks, range L K = k :: ks) as [k [ks ->]].
  { unfold range. destruct (Z.to_nat (K - L)) eqn:E; [lia|]. simpl. eauto. }
  split; [reflexivity|].
  destruct (tuned_loop_without_data agglomerative sil (Arr3 mk) k ks ([], []))
    as [->|[ex ->]]; split; try discriminate; intros ls; discriminate.
Qed.

(** ** The drivers *)

Lemma init_accepts {C : Type} (cluster : C) (L K H : Z) (rp : Q) :
  0 <= rp <= 1 ->
  init cluster L K H rp = Ok (mkEngine cluster rp L K H None None None None None).
Proof.
  intros [H0 H1]. unfold init.
  apply Qle_bool_iff in H0, H1. rewrite H0, H1. reflexivity.
Qed.

Lemma init_rejects {C : Type} (cluster : C) (L K H : Z) (rp : Q) :
  ~ (0 <= rp <= 1) -> init cluster L K H rp = Raise AssertionError.
Proof.
  intros Hout. unfold init.
  destruct (Qle_bool 0 rp) eqn:E0; destruct (Qle_bool rp 1) eqn:E1;
    try reflexivity.
  exfalso. apply Hout. split; apply Qle_bool_iff; assumption.
Qed.

Section DriverFacts.

Variable argsort : list Z -> list nat.
Hypothesis argsort_ok : argsort_contract argsort.

Lemma run_monti_bad_proportion {C Y : Type} (trials : Z -> Z -> Trial)
  (primitive : Z -> ndarray -> list Z) (KMeans : C) (X : dataset)
  (L n_clusters H : Z) (proportion : Q) (y : Y) :
  ~ (0 <= proportion <= 1) ->
  run_monti argsort trials primitive KMeans X L n_clusters H proportion y
  = Raise AssertionError.
Proof.
  intros Hp. unfold run_monti. rewrite (init_rejects _ _ _ _ _ Hp). reflexivity.
Qed.

Lemma run_monti_reversed_range {C Y : Type} (trials : Z -> Z -> Trial)
  (primitive : Z -> ndarray -> list Z) (KMeans : C) (X : dataset)
  (L n_clusters H : Z) (proportion : Q) (y : Y) :
  0 <= proportion <= 1 -> (n_clusters < L)%Z ->
  run_monti argsort trials primitive KMeans X L n_clusters H proportion y
  = Raise ValueError.
Proof.
  intros Hp HK. unfold run_monti. rewrite (init_accepts _ _ _ _ _ Hp). cbn [bind].
  rewrite fit_reversed_range by exact HK. reflexivity.
Qed.

Lemma run_monti_empty_range {C Y : Type} (trials : Z -> Z -> Trial)
  (primitive : Z -> ndarray -> list Z) (KMeans : C) (X : dataset)
  (L n_clusters H : Z) (proportion : Q) (y : Y) :
  0 <= proportion <= 1 -> n_clusters = L ->
  run_monti argsort trials primitive KMeans X L n_clusters H proportion y
  = Raise IndexError.
Proof.
  intros Hp HK. unfold run_monti. rewrite (init_accepts _ _ _ _ _ Hp). cbn [bind].
  rewrite (fit_empty_range argsort) by (symmetry; exact HK).
  cbn [bind cluster_ resample_proportion_ L_ K_ H_].
  unfold predict. cbn [Mk bestK L_]. rewrite Z.sub_diag. reflexivity.
Qed.

(** With well-formed trials of at least two rows over a non-empty
    candidate range, both drivers reach their last call with the same
    number of groups and the same matrix. *)
Lemma drivers_reach_call {C Y : Type} (trials : Z -> Z -> Trial)
  (primitive : Z -> ndarray -> list Z)
  (agglomerative : Z -> linkage -> ndarray -> result (list Z)) (KMeans : C)
  (X : dataset) (L n_clusters H : Z) (proportion : Q) (y : Y) :
  0 <= proportion <= 1 -> (L < n_clusters)%Z ->
  (forall k h, (L <= k < n_clusters)%Z -> (0 <= h < H)%Z ->
     trial_contract (shape0 X) (trials k h)
     /\ (2 <= length (resampled_indices (trials k h)))%nat) ->
  exists b m,
    (L <= b < n_clusters)%Z
    /\ consensus_of argsort (shape0 X) H b (trials b) = Ok m
    /\ let D := Arr2 (map (map (fun x => 1 - x)) m) in
       run_monti argsort trials primitive KMeans X L n_clusters H proportion y
       = Ok (X, primitive b D, y)
       /\ run_monti_hierarchical argsort trials agglomerative KMeans X L
            n_clusters H proportion y
          = (labels <- agglomerative b Complete D ;; Ok (X, labels, y)).
Proof.
  intros Hp HLK Hwf. unfold run_monti, run_monti_hierarchical.
  rewrite (init_accepts _ _ _ _ _ Hp). cbn [bind].
  set (e0 := mkEngine KMeans proportion L n_clusters H None None None None None).
  destruct (fit_total argsort argsort_ok trials e0 X) as [e' Hfit].
  - simpl. lia.
  - exact Hwf.
  - destruct (best_slice_after_fit argsort trials e0 e' X HLK Hfit)
      as [b [mk [Hb [Hin [HMk [HL [Hidx Hcons]]]]]]].
    exists b, (nth (Z.to_nat (b - L)) mk []).
    split; [exact Hin|]. split; [exact Hcons|]. cbv zeta.
    rewrite Hfit. cbn [bind]. unfold predict, predict_hierarchical.
    rewrite HMk, Hb, HL. cbn [L_ e0] in Hidx |- *. rewrite Hidx.
    split; reflexivity.
Qed.

Lemma run_monti_returns {C Y : Type} (trials : Z -> Z -> Trial)
  (primitive : Z -> ndarray -> list Z) (KMeans : C) (X : dataset)
  (L n_clusters H : Z) (proportion : Q) (y : Y) :
  0 <= proportion <= 1 -> (L < n_clusters)%Z ->
  (forall k h, (L <= k < n_clusters)%Z -> (0 <= h < H)%Z ->
     trial_contract (shape0 X) (trials k h)
     /\ (2 <= length (resampled_indices (trials k h)))%nat) ->
  exists b D, (L <= b < n_clusters)%Z
    /\ run_monti argsort trials primitive KMeans X L n_clusters H proportion y
       = Ok (X, primitive b (Arr2 D), y).
Proof.
  intros Hp HLK Hwf.
  destruct (drivers_reach_call trials primitive (fun _ _ _ => Ok []) KMeans X L
              n_clusters H proportion y Hp HLK Hwf) as [b [m [Hb [_ [Hrun _]]]]].
  exists b. eexists. split; [exact Hb|exact Hrun].
Qed.

(** X14. How [run_monti] ends, before its decoration: an [AssertionError]
    for a proportion outside [[0, 1]]; otherwise a [ValueError] for
    [n_clusters < L], an [IndexError] for [n_clusters = L], and, for
    [L < n_clusters] with well-formed trials of at least two rows, the data,
    the labels of the primitive for a number of groups in [[L, n_clusters)]
    and [y]. *)
Theorem run_monti_outcomes {C Y : Type} (trials : Z -> Z -> Trial)
  (primitive : Z -> ndarray -> list Z) (KMeans : C) (X : dataset)
  (L n_clusters H : Z) (proportion : Q) (y : Y) :
  let run := run_monti argsort trials primitive KMeans X L n_clusters H
               proportion y in
  (~ (0 <= proportion <= 1) -> run = Raise AssertionError)
  /\ (0 <= proportion <= 1 -> (n_clusters < L)%Z -> run = Raise ValueError)
  /\ (0 <= proportion <= 1 -> n_clusters = L -> run = Raise IndexError)
  /\ (0 <= proportion <= 1 -> (L < n_clusters)%Z ->
      (forall k h, (L <= k < n_clusters)%Z -> (0 <= h < H)%Z ->
         trial_contract (shape0 X) (trials k h)
         /\ (2 <= length (resampled_indices (trials k h)))%nat) ->
      exists b D, (L <= b < n_clusters)%Z
                  /\ run = Ok (X, primitive b (Arr2 D), y)).
Proof.
  intros run. unfold run. split; [|split; [|split]].
  - apply run_monti_bad_proportion.
  - apply run_monti_reversed_range.
  - apply run_monti_empty_range.
  - apply run_monti_returns.
Qed.

(** X15. [run_monti_hierarchical] stops where [run_monti] stops before
    the last call: an [AssertionError] for a proportion outside [[0, 1]], a
    [ValueError] for [n_clusters < L], an [IndexError] for [n_clusters = L].
    For [L < n_clusters] with well-formed trials of at least two rows, it
    ends as its call of [AgglomerativeClustering] ends, and that call gets
    what [run_monti] hands to the clustering primitive: a number of groups
    [b] in [[L, n_clusters)] and one minus the consensus matrix of [b]. *)
Theorem run_monti_hierarchical_outcomes {C Y : Type}
  (trials : Z -> Z -> Trial) (primitive : Z -> ndarray -> list Z)
  (agglomerative : Z -> linkage -> ndarray -> result (list Z)) (KMeans : C)
  (X : dataset) (L n_clusters H : Z) (proportion : Q) (y : Y) :
  let run := run_monti_hierarchical argsort trials agglomerative KMeans X L
               n_clusters H proportion y in
  (~ (0 <= proportion <= 1) -> run = Raise AssertionError)
  /\ (0 <= proportion <= 1 -> (n_clusters < L)%Z -> run = Raise ValueError)
  /\ (0 <= proportion <= 1 -> n_clusters = L -> run = Raise IndexError)
  /\ (0 <= proportion <= 1 -> (L < n_clusters)%Z ->
      (forall k h, (L <= k < n_clusters)%Z -> (0 <= h < H)%Z ->
         trial_contract (shape0 X) (trials k h)
         /\ (2 <= length (resampled_indices (trials k h)))%nat) ->
      exists b m,
        (L <= b < n_clusters)%Z
        /\ consensus_of argsort (shape0 X) H b (trials b) = Ok m
        /\ let D := Arr2 (map (map (fun x => 1 - x)) m) in
           run_monti argsort trials primitive KMeans X L n_clusters H
             proportion y
           = Ok (X, primitive b D, y)
           /\ run = (labels <- agglomerative b Complete D ;;
                     Ok (X, labels, y))).
Proof.
  intros run. unfold run. split; [|split; [|split]].
  - intros Hp. unfold run_monti_hierarchical.
    rewrite (init_rejects _ _ _ _ _ Hp). reflexivity.
  - intros Hp HK. unfold run_monti_hierarchical.
    rewrite (init_accepts _ _ _ _ _ Hp). cbn [bind].
    rewrite fit_reversed_range by exact HK. reflexivity.
  - intros Hp HK. unfold run_monti_hierarchical.
    rewrite (init_accepts _ _ _ _ _ Hp). cbn [bind].
    rewrite (fit_empty_range argsort) by (symmetry; exact HK).
    cbn [bind cluster_ resample_proportion_ L_ K_ H_].
    unfold predict_hierarchical. cbn [Mk bestK L_]. rewrite Z.sub_diag.
    reflexivity.
  - apply drivers_reach_call.
Qed.

End DriverFacts.

(** The column means of a list of rows that is not empty. *)
Lemma mean_axis0_nonempty (cvis : list (list Q)) :
  cvis <> [] ->
  mean_axis0 cvis
  = Some (map (fun j => Py.sum (map (fun r => nth j r 0) cvis)
                        / inject_Z (Z.of_nat (length cvis)))
              (seq 0 (length (hd [] cvis)))).
Proof.
  destruct cvis as [|row rows]; [congruence|reflexivity].
Qed.

(** The number a metric returned, [0] if it raised. *)
Lemma metric_row_ok (metrics : list (dataset -> list Z -> result Q))
  (X : dataset) (labels : list Z) :
  (forall metric, In metric metrics -> is_ok (metric X labels) = true) ->
  metric_row metrics X labels
  = Ok (map (fun metric => match metric X labels with
                           | Ok v => v
                           | Raise _ => 0
                           end) metrics).
Proof.
  induction metrics as [|metric rest IH]; intros Hok; [reflexivity|].
  cbn [metric_row map].
  pose proof (Hok metric (or_introl eq_refl)) as Hm.
  destruct (metric X labels) as [v|ex]; [|discriminate]. cbn [bind].
  rewrite IH by (intros m Hin; apply Hok; right; exact Hin). reflexivity.
Qed.

(** The first metric that raises ends the row. *)
Lemma metric_row_raises (ms1 ms2 : list (dataset -> list Z -> result Q))
  (metric : dataset -> list Z -> result Q) (X : dataset) (labels : list Z)
  (ex : exn) :
  (forall m, In m ms1 -> is_ok (m X labels) = true) ->
  metric X labels = Raise ex ->
  metric_row (ms1 ++ metric :: ms2) X labels = Raise ex.
Proof.
  induction ms1 as [|m ms1 IH]; intros Hok Hex.
  - cbn [app metric_row]. rewrite Hex. reflexivity.
  - cbn [app metric_row].
    pose proof (Hok m (or_introl eq_refl)) as Hm.
    destruct (m X labels) as [v|e1]; [|discriminate]. cbn [bind].
    rewrite IH; [reflexivity| |exact Hex].
    intros m' Hin. apply Hok. right. exact Hin.
Qed.

(** The rows collected over runs that went through. *)
Lemma with_metrics_loop {Y : Type}
  (metrics : list (dataset -> list Z -> result Q))
  (test : Z -> result (dataset * list Z * Y)) (rs : list Z) :
  (forall r, In r rs -> run_measured metrics test r) ->
  forall cvis,
    for_each rs
      (fun r cvis0 =>
         '(X, labels, _) <- test r ;;
         row <- metric_row metrics X labels ;;
         Ok (cvis0 ++ [row]))
      cvis
    = Ok (cvis ++ map (fun r => map (fun metric => metric_value test metric r)
                                  metrics) rs).
Proof.
  induction rs as [|r rs IH]; intros Hok cvis; simpl.
  - rewrite app_nil_r. reflexivity.
  - destruct (Hok r (or_introl eq_refl)) as [X [labels [y [Hr Hm]]]].
    unfold metric_value at 1. rewrite Hr. cbn [bind].
    rewrite (metric_row_ok metrics X labels Hm). cbn [bind].
    rewrite IH by (intros r' Hr'; apply Hok; right; exact Hr').
    rewrite <- app_assoc. reflexivity.
Qed.

(** When every run goes through, the wrapper returns the column means. *)
Lemma with_metrics_returns {Y : Type}
  (metrics : list (dataset -> list Z -> result Q))
  (test : Z -> result (dataset * list Z * Y)) (n_runs : Z) :
  (0 < n_runs)%Z ->
  (forall r, (0 <= r < n_runs)%Z -> run_measured metrics test r) ->
  exists avgs,
    with_metrics metrics test n_runs = Ok (Some avgs)
    /\ length avgs = length metrics
    /\ forall j, (j < length metrics)%nat ->
         nth j avgs 0
         == big_sum (Z.to_nat n_runs)
              (fun r => metric_value test (nth j metrics (fun _ _ => Ok 0))
                          (Z.of_nat r))
            / inject_Z n_runs.
Proof.
  intros Hn Hok. unfold with_metrics.
  rewrite with_metrics_loop by (intros r Hr; apply Hok, in_range, Hr).
  cbn [app bind].
  set (row := fun r => map (fun metric => metric_value test metric r) metrics).
  assert (forall r, length (row r) = length metrics) as Hrow
    by (intros r; apply length_map).
  assert (length (map row (range 0 n_runs)) = Z.to_nat n_runs) as Hlen
    by (rewrite length_map, length_range; f_equal; lia).
  assert (hd [] (map row (range 0 n_runs)) = row 0%Z) as Hrow0.
  { unfold range. destruct (Z.to_nat (n_runs - 0)) eqn:E; [lia|].
    reflexivity. }
  rewrite (mean_axis0_nonempty (map row (range 0 n_runs)))
    by (intros E; rewrite E in Hlen; simpl in Hlen; lia).
  rewrite Hrow0.
  eexists. split; [reflexivity|]. split.
  - rewrite length_map, length_seq. apply Hrow.
  - intros j Hj.
    rewrite (nth_indep _ 0 ((fun j0 => Py.sum (map (fun r => nth j0 r 0)
                                                  (map row (range 0 n_runs)))
                               / inject_Z (Z.of_nat (length (map row (range 0 n_runs)))))
                              0%nat))
      by (rewrite length_map, length_seq, Hrow; exact Hj).
    rewrite (map_nth (fun j0 => Py.sum (map (fun r => nth j0 r 0)
                                          (map row (range 0 n_runs)))
                       / inject_Z (Z.of_nat (length (map row (range 0 n_runs)))))).
    rewrite seq_nth by (rewrite Hrow; exact Hj).
    cbn [Nat.add]. rewrite Hlen, Z2Nat.id by lia.
    apply Qmult_comp; [|reflexivity].
    rewrite sum_big_sum, !length_map, length_range.
    replace (Z.to_nat (n_runs - 0)) with (Z.to_nat n_runs) by lia.
    apply big_sum_ext. intros r Hr.
    rewrite map_map.
    rewrite (nth_indep _ 0 (nth j (row 0%Z) 0))
      by (rewrite length_map, length_range; lia).
    rewrite (map_nth (fun r0 => nth j (row r0) 0)).
    rewrite nth_range by lia. rewrite Z.add_0_l.
    unfold row.
    pose proof (map_nth (fun metric => metric_value test metric (Z.of_nat r))
                  metrics (fun _ _ => Ok 0) j) as E.
    cbv beta in E.
    rewrite (nth_indep _ 0 (metric_value test (fun _ _ => Ok 0) (Z.of_nat r)))
      by (rewrite length_map; exact Hj).
    rewrite E. reflexivity.
Qed.

(** The first run that does not go through ends the wrapper. *)
Lemma with_metrics_raises {Y : Type}
  (metrics : list (dataset -> list Z -> result Q))
  (test : Z -> result (dataset * list Z * Y)) (n_runs r : Z) (ex : exn) :
  (0 <= r < n_runs)%Z ->
  (forall r', (0 <= r' < r)%Z -> run_measured metrics test r') ->
  (x <- test r ;; let '(X, labels, _) := x in metric_row metrics X labels)
  = Raise ex ->
  with_metrics metrics test n_runs = Raise ex.
Proof.
  intros Hr Hbefore Hex. unfold with_metrics.
  rewrite (range_split 0 r n_runs) by lia.
  rewrite for_each_app.
  rewrite with_metrics_loop by (intros r' Hr'; apply Hbefore, in_range, Hr').
  cbn [bind app].
  assert (exists rs, range r n_runs = r :: rs) as [rs ->].
  { unfold range. destruct (Z.to_nat (n_runs - r)) eqn:E; [lia|].
    simpl. rewrite Z.add_0_r. eauto. }
  cbn [for_each].
  destruct (test r) as [[[X labels] y]|e1]; cbn [bind] in Hex |- *.
  - rewrite Hex. reflexivity.
  - inversion Hex; subst. reflexivity.
Qed.

(** X16. The wrapper built by [with_metrics], for [n_runs >= 1].  When
    every run goes through, that is [test] returns and each metric returns
    on its data and labels, the wrapper returns one number per metric: the
    sum of that metric over the runs divided by [n_runs].  Otherwise the
    first thing that raises ends it, with that exception: a run of [test],
    or a metric, the ones before it in the list having returned. *)
Theorem with_metrics_mean {Y : Type}
  (metrics : list (dataset -> list Z -> result Q))
  (test : Z -> result (dataset * list Z * Y)) (n_runs : Z) :
  (0 < n_runs)%Z ->
  ((forall r, (0 <= r < n_runs)%Z -> run_measured metrics test r) ->
   exists avgs,
     with_metrics metrics test n_runs = Ok (Some avgs)
     /\ length avgs = length metrics
     /\ forall j, (j < length metrics)%nat ->
          nth j avgs 0
          == big_sum (Z.to_nat n_runs)
               (fun r => metric_value test (nth j metrics (fun _ _ => Ok 0))
                           (Z.of_nat r))
             / inject_Z n_runs)
  /\ (forall r ex, (0 <= r < n_runs)%Z ->
        (forall r', (0 <= r' < r)%Z -> run_measured metrics test r') ->
        test r = Raise ex ->
        with_metrics metrics test n_runs = Raise ex)
  /\ (forall r X labels y ms1 metric ms2 ex, (0 <= r < n_runs)%Z ->
        (forall r', (0 <= r' < r)%Z -> run_measured metrics test r') ->
        test r = Ok (X, labels, y) ->
        metrics = ms1 ++ metric :: ms2 ->
        (forall m, In m ms1 -> is_ok (m X labels) = true) ->
        metric X labels = Raise ex ->
        with_metrics metrics test n_runs = Raise ex).
Proof.
  intros Hn. split; [|split].
  - intros Hok. apply with_metrics_returns; assumption.
  - intros r ex Hr Hbefore Hex.
    apply (with_metrics_raises metrics test n_runs r ex Hr Hbefore).
    rewrite Hex. reflexivity.
  - intros r X labels y ms1 metric ms2 ex Hr Hbefore Hrun Hms Hok Hex.
    apply (with_metrics_raises metrics test n_runs r ex Hr Hbefore).
    rewrite Hrun. cbn [bind]. rewrite Hms.
    apply metric_row_raises; assumption.
Qed.

(** X17. The exported [run_monti], decorated with its five runs: it
    raises the [AssertionError] of the constructor for a proportion outside
    [[0, 1]], a [ValueError] for [n_clusters < L] and an [IndexError] for
    [n_clusters = L], each in its first run, before any metric is called.
    For [L < n_clusters] with well-formed trials of at least two rows,
    every run returns labels for a number of groups in [[L, n_clusters)];
    when moreover each metric returns on the data and labels of each run,
    the result is one average per metric over the five runs. *)
Theorem run_monti_decorated_outcomes {C Y : Type} (argsort : list Z -> list nat)
  (metrics : list (dataset -> list Z -> result Q))
  (trials : Z -> Z -> Z -> Trial) (primitive : Z -> Z -> ndarray -> list Z)
  (KMeans : C) (X : dataset) (L n_clusters H : Z) (proportion : Q) (y : Y) :
  argsort_contract argsort ->
  let run := run_monti_decorated argsort metrics trials primitive KMeans X L
               n_clusters H proportion y in
  let test := fun r => run_monti argsort (trials r) (primitive r) KMeans X L
                         n_clusters H proportion y in
  (~ (0 <= proportion <= 1) -> run = Raise AssertionError)
  /\ (0 <= proportion <= 1 -> (n_clusters < L)%Z -> run = Raise ValueError)
  /\ (0 <= proportion <= 1 -> n_clusters = L -> run = Raise IndexError)
  /\ (0 <= proportion <= 1 -> (L < n_clusters)%Z ->
      (forall r k h, (0 <= r < 5)%Z -> (L <= k < n_clusters)%Z -> (0 <= h < H)%Z ->
         trial_contract (shape0 X) (trials r k h)
         /\ (2 <= length (resampled_indices (trials r k h)))%nat) ->
      (forall r, (0 <= r < 5)%Z ->
         exists b D, (L <= b < n_clusters)%Z
                     /\ test r = Ok (X, primitive r b (Arr2 D), y))
      /\ ((forall r labels, (0 <= r < 5)%Z -> test r = Ok (X, labels, y) ->
             forall metric, In metric metrics ->
               is_ok (metric X labels) = true) ->
          exists avgs,
            run = Ok (Some avgs) /\ length avgs = length metrics
            /\ forall j, (j < length metrics)%nat ->
                 nth j avgs 0
                 == big_sum 5
                      (fun r => metric_value test
                                  (nth j metrics (fun _ _ => Ok 0))
                                  (Z.of_nat r))
                    / inject_Z 5)).
Proof.
  intros argsort_ok run test.
  assert (forall ex, test 0%Z = Raise ex -> run = Raise ex) as Hfirst.
  { intros ex Hex. unfold run, run_monti_decorated.
    apply (with_metrics_raises metrics test default_n_runs 0 ex);
      [unfold default_n_runs; lia| |rewrite Hex; reflexivity].
    intros r' Hr'. lia. }
  split; [|split; [|split]].
  - intros Hp. apply Hfirst, run_monti_bad_proportion, Hp.
  - intros Hp HK. apply Hfirst, run_monti_reversed_range; assumption.
  - intros Hp HK. apply Hfirst, run_monti_empty_range; assumption.
  - intros Hp HLK Hwf.
    assert (forall r, (0 <= r < 5)%Z ->
              exists b D, (L <= b < n_clusters)%Z
                          /\ test r = Ok (X, primitive r b (Arr2 D), y)) as Hruns.
    { intros r Hr.
      apply (run_monti_returns argsort argsort_ok); [exact Hp|exact HLK|].
      intros k h Hk Hh. apply Hwf; assumption. }
    split; [exact Hruns|]. intros Hmetrics.
    apply (with_metrics_returns metrics test default_n_runs eq_refl).
    intros r Hr. destruct (Hruns r Hr) as [b [D [_ Hrun]]].
    exists X, (primitive r b (Arr2 D)), y. split; [exact Hrun|].
    intros metric Hin. apply (Hmetrics r _ Hr Hrun metric Hin).
Qed.

(** ** Bounds of the stability area *)

Lemma fold_min_max_bounds (t : list Q) :
  forall x,
    fold_left Qmin t x <= fold_left Qmax t x
    /\ forall y, In y (x :: t) ->
         fold_left Qmin t x <= y /\ y <= fold_left Qmax t x.
Proof.
  assert (forall (s : list Q) x, fold_left Qmin s x <= x) as Hmin.
  { intros s; induction s as [|z s IH]; intros x; simpl; [apply Qle_refl|].
    eapply Qle_trans; [apply IH|]. apply Q.le_min_l. }
  assert (forall (s : list Q) x, x <= fold_left Qmax s x) as Hmax.
  { intros s; induction s as [|z s IH]; intros x; simpl; [apply Qle_refl|].
    eapply Qle_trans; [|apply IH]. apply Q.le_max_l. }
  induction t as [|z t IH]; intros x.
  - simpl. split; [lra|]. intros y [<-|[]]. lra.
  - cbn [fold_left]. destruct (IH (Qmin x z)) as [_ Hlo].
    destruct (IH (Qmax x z)) as [_ Hhi].
    assert (forall y, In y (x :: z :: t) ->
              fold_left Qmin t (Qmin x z) <= y /\ y <= fold_left Qmax t (Qmax x z)) as Hall.
    { intros y [<-|[<-|Hy]].
      - split.
        + eapply Qle_trans; [apply Hmin|]. apply Q.le_min_l.
        + eapply Qle_trans; [|apply Hmax]. apply Q.le_max_l.
      - split.
        + eapply Qle_trans; [apply Hmin|]. apply Q.le_min_r.
        + eapply Qle_trans; [|apply Hmax]. apply Q.le_max_r.
      - split.
        + apply Hlo. right. exact Hy.
        + apply Hhi. right. exact Hy. }
    split; [|exact Hall].
    destruct (Hall x (or_introl eq_refl)). lra.
Qed.

(** Each value lies between the outer edges of the histogram, which are
    apart. *)
Lemma outer_edges_bounds (a : list Q) :
  fst (outer_edges a) < snd (outer_edges a)
  /\ forall y, In y a -> fst (outer_edges a) <= y /\ y <= snd (outer_edges a).
Proof.
  unfold outer_edges. destruct a as [|x t]; [simpl; split; [lra|tauto]|].
  destruct (fold_min_max_bounds t x) as [Hle Hall]. cbv zeta.
  destruct (Qeq_bool (fold_left Qmin t x) (fold_left Qmax t x)) eqn:E; cbn [fst snd].
  - split; [lra|]. intros y Hy. destruct (Hall y Hy). lra.
  - apply Qeq_bool_neq in E. split; [lra|exact Hall].
Qed.

(** A value between the outer edges falls in one of the ten bins. *)
Lemma bin_index_bound (lo hi x : Q) :
  lo < hi -> lo <= x <= hi -> (bin_index lo hi x < n_bins)%nat.
Proof.
  intros Hlt Hx. unfold bin_index, n_bins. cbv zeta.
  set (q := (x - lo) / (hi - lo) * inject_Z (Z.of_nat 10)).
  assert (q <= inject_Z 10) as Hq.
  { unfold q. simpl inject_Z.
    assert ((x - lo) / (hi - lo) <= 1) as H1
      by (apply Qle_shift_div_r; lra).
    setoid_replace (inject_Z 10) with (1 * inject_Z 10) by ring.
    apply Qmult_le_compat_r; [exact H1|discriminate]. }
  assert (Qfloor q <= 10)%Z as Hf.
  { rewrite <- (Qfloor_Z 10). apply Qfloor_resp_le. exact Hq. }
  destruct (Nat.eqb_spec (Z.to_nat (Qfloor q)) 10); lia.
Qed.

Lemma filter_lt_succ {A : Type} (f : A -> nat) (a : list A) (m : nat) :
  length (filter (fun x => Nat.ltb (f x) (S m)) a)
  = (length (filter (fun x => Nat.ltb (f x) m) a)
     + length (filter (fun x => Nat.eqb (f x) m) a))%nat.
Proof.
  induction a as [|x a IH]; [reflexivity|]. cbn [filter].
  destruct (Nat.ltb_spec (f x) (S m)), (Nat.ltb_spec (f x) m),
    (Nat.eqb_spec (f x) m); cbn [length]; lia.
Qed.

(** The counts of the first [m] bins add up to the number of values that
    fall below bin [m]. *)
Lemma bin_counts_partial (lo hi : Q) (a : list Q) (m : nat) :
  (m <= n_bins)%nat ->
  big_sum m (fun l => nth l (bin_counts lo hi a) 0)
  == inject_Z (Z.of_nat
       (length (filter (fun x => Nat.ltb (bin_index lo hi x) m) a))).
Proof.
  induction m as [|m IH]; intros Hm.
  - assert (filter (fun x => Nat.ltb (bin_index lo hi x) 0) a = []) as ->.
    { induction a as [|x a IHa]; [reflexivity|]. cbn [filter].
      destruct (Nat.ltb_spec (bin_index lo hi x) 0); [lia|exact IHa]. }
    reflexivity.
  - cbn [big_sum]. rewrite IH by lia. rewrite filter_lt_succ.
    rewrite Nat2Z.inj_add, inject_Z_plus.
    apply Qplus_comp; [reflexivity|].
    unfold bin_counts.
    rewrite (nth_indep _ 0
               ((fun j => inject_Z (Z.of_nat
                   (length (filter (fun x => Nat.eqb (bin_index lo hi x) j) a))))
                  0%nat))
      by (rewrite length_map, length_seq; lia).
    rewrite (map_nth (fun j => inject_Z (Z.of_nat
               (length (filter (fun x => Nat.eqb (bin_index lo hi x) j) a))))).
    rewrite seq_nth by lia. reflexivity.
Qed.

Lemma filter_all {A : Type} (p : A -> bool) (a : list A) :
  (forall x, In x a -> p x = true) -> filter p a = a.
Proof.
  induction a as [|x a IH]; intros H; [reflexivity|]. cbn [filter].
  rewrite (H x (or_introl eq_refl)), IH; [reflexivity|].
  intros y Hy. apply H. right. exact Hy.
Qed.

Lemma filter_length_le {A : Type} (p : A -> bool) (a : list A) :
  (length (filter p a) <= length a)%nat.
Proof.
  induction a as [|x a IH]; [apply Nat.le_refl|]. cbn [filter].
  destruct (p x); cbn [length]; lia.
Qed.

Lemma big_sum_bounds (n : nat) (f : nat -> Q) (lo hi : Q) :
  (forall j, (j < n)%nat -> lo <= f j <= hi) ->
  inject_Z (Z.of_nat n) * lo <= big_sum n f
  /\ big_sum n f <= inject_Z (Z.of_nat n) * hi.
Proof.
  induction n as [|n IH]; intros H.
  - simpl. split; ring_simplify; apply Qle_refl.
  - destruct IH as [Hl Hh]; [intros j Hj; apply H; lia|].
    destruct (H n) as [Hln Hhn]; [lia|].
    rewrite Nat2Z.inj_succ. unfold Z.succ. rewrite inject_Z_plus.
    cbn [big_sum]. remember (inject_Z (Z.of_nat n)) as c.
    setoid_replace ((c + inject_Z 1) * lo) with (c * lo + lo)
      by (simpl (inject_Z 1); ring).
    setoid_replace ((c + inject_Z 1) * hi) with (c * hi + hi)
      by (simpl (inject_Z 1); ring).
    split; lra.
Qed.

(** The stability area of at least one value lies between 1 and 10: it is
    the sum of ten cumulative fractions, the last of which is 1. *)
Lemma cdf_area_spec_bounds (values : list Q) :
  values <> [] -> 1 <= cdf_area_spec values <= inject_Z 10.
Proof.
  intros Hne. rewrite cdf_area_spec_fractions.
  destruct (outer_edges_bounds values) as [Hlt Hin].
  set (lo := fst (outer_edges values)) in *.
  set (hi := snd (outer_edges values)) in *.
  set (counts := bin_counts lo hi values).
  assert (Py.sum counts == inject_Z (Z.of_nat (length values))) as Htot.
  { rewrite sum_big_sum.
    replace (length counts) with n_bins
      by (unfold counts, bin_counts; rewrite length_map, length_seq; reflexivity).
    unfold counts. rewrite bin_counts_partial by apply Nat.le_refl.
    rewrite filter_all; [reflexivity|].
    intros x Hx. apply Nat.ltb_lt. apply bin_index_bound; [exact Hlt|].
    apply Hin, Hx. }
  assert (0 < inject_Z (Z.of_nat (length values))) as Hpos.
  { change 0 with (inject_Z 0). rewrite <- Zlt_Qlt.
    destruct values; [congruence|]. simpl. lia. }
  assert (forall j, (j < n_bins)%nat ->
            0 <= big_sum (S j) (fun l => nth l counts 0) / Py.sum counts <= 1) as Hfrac.
  { intros j Hj. unfold counts. rewrite bin_counts_partial by lia.
    fold counts. rewrite Htot. split.
    - apply Qle_shift_div_l; [exact Hpos|]. ring_simplify.
      change 0 with (inject_Z 0). rewrite <- Zle_Qle. lia.
    - apply Qle_shift_div_r; [exact Hpos|]. ring_simplify.
      rewrite <- Zle_Qle. apply inj_le. apply filter_length_le. }
  split.
  - unfold n_bins at 1. cbn [big_sum].
    destruct (big_sum_bounds 9
                (fun j => big_sum (S j) (fun l => nth l counts 0) / Py.sum counts)
                0 1) as [Hl _].
    { intros j Hj. apply Hfrac. unfold n_bins. lia. }
    cbn [big_sum] in Hl.
    assert (big_sum 10 (fun l => nth l counts 0) / Py.sum counts == 1) as Hlast.
    { unfold counts. rewrite (bin_counts_partial lo hi values 10) by apply Nat.le_refl.
      fold counts. rewrite Htot.
      rewrite filter_all.
      - field. lra.
      - intros x Hx. apply Nat.ltb_lt. apply bin_index_bound; [exact Hlt|].
        apply Hin, Hx. }
    cbn [big_sum] in Hlast. rewrite Hlast.
    ring_simplify in Hl. lra.
  - destruct (big_sum_bounds n_bins
                (fun j => big_sum (S j) (fun l => nth l counts 0) / Py.sum counts)
                0 1 Hfrac) as [_ Hh].
    unfold n_bins in Hh at 2. simpl (inject_Z (Z.of_nat 10)) in Hh.
    simpl (inject_Z 10). lra.
Qed.

Lemma ravel_tabulate_nonempty (N : nat) (f : nat -> nat -> Q) :
  (0 < N)%nat -> ravel (tabulate N f) <> [].
Proof.
  intros HN. destruct N as [|N]; [lia|]. unfold tabulate, ravel.
  cbn [seq map concat app]. discriminate.
Qed.

Section StabilityBounds.

Variable argsort : list Z -> list nat.

(** X18. After a successful [fit] on data with at least one row, each
    entry of [Ak] lies between 1 and 10, whatever the trials were; so the
    relative change [(Ab - Aa) / Aa] of [deltaK] never divides by zero. *)
Theorem fit_stability_between_1_and_10 {C : Type} (trials : Z -> Z -> Trial)
  (e e' : engine C) (data : dataset) :
  (0 < shape0 data)%nat ->
  fit argsort trials e data = Ok e' ->
  exists ak, Ak e' = Some ak
    /\ length ak = Z.to_nat (K_ e - L_ e)
    /\ forall i, (i < length ak)%nat ->
         1 <= nth i ak 0 <= inject_Z 10 /\ ~ nth i ak 0 == 0.
Proof.
  intros HN Hfit. apply fit_ok in Hfit as [HLK [mk [-> [Hlen Hall]]]].
  exists (map cdf_area mk). split; [reflexivity|].
  split; [rewrite length_map; exact Hlen|].
  intros i Hi. rewrite length_map in Hi.
  rewrite (nth_indep _ 0 (cdf_area (zeros (shape0 data))))
    by (rewrite length_map; exact Hi).
  rewrite (map_nth cdf_area).
  destruct (consensus_of_shape argsort _ _ _ _ _ (Hall i Hi)) as [f ->].
  rewrite cdf_area_correct.
  pose proof (cdf_area_spec_bounds (ravel (tabulate (shape0 data) f))
                (ravel_tabulate_nonempty _ f HN)) as Hb.
  split; [exact Hb|]. intros E. rewrite E in Hb. destruct Hb as [Hb _].
  apply (Qlt_not_le 0 1); [reflexivity|exact Hb].
Qed.

End StabilityBounds.

(** ** What the stability area is *)

Lemma Qmin_cases (x z : Q) : Qmin x z = x \/ Qmin x z = z.
Proof. unfold Qmin, GenericMinMax.gmin. destruct (x ?= z); auto. Qed.

Lemma Qmax_cases (x z : Q) : Qmax x z = x \/ Qmax x z = z.
Proof. unfold Qmax, GenericMinMax.gmax. destruct (x ?= z); auto. Qed.

Lemma fold_min_in (t : list Q) : forall x, In (fold_left Qmin t x) (x :: t).
Proof.
  induction t as [|z t IH]; intros x; [left; reflexivity|].
  cbn [fold_left]. destruct (IH (Qmin x z)) as [E|Hin].
  - rewrite <- E. destruct (Qmin_cases x z) as [->| ->];
      [left; reflexivity | right; left; reflexivity].
  - right. right. exact Hin.
Qed.

Lemma fold_max_in (t : list Q) : forall x, In (fold_left Qmax t x) (x :: t).
Proof.
  induction t as [|z t IH]; intros x; [left; reflexivity|].
  cbn [fold_left]. destruct (IH (Qmax x z)) as [E|Hin].
  - rewrite <- E. destruct (Qmax_cases x z) as [->| ->];
      [left; reflexivity | right; left; reflexivity].
  - right. right. exact Hin.
Qed.

(** When two values differ, the outer edges are the least and the greatest
    value. *)
Lemma outer_edges_attained (values : list Q) :
  (exists x y, In x values /\ In y values /\ ~ x == y) ->
  In (fst (outer_edges values)) values /\ In (snd (outer_edges values)) values.
Proof.
  intros [x [y [Hx [Hy Hne]]]].
  destruct values as [|v t]; [destruct Hx|].
  destruct (fold_min_max_bounds t v) as [_ Hall].
  unfold outer_edges. cbv zeta.
  destruct (Qeq_bool (fold_left Qmin t v) (fold_left Qmax t v)) eqn:E; cbn [fst snd].
  - exfalso. apply Qeq_bool_iff in E. apply Hne.
    destruct (Hall x Hx), (Hall y Hy). lra.
  - split; [apply fold_min_in | apply fold_max_in].
Qed.

(** When all values are equal, the range is widened to width one around
    them. *)
Lemma outer_edges_constant (values : list Q) (v : Q) :
  In v values ->
  (forall x y, In x values -> In y values -> x == y) ->
  fst (outer_edges values) == v - (1 # 2)
  /\ snd (outer_edges values) == v + (1 # 2).
Proof.
  intros Hv Hsame. destruct values as [|v0 t]; [destruct Hv|].
  pose proof (Hsame _ _ (fold_min_in t v0) Hv) as Hmin.
  pose proof (Hsame _ _ (fold_max_in t v0) Hv) as Hmax.
  unfold outer_edges. cbv zeta.
  destruct (Qeq_bool (fold_left Qmin t v0) (fold_left Qmax t v0)) eqn:E; cbn [fst snd].
  - split; lra.
  - exfalso. apply Qeq_bool_neq in E. apply E. lra.
Qed.

(** Values between 0 and 1 give a range of width at most one. *)
Lemma outer_edges_width (values : list Q) :
  (forall x, In x values -> 0 <= x <= 1) ->
  snd (outer_edges values) - fst (outer_edges values) <= 1.
Proof.
  intros Hunit. destruct values as [|v t]; [simpl; lra|].
  pose proof (Hunit _ (fold_min_in t v)) as Hmin.
  pose proof (Hunit _ (fold_max_in t v)) as Hmax.
  unfold outer_edges. cbv zeta.
  destruct (Qeq_bool (fold_left Qmin t v) (fold_left Qmax t v)) eqn:E; cbn [fst snd].
  - apply Qeq_bool_iff in E. lra.
  - lra.
Qed.

Lemma histogram_bins (values : list Q) :
  snd (histogram values)
  = bin_edges (fst (outer_edges values)) (snd (outer_edges values)).
Proof. unfold histogram. destruct (outer_edges values). reflexivity. Qed.

(** The empirical CDF is the cumulative density times the bin width. *)
Lemma empirical_cdf_scaled (values : list Q) (j : nat) :
  (j < n_bins)%nat ->
  let w := (snd (outer_edges values) - fst (outer_edges values))
           / inject_Z (Z.of_nat n_bins) in
  empirical_cdf (fst (histogram values)) (snd (histogram values)) j
  == cumulative_density (fst (histogram values)) j * w.
Proof.
  intros Hj w. unfold empirical_cdf, cumulative_density.
  rewrite big_sum_scale. apply big_sum_ext. intros l Hl.
  rewrite histogram_bins, bin_width_edges by lia. reflexivity.
Qed.

(** The sum computed by [fit] is the area under the empirical CDF divided
    by the bin width. *)
Lemma area_is_scaled (values : list Q) :
  let w := (snd (outer_edges values) - fst (outer_edges values))
           / inject_Z (Z.of_nat n_bins) in
  cdf_area_spec values * w == area_under_cdf values.
Proof.
  intros w. unfold cdf_area_spec, area_under_cdf.
  pose proof (empirical_cdf_scaled values) as Hs. cbv zeta in Hs. fold w in Hs.
  pose proof (histogram_bins values) as Hb.
  destruct (histogram values) as [hist bins]. cbn [fst snd] in Hs, Hb.
  rewrite big_sum_scale. apply big_sum_ext. intros j Hj.
  rewrite (Hs j Hj). subst bins. rewrite bin_width_edges by exact Hj.
  fold w. ring.
Qed.

(** Every value is counted in one of the ten bins. *)
Lemma bin_counts_total (values : list Q) :
  Py.sum (bin_counts (fst (outer_edges values)) (snd (outer_edges values)) values)
  == inject_Z (Z.of_nat (length values)).
Proof.
  destruct (outer_edges_bounds values) as [Hlt Hin].
  rewrite sum_big_sum.
  replace (length (bin_counts (fst (outer_edges values))
                     (snd (outer_edges values)) values)) with n_bins
    by (unfold bin_counts; rewrite length_map, length_seq; reflexivity).
  rewrite bin_counts_partial by apply Nat.le_refl.
  rewrite filter_all; [reflexivity|].
  intros x Hx. apply Nat.ltb_lt. apply bin_index_bound; [exact Hlt|].
  apply Hin, Hx.
Qed.

(** The densities of the ten bins integrate to one. *)
Lemma density_integrates (values : list Q) :
  values <> [] ->
  empirical_cdf (fst (histogram values)) (snd (histogram values)) (n_bins - 1)
  == 1.
Proof.
  intros Hne. unfold empirical_cdf.
  replace (S (n_bins - 1)) with n_bins by reflexivity.
  pose proof (histogram_density values) as Hd. cbv zeta in Hd.
  pose proof (outer_edges_distinct values) as Hdist.
  pose proof (bin_counts_total values) as Htot.
  set (lo := fst (outer_edges values)) in *.
  set (hi := snd (outer_edges values)) in *.
  set (counts := bin_counts lo hi values) in *.
  assert (0 < Py.sum counts) as Hpos.
  { rewrite Htot. change 0 with (inject_Z 0). rewrite <- Zlt_Qlt.
    destruct values; [congruence|]. simpl. lia. }
  rewrite (big_sum_ext n_bins _ (fun l => nth l counts 0 * / Py.sum counts)).
  - rewrite <- big_sum_scale.
    pose proof (sum_big_sum counts) as Hs.
    replace (length counts) with n_bins in Hs
      by (unfold counts, bin_counts; rewrite length_map, length_seq; reflexivity).
    rewrite <- Hs. field. lra.
  - intros l Hl. rewrite (Hd l Hl).
    change (nth l counts 0 * / Py.sum counts) with (nth l counts 0 / Py.sum counts).
    apply density_times_width; [reflexivity|].
    rewrite histogram_bins. fold lo hi. rewrite bin_width_edges by exact Hl.
    unfold n_bins. simpl. intros E. apply Hdist. fold lo hi.
    assert (hi - lo == 0) as Hz.
    { rewrite <- (Qmult_div_r (hi - lo) (inject_Z 10)) by discriminate.
      rewrite E. ring. }
    lra.
Qed.

Lemma ravel_tabulate_in (N : nat) (f : nat -> nat -> Q) (x : Q) :
  In x (ravel (tabulate N f)) ->
  exists a b, (a < N)%nat /\ (b < N)%nat /\ x = f a b.
Proof.
  unfold ravel, tabulate. intros Hin.
  apply in_concat in Hin as [row [Hrow Hx]].
  apply in_map_iff in Hrow as [a [<- Ha]].
  apply in_map_iff in Hx as [b [<- Hb]].
  apply in_seq in Ha, Hb. exists a, b. repeat split; lia.
Qed.

(** C5. After a successful [fit] on at least one row whose trials draw
    distinct rows, [Ak[i]] is, for the 10-bin histogram of the flattened
    consensus matrix, the sum over the bins of (cumulative density up to that
    bin) times (bin width).  The histogram runs over the range of the values
    (the least and the greatest one when two values differ, widened to width
    one otherwise), its densities integrate to one, and the empirical CDF is
    the cumulative density times the bin width [w]; so [Ak[i]] is not the
    area under the empirical CDF but that area divided by [w]: it lies
    between 1 and 10 and is at least ten times the area. *)
Theorem fit_stability_curve {C : Type} (argsort : list Z -> list nat)
  (trials : Z -> Z -> Trial) (e e' : engine C) (data : dataset) :
  argsort_contract argsort ->
  (0 < shape0 data)%nat ->
  (forall k h, (L_ e <= k < K_ e)%Z -> (0 <= h < H_ e)%Z ->
     NoDup (resampled_indices (trials k h))) ->
  fit argsort trials e data = Ok e' ->
  exists mk ak,
    Mk e' = Some (Arr3 mk) /\ Ak e' = Some ak
    /\ length ak = Z.to_nat (K_ e - L_ e)
    /\ forall i, (i < length ak)%nat ->
         let values := ravel (nth i mk []) in
         let hist := fst (histogram values) in
         let bins := snd (histogram values) in
         let lo := fst (outer_edges values) in
         let hi := snd (outer_edges values) in
         let w := (hi - lo) / inject_Z 10 in
         (forall x, In x values -> 0 <= x <= 1 /\ lo <= x <= hi)
         /\ ((exists x y, In x values /\ In y values /\ ~ x == y) ->
             In lo values /\ In hi values)
         /\ ((forall x y, In x values -> In y values -> x == y) ->
             forall v, In v values -> lo == v - (1 # 2) /\ hi == v + (1 # 2))
         /\ lo < hi /\ hi - lo <= 1
         /\ nth 0 bins 0 == lo /\ nth 10 bins 0 == hi
         /\ (forall j, (j < 10)%nat -> bin_width bins j == w)
         /\ empirical_cdf hist bins 9 == 1
         /\ nth i ak 0 == cdf_area_spec values
         /\ nth i ak 0 * w == area_under_cdf values
         /\ 1 <= nth i ak 0 <= inject_Z 10
         /\ inject_Z 10 * area_under_cdf values <= nth i ak 0.
Proof.
  intros Hsort HN Hnd Hfit.
  apply fit_ok in Hfit as [HLK [mk [-> [Hlen Hall]]]].
  exists mk, (map cdf_area mk).
  split; [reflexivity|]. split; [reflexivity|].
  split; [rewrite length_map; exact Hlen|].
  intros i Hi. rewrite length_map in Hi. cbv zeta.
  pose proof (Hall i Hi) as Hcons.
  rewrite (nth_indep mk [] (zeros (shape0 data))) by exact Hi.
  set (m := nth i mk (zeros (shape0 data))) in *.
  assert (nth i (map cdf_area mk) 0 == cdf_area_spec (ravel m)) as HAk.
  { rewrite (nth_indep _ 0 (cdf_area (zeros (shape0 data))))
      by (rewrite length_map; exact Hi).
    rewrite (map_nth cdf_area). apply cdf_area_correct. }
  destruct (consensus_of_shape argsort _ _ _ _ _ Hcons) as [f Hf].
  assert (forall x, In x (ravel m) -> 0 <= x <= 1) as Hunit.
  { intros x Hx. rewrite Hf in Hx.
    apply ravel_tabulate_in in Hx as [a [b [Ha [Hb ->]]]].
    assert (forall h, (0 <= h < H_ e)%Z ->
              NoDup (resampled_indices (trials (L_ e + Z.of_nat i)%Z h))) as Hnd'
      by (intros h Hh; apply Hnd; [lia|exact Hh]).
    destruct (consensus_of_props argsort Hsort _ _ _ _ _ Hnd' Hcons a b Ha Hb)
      as [_ [_ Hb01]].
    rewrite Hf, entry_tabulate in Hb01 by assumption. exact Hb01. }
  assert (ravel m <> []) as Hne
    by (rewrite Hf; apply ravel_tabulate_nonempty; exact HN).
  destruct (outer_edges_bounds (ravel m)) as [Hlt Hin].
  pose proof (outer_edges_width (ravel m) Hunit) as Hwidth.
  destruct (histogram_shape (ravel m)) as [_ [_ [H0 H10]]].
  pose proof (cdf_area_spec_bounds (ravel m) Hne) as Hbounds.
  pose proof (area_is_scaled (ravel m)) as Harea. cbv zeta in Harea.
  change (inject_Z (Z.of_nat n_bins)) with (inject_Z 10) in Harea.
  set (lo := fst (outer_edges (ravel m))) in *.
  set (hi := snd (outer_edges (ravel m))) in *.
  split; [intros x Hx; split; [apply Hunit, Hx | apply Hin, Hx]|].
  split; [apply outer_edges_attained|].
  split; [intros Hsame v Hv; apply outer_edges_constant; assumption|].
  split; [exact Hlt|]. split; [exact Hwidth|].
  split; [exact H0|]. split; [unfold n_bins in H10; rewrite H10; reflexivity|].
  split.
  { intros j Hj. rewrite histogram_bins. apply bin_width_edges. exact Hj. }
  split; [exact (density_integrates (ravel m) Hne)|].
  split; [exact HAk|].
  split; [rewrite HAk; exact Harea|].
  split; [rewrite HAk; exact Hbounds|].
  rewrite HAk, <- Harea.
  setoid_replace (inject_Z 10 * (cdf_area_spec (ravel m) * ((hi - lo) / inject_Z 10)))
    with (cdf_area_spec (ravel m) * (hi - lo)) by (field; discriminate).
  destruct Hbounds as [Hb1 _].
  setoid_replace (cdf_area_spec (ravel m))
    with (cdf_area_spec (ravel m) * 1) at 2 by ring.
  apply Qmult_le_l; [lra|exact Hwidth].
Qed.

(** ** The selected count is never the last candidate *)

(** X19. After a successful [fit] over at least two candidate counts,
    [bestK] is at most [K - 2]: [deltaK] has one entry fewer than there are
    candidates, so the greatest candidate [K - 1] is never selected. *)
Theorem fit_best_k_never_last {C : Type} (argsort : list Z -> list nat)
  (trials : Z -> Z -> Trial) (e e' : engine C) (data : dataset) :
  (L_ e + 2 <= K_ e)%Z ->
  fit argsort trials e data = Ok e' ->
  exists dk b,
    deltaK e' = Some dk /\ bestK e' = Some b
    /\ length dk = Z.to_nat (K_ e - L_ e - 1)
    /\ (L_ e <= b <= K_ e - 2)%Z.
Proof.
  intros HLK Hfit. apply fit_ok in Hfit as [_ [mk [-> [Hlen _]]]].
  cbn [deltaK bestK].
  set (dk := delta_curve (L_ e) (K_ e) (map cdf_area mk)).
  assert (length dk = Z.to_nat (K_ e - L_ e - 1)) as Hdk
    by (apply delta_curve_length; rewrite length_map; exact Hlen).
  exists dk, (best_k (L_ e) dk).
  split; [reflexivity|]. split; [reflexivity|]. split; [exact Hdk|].
  unfold best_k.
  destruct (Nat.ltb_spec 0 (length dk)) as [Hpos|Hz]; [|lia].
  assert (dk <> []) as Hne by (intros E; rewrite E in Hpos; simpl in Hpos; lia).
  destruct (argmax_spec dk Hne) as [Hlt _]. lia.
Qed.

(** ** Further concrete runs *)

Lemma trial4_contract :
  trial_contract 4 Demo.trial4
  /\ (2 <= length (resampled_indices Demo.trial4))%nat.
Proof.
  unfold trial_contract, Demo.trial4; simpl.
  repeat split; repeat constructor; simpl; intuition lia.
Defined.

Lemma cfg_fitted4_ok :
  fit_from_cfg stable_argsort Demo.trials4 Demo.fresh4 Demo.data4
  = Ok Demo.cfg_fitted4.
Proof.
  destruct (fit_from_cfg_total stable_argsort stable_argsort_contract
              Demo.trials4 Demo.fresh4 Demo.data4) as [e' He].
  - intros h _. apply trial4_contract.
  - unfold Demo.cfg_fitted4. rewrite He. reflexivity.
Defined.

Lemma refitted3_ok :
  fit_from_cfg stable_argsort Scenes.cfg_trials3 Demo.fitted3 Demo.data3
  = Ok Scenes.refitted3.
Proof.
  destruct (fit_from_cfg_total stable_argsort stable_argsort_contract
              Scenes.cfg_trials3 Demo.fitted3 Demo.data3) as [e' He].
  - intros h _. apply trials3_contract.
  - unfold Scenes.refitted3. rewrite He. reflexivity.
Defined.

Lemma fit_from_cfg_consensus_witness :
  X Demo.cfg_fitted4 = Some Demo.data4
  /\ Ak Demo.cfg_fitted4 = None /\ deltaK Demo.cfg_fitted4 = None
  /\ bestK Demo.cfg_fitted4 = None
  /\ exists m, Mk Demo.cfg_fitted4 = Some (Arr2 m)
       /\ forall a b, (a < 4)%nat -> (b < 4)%nat ->
            entry m a b == entry m b a /\ entry m a a == 1
            /\ 0 <= entry m a b <= 1.
Proof.
  apply (fit_from_cfg_consensus stable_argsort stable_argsort_contract
           Demo.trials4 Demo.fresh4 Demo.cfg_fitted4 Demo.data4).
  - intros h _. apply trial4_contract.
  - exact cfg_fitted4_ok.
Defined.

Lemma fit_from_cfg_degenerate_witness :
  fit_from_cfg stable_argsort (Demo.trials_one_row 0) Demo.fresh4 Demo.data4
  = Raise IndexError
  /\ exists e', fit_from_cfg stable_argsort Demo.trials4 Demo.fresh4 Demo.data4
                = Ok e'.
Proof.
  split.
  - apply (fit_from_cfg_degenerate stable_argsort stable_argsort_contract
             (Demo.trials_one_row 0) Demo.fresh4 Demo.data4).
    + intros h _. unfold trial_contract, Demo.trials_one_row; simpl.
      repeat split; repeat constructor; simpl; intuition lia.
    + exists 0%Z. simpl. lia.
  - apply (fit_from_cfg_degenerate stable_argsort stable_argsort_contract
             Demo.trials4 Demo.fresh4 Demo.data4).
    + intros h _. apply trial4_contract.
    + intros h _. apply trial4_contract.
Defined.

Lemma fit_without_trials_identity_witness :
  exists e' mk,
    fit stable_argsort Demo.trials3 Scenes.no_trials Demo.data3 = Ok e'
    /\ Mk e' = Some (Arr3 mk)
    /\ length mk = 3%nat
    /\ forall k, (2 <= k < 5)%Z ->
       forall a b, (a < 3)%nat -> (b < 3)%nat ->
         entry (nth (Z.to_nat (k - 2)) mk []) a b
         == if Nat.eqb a b then 1 else 0.
Proof.
  apply (fit_without_trials_identity stable_argsort Demo.trials3 Scenes.no_trials
           Demo.data3); simpl; lia.
Defined.

Lemma fit_consensus_is_ratio_witness :
  exists mk, Mk Demo.fitted3 = Some (Arr3 mk)
    /\ forall k, (2 <= k < 5)%Z ->
       forall a b, (a < 3)%nat -> (b < 3)%nat -> a <> b ->
         entry (nth (Z.to_nat (k - 2)) mk []) a b
         == Counts.count_trials
              (fun h => Counts.clustered_together (Demo.trials3 k h) k a b) 2
            / (Counts.count_trials
                 (fun h => Counts.drawn_together (Demo.trials3 k h) a b) 2 + eps).
Proof.
  apply (fit_consensus_is_ratio stable_argsort Demo.trials3 Demo.fresh3
           Demo.fitted3 Demo.data3).
  - exact stable_argsort_contract.
  - intros k h _ _. apply trials3_contract.
  - exact fitted3_ok.
Defined.

Lemma fit_from_cfg_consensus_is_ratio_witness :
  exists m, Mk Demo.cfg_fitted4 = Some (Arr2 m)
    /\ forall a b, (a < 4)%nat -> (b < 4)%nat -> a <> b ->
         entry m a b
         == Counts.count_trials
              (fun h => Counts.clustered_together (Demo.trials4 h)
                          (n_unique (Mh (Demo.trials4 h))) a b) 1
            / (Counts.count_trials
                 (fun h => Counts.drawn_together (Demo.trials4 h) a b) 1 + eps).
Proof.
  apply (fit_from_cfg_consensus_is_ratio stable_argsort Demo.trials4 Demo.fresh4
           Demo.cfg_fitted4 Demo.data4).
  - exact stable_argsort_contract.
  - intros h _. apply trial4_contract.
  - exact cfg_fitted4_ok.
Defined.

Lemma predict_after_both_fits_witness :
  exists b,
    bestK Demo.fitted3 = Some b /\ bestK Scenes.refitted3 = Some b /\ (2 <= b)%Z
    /\ ((b - 2 < 3)%Z ->
        exists row, length row = 3%nat
          /\ predict Scenes.one_label Scenes.refitted3
             = Ok (Scenes.one_label b (Arr1 row)))
    /\ ((3 <= b - 2)%Z ->
        predict Scenes.one_label Scenes.refitted3 = Raise IndexError).
Proof.
  apply (predict_after_both_fits stable_argsort Demo.trials3 Scenes.cfg_trials3
           Demo.fresh3 Demo.fitted3 Scenes.refitted3 Demo.data3 Demo.data3
           Scenes.one_label).
  - exact fitted3_ok.
  - exact refitted3_ok.
Defined.

Lemma run_monti_outcomes_witness :
  run_monti stable_argsort Demo.trials3 Scenes.one_label tt Demo.data3 2 5 2
    (3 # 2) tt = Raise AssertionError
  /\ run_monti stable_argsort Demo.trials3 Scenes.one_label tt Demo.data3 3 2 2
       (1 # 2) tt = Raise ValueError
  /\ run_monti stable_argsort Demo.trials3 Scenes.one_label tt Demo.data3 2 2 2
       (1 # 2) tt = Raise IndexError
  /\ exists b D, (2 <= b < 5)%Z
       /\ run_monti stable_argsort Demo.trials3 Scenes.one_label tt Demo.data3
            2 5 2 (1 # 2) tt
          = Ok (Demo.data3, Scenes.one_label b (Arr2 D), tt).
Proof.
  split; [|split; [|split]].
  - apply (run_monti_outcomes stable_argsort stable_argsort_contract Demo.trials3
             Scenes.one_label tt Demo.data3 2 5 2 (3 # 2) tt). lra.
  - apply (run_monti_outcomes stable_argsort stable_argsort_contract Demo.trials3
             Scenes.one_label tt Demo.data3 3 2 2 (1 # 2) tt); [lra|lia].
  - apply (run_monti_outcomes stable_argsort stable_argsort_contract Demo.trials3
             Scenes.one_label tt Demo.data3 2 2 2 (1 # 2) tt); [lra|reflexivity].
  - apply (run_monti_outcomes stable_argsort stable_argsort_contract Demo.trials3
             Scenes.one_label tt Demo.data3 2 5 2 (1 # 2) tt); [lra|lia|].
    intros k h _ _. apply trials3_contract.
Defined.

Lemma fit_stability_between_1_and_10_witness :
  exists ak, Ak Demo.fitted3 = Some ak
    /\ length ak = 3%nat
    /\ forall i, (i < length ak)%nat ->
         1 <= nth i ak 0 <= inject_Z 10 /\ ~ nth i ak 0 == 0.
Proof.
  apply (fit_stability_between_1_and_10 stable_argsort Demo.trials3 Demo.fresh3
           Demo.fitted3 Demo.data3).
  - simpl. lia.
  - exact fitted3_ok.
Defined.

Lemma tuned4_ok :
  fit_from_cfg stable_argsort Demo.trials4 Scenes.fresh_tuned4 Demo.data4
  = Ok Scenes.tuned4.
Proof.
  destruct (fit_from_cfg_total stable_argsort stable_argsort_contract
              Demo.trials4 Scenes.fresh_tuned4 Demo.data4) as [e' He].
  - intros h _. apply trial4_contract.
  - unfold Scenes.tuned4. rewrite He. reflexivity.
Defined.

Lemma tuned4_state :
  Mk Scenes.tuned4 = Some Scenes.mk_tuned4
  /\ X Scenes.tuned4 = Some Demo.data4
  /\ L_ Scenes.tuned4 = 2%Z /\ K_ Scenes.tuned4 = 4%Z.
Proof.
  unfold Scenes.mk_tuned4.
  destruct (fit_from_cfg_ok stable_argsort Demo.trials4 Scenes.fresh_tuned4
              Scenes.tuned4 Demo.data4 tuned4_ok) as [M [Is [_ ->]]].
  repeat split; reflexivity.
Defined.

Lemma consensus3_ok :
  consensus_of stable_argsort 3 2 2 (Demo.trials3 2) = Ok Scenes.consensus3.
Proof.
  assert (is_ok (consensus_of stable_argsort 3 2 2 (Demo.trials3 2)) = true) as H
    by (vm_compute; reflexivity).
  unfold Scenes.consensus3.
  destruct (consensus_of stable_argsort 3 2 2 (Demo.trials3 2));
    [reflexivity | discriminate].
Defined.

Lemma fit_stability_curve_witness :
  exists mk ak,
    Mk Demo.fitted3 = Some (Arr3 mk) /\ Ak Demo.fitted3 = Some ak
    /\ length ak = 3%nat
    /\ nth 0 mk [] = Scenes.consensus3
    /\ nth 0 ak 0 == 5
    /\ area_under_cdf (ravel (nth 0 mk [])) == 1 # 2
    /\ forall i, (i < length ak)%nat ->
         let values := ravel (nth i mk []) in
         let hist := fst (histogram values) in
         let bins := snd (histogram values) in
         let lo := fst (outer_edges values) in
         let hi := snd (outer_edges values) in
         let w := (hi - lo) / inject_Z 10 in
         (forall x, In x values -> 0 <= x <= 1 /\ lo <= x <= hi)
         /\ ((exists x y, In x values /\ In y values /\ ~ x == y) ->
             In lo values /\ In hi values)
         /\ ((forall x y, In x values -> In y values -> x == y) ->
             forall v, In v values -> lo == v - (1 # 2) /\ hi == v + (1 # 2))
         /\ lo < hi /\ hi - lo <= 1
         /\ nth 0 bins 0 == lo /\ nth 10 bins 0 == hi
         /\ (forall j, (j < 10)%nat -> bin_width bins j == w)
         /\ empirical_cdf hist bins 9 == 1
         /\ nth i ak 0 == cdf_area_spec values
         /\ nth i ak 0 * w == area_under_cdf values
         /\ 1 <= nth i ak 0 <= inject_Z 10
         /\ inject_Z 10 * area_under_cdf values <= nth i ak 0.
Proof.
  destruct (fit_stability_curve stable_argsort Demo.trials3 Demo.fresh3
              Demo.fitted3 Demo.data3 stable_argsort_contract)
    as [mk [ak [HMk [HAk [Hlen Hall]]]]].
  - simpl. lia.
  - intros k h _ _. apply trials3_contract.
  - exact fitted3_ok.
  - destruct (fit_slice stable_argsort Demo.trials3 Demo.fresh3 Demo.fitted3
                Demo.data3 fitted3_ok) as [mk' [HMk' [_ Hslice]]].
    rewrite HMk in HMk'. inversion HMk'; subst mk'. clear HMk'.
    assert (nth 0 mk [] = Scenes.consensus3) as H0.
    { assert (consensus_of stable_argsort 3 2 2 (Demo.trials3 2)
              = Ok (nth 0 mk [])) as Hs by (apply (Hslice 2%Z); simpl; lia).
      rewrite consensus3_ok in Hs. inversion Hs. reflexivity. }
    assert (cdf_area_spec (ravel Scenes.consensus3) == 5) as Hfive
      by (apply Qeq_bool_eq; vm_compute; reflexivity).
    assert ((snd (outer_edges (ravel Scenes.consensus3))
             - fst (outer_edges (ravel Scenes.consensus3))) / inject_Z 10
            == 1 # 10) as Hwidth
      by (apply Qeq_bool_eq; vm_compute; reflexivity).
    destruct (Hall 0%nat) as [_ [_ [_ [_ [_ [_ [_ [_ [_ [E [Ew _]]]]]]]]]]];
      [rewrite Hlen; simpl; lia|].
    rewrite H0 in E, Ew. rewrite Hfive in E. rewrite E, Hwidth in Ew.
    exists mk, ak. split; [exact HMk|]. split; [exact HAk|].
    split; [exact Hlen|]. split; [exact H0|].
    split; [exact E|].
    split; [rewrite H0, <- Ew; reflexivity|exact Hall].
Defined.

(** On three rows without any trial every consensus matrix is the
    identity: six values 0 and three values 1.  [Ak[0]] is 7, the area under
    the empirical CDF of these values is 7/10. *)
Lemma fit_stability_not_area :
  fit stable_argsort Demo.trials3 Scenes.no_trials Demo.data3
  = Ok Scenes.fitted_no_trials
  /\ exists mk ak,
       Mk Scenes.fitted_no_trials = Some (Arr3 mk)
       /\ Ak Scenes.fitted_no_trials = Some ak
       /\ map (map Qred) (nth 0 mk []) = [[1; 0; 0]; [0; 1; 0]; [0; 0; 1]]
       /\ nth 0 ak 0 == 7
       /\ area_under_cdf (ravel (nth 0 mk [])) == 7 # 10
       /\ ~ nth 0 ak 0 == area_under_cdf (ravel (nth 0 mk [])).
Proof.
  split; [vm_compute; reflexivity|].
  eexists. eexists.
  split; [vm_compute; reflexivity|].
  split; [vm_compute; reflexivity|].
  split; [vm_compute; reflexivity|].
  assert (forall a b : Q, Qeq_bool a b = true -> a == b) as Hq
    by (intros a b; apply Qeq_bool_eq).
  split; [apply Hq; vm_compute; reflexivity|].
  split; [apply Hq; vm_compute; reflexivity|].
  intros E. apply Qeq_bool_neq in E; [exact E|]. vm_compute. reflexivity.
Qed.

Lemma fit_value_error_iff_witness :
  fit stable_argsort Demo.trials3 Scenes.reversed_range Demo.data3
  = Raise ValueError
  /\ fit stable_argsort Demo.trials3 Demo.fresh3 Demo.data3 <> Raise ValueError.
Proof.
  split.
  - apply (proj1 (fit_value_error_iff stable_argsort Demo.trials3
                    Scenes.reversed_range Demo.data3)).
    simpl. lia.
  - intros E.
    destruct (proj2 (fit_value_error_iff stable_argsort Demo.trials3
                       Demo.fresh3 Demo.data3)) as [Hiff _].
    + intros k h _ _. apply trials3_contract.
    + apply Hiff in E. simpl in E. lia.
Defined.

Lemma predictions_require_fit_witness :
  predict Scenes.one_label Demo.fresh3 = Raise AssertionError
  /\ predict_hierarchical Scenes.labels_upto Demo.fresh3 = Raise AssertionError
  /\ predict_from_tuned Scenes.labels_upto Scenes.n_groups Demo.fresh3
     = Throws AssertionError
  /\ predict_data (fun _ _ => []) Demo.fresh3 Demo.data3 = Raise AssertionError.
Proof.
  apply (predictions_require_fit tt 2 5 2 (1 # 2) Demo.fresh3 Scenes.one_label
           Scenes.labels_upto Scenes.n_groups (fun _ _ => []) Demo.data3).
  reflexivity.
Defined.

Lemma predict_hierarchical_after_fit_witness :
  exists b mk,
    bestK Demo.fitted3 = Some b /\ (2 <= b < 5)%Z
    /\ Mk Demo.fitted3 = Some (Arr3 mk)
    /\ let m := nth (Z.to_nat (b - 2)) mk [] in
       let D := map (map (fun x => 1 - x)) m in
       predict_hierarchical Scenes.fails_at_three Demo.fitted3
       = Scenes.fails_at_three b Complete (Arr2 D)
       /\ predict Scenes.one_label Demo.fitted3
          = Ok (Scenes.one_label b (Arr2 D))
       /\ forall a c, (a < 3)%nat -> (c < 3)%nat ->
            entry D a c == 1 - entry m a c
            /\ entry D a c == entry D c a /\ entry D a a == 0
            /\ 0 <= entry D a c <= 1.
Proof.
  apply (predict_hierarchical_after_fit stable_argsort stable_argsort_contract
           Demo.trials3 Demo.fresh3 Demo.fitted3 Demo.data3 Scenes.one_label
           Scenes.fails_at_three).
  - intros k h _ _. apply trials3_contract.
  - simpl. lia.
  - exact fitted3_ok.
Defined.

Lemma predict_after_fit_witness :
  exists b mk,
    bestK Demo.fitted3 = Some b /\ (2 <= b < 5)%Z
    /\ Mk Demo.fitted3 = Some (Arr3 mk)
    /\ let m := nth (Z.to_nat (b - 2)) mk [] in
       let D := map (map (fun x => 1 - x)) m in
       predict Scenes.one_label Demo.fitted3
       = Ok (Scenes.one_label b (Arr2 D))
       /\ predict_data (fun _ _ => []) Demo.fitted3 Demo.data3 = Ok []
       /\ forall a c, (a < 3)%nat -> (c < 3)%nat ->
            entry D a c == 1 - entry m a c
            /\ entry D a c == entry D c a /\ entry D a a == 0
            /\ 0 <= entry D a c <= 1.
Proof.
  apply (predict_after_fit stable_argsort stable_argsort_contract Demo.trials3
           Demo.fresh3 Demo.fitted3 Demo.data3 Scenes.one_label
           (fun _ _ => []) Demo.data3).
  - intros k h _ _. apply trials3_contract.
  - simpl. lia.
  - exact fitted3_ok.
Defined.

Lemma predictions_on_empty_range_witness :
  exists e',
    fit stable_argsort Demo.trials3 Demo.empty_range Demo.data3 = Ok e'
    /\ Mk e' = Some (Arr3 []) /\ bestK e' = Some 2%Z
    /\ predict Scenes.one_label e' = Raise IndexError
    /\ predict_hierarchical Scenes.labels_upto e' = Raise IndexError
    /\ predict_from_tuned Scenes.labels_upto Scenes.n_groups e'
       = Throws ValueError
    /\ predict_data (fun _ _ => []) e' Demo.data3 = Ok [].
Proof.
  apply (predictions_on_empty_range stable_argsort Demo.trials3 Demo.empty_range
           Demo.data3 Scenes.one_label Scenes.labels_upto Scenes.n_groups
           (fun _ _ => []) Demo.data3).
  reflexivity.
Defined.

Lemma predict_from_tuned_best_silhouette_witness :
  (exists k,
     (2 <= k < 4)%Z
     /\ predict_from_tuned Scenes.labels_upto Scenes.n_groups Scenes.tuned4
        = Returns [0; 1; k - 1; 0]%Z
     /\ (forall k', (2 <= k' < 4)%Z ->
           inject_Z (n_unique [0; 1; k' - 1; 0]%Z)
           <= inject_Z (n_unique [0; 1; k - 1; 0]%Z))
     /\ (forall k', (2 <= k' < k)%Z ->
           inject_Z (n_unique [0; 1; k' - 1; 0]%Z)
           < inject_Z (n_unique [0; 1; k - 1; 0]%Z)))
  /\ predict_from_tuned Scenes.fails_at_three Scenes.n_groups Scenes.tuned4
     = ThrowsFromCall ValueError.
Proof.
  destruct tuned4_state as [HMk [HX [HL HK]]].
  assert (forall k, (2 <= k < 4)%Z -> k = 2%Z \/ k = 3%Z) as Hcases
    by (intros k Hk; lia).
  split.
  - pose proof (proj1 (predict_from_tuned_best_silhouette Scenes.tuned4
                         Scenes.labels_upto Scenes.n_groups Scenes.mk_tuned4
                         Demo.data4 (fun k => [0; 1; k - 1; 0]%Z)
                         (fun k => inject_Z (n_unique [0; 1; k - 1; 0]%Z))
                         HMk HX)) as Hret.
    rewrite HL, HK in Hret. apply Hret; [lia|].
    intros k Hk. split; [reflexivity|].
    destruct (Hcases k Hk) as [-> | ->]; reflexivity.
  - pose proof (proj2 (predict_from_tuned_best_silhouette Scenes.tuned4
                         Scenes.fails_at_three Scenes.n_groups Scenes.mk_tuned4
                         Demo.data4 (fun k => [0; 1; k - 1; 0]%Z)
                         (fun k => inject_Z (n_unique [0; 1; k - 1; 0]%Z))
                         HMk HX)) as Hraise.
    rewrite HL, HK in Hraise. apply (Hraise 3%Z ValueError); [lia| |].
    + intros k' Hk'. replace k' with 2%Z by lia. split; reflexivity.
    + left. reflexivity.
Defined.

Lemma predict_from_tuned_needs_data_witness :
  X Demo.fitted3 = None
  /\ predict_from_tuned Scenes.labels_upto Scenes.n_groups Demo.fitted3
     <> Throws AssertionError
  /\ forall ls,
       predict_from_tuned Scenes.labels_upto Scenes.n_groups Demo.fitted3
       <> Returns ls.
Proof.
  apply (predict_from_tuned_needs_data stable_argsort tt 2 5 2 (1 # 2)
           Demo.trials3 Demo.data3 Demo.fresh3 Demo.fitted3 Scenes.labels_upto
           Scenes.n_groups).
  - reflexivity.
  - exact fitted3_ok.
  - lia.
Defined.

Lemma run_monti_hierarchical_outcomes_witness :
  run_monti_hierarchical stable_argsort Demo.trials3 Scenes.labels_upto tt
    Demo.data3 2 2 2 (1 # 2) tt = Raise IndexError
  /\ exists b m,
       (2 <= b < 5)%Z
       /\ consensus_of stable_argsort 3 2 b (Demo.trials3 b) = Ok m
       /\ let D := Arr2 (map (map (fun x => 1 - x)) m) in
          run_monti stable_argsort Demo.trials3 Scenes.one_label tt Demo.data3
            2 5 2 (1 # 2) tt
          = Ok (Demo.data3, Scenes.one_label b D, tt)
          /\ run_monti_hierarchical stable_argsort Demo.trials3
               Scenes.labels_upto tt Demo.data3 2 5 2 (1 # 2) tt
             = Ok (Demo.data3, [0; 1; b - 1; 0]%Z, tt).
Proof.
  split.
  - apply (run_monti_hierarchical_outcomes stable_argsort stable_argsort_contract
             Demo.trials3 Scenes.one_label Scenes.labels_upto tt Demo.data3
             2 2 2 (1 # 2) tt); [lra|reflexivity].
  - apply (run_monti_hierarchical_outcomes stable_argsort stable_argsort_contract
             Demo.trials3 Scenes.one_label Scenes.labels_upto tt Demo.data3
             2 5 2 (1 # 2) tt); [lra|lia|].
    intros k h _ _. apply trials3_contract.
Defined.

Lemma with_metrics_mean_witness :
  (exists avgs,
     with_metrics [Scenes.n_labels; Scenes.n_groups] Scenes.all_runs_return 2
     = Ok (Some avgs)
     /\ length avgs = 2%nat
     /\ forall j, (j < 2)%nat ->
          nth j avgs 0
          == big_sum 2
               (fun r => metric_value Scenes.all_runs_return
                           (nth j [Scenes.n_labels; Scenes.n_groups]
                              (fun _ _ => Ok 0))
                           (Z.of_nat r))
             / inject_Z 2)
  /\ with_metrics [Scenes.n_labels; Scenes.n_groups] Scenes.second_run_fails 2
     = Raise IndexError
  /\ with_metrics [Scenes.n_labels; Scenes.n_groups]
       Scenes.second_run_one_group 2
     = Raise ValueError.
Proof.
  assert (forall (test : Z -> result (dataset * list Z * unit)) r,
            (0 <= r < 1)%Z -> test 0%Z = Ok (Demo.data3, [0; 0; 1]%Z, tt) ->
            run_measured [Scenes.n_labels; Scenes.n_groups] test r) as Hfirst.
  { intros test r Hr H0. replace r with 0%Z by lia.
    exists Demo.data3, [0; 0; 1]%Z, tt. split; [exact H0|].
    intros metric [<-|[<-|[]]]; reflexivity. }
  split; [|split].
  - apply (with_metrics_mean [Scenes.n_labels; Scenes.n_groups]
             Scenes.all_runs_return 2); [lia|].
    intros r Hr. exists Demo.data3, [r; 0; 1]%Z, tt. split; [reflexivity|].
    assert (r = 0 \/ r = 1)%Z as [-> | ->] by lia;
      intros metric [<-|[<-|[]]]; reflexivity.
  - apply (proj1 (proj2 (with_metrics_mean [Scenes.n_labels; Scenes.n_groups]
                           Scenes.second_run_fails 2 eq_refl)) 1%Z IndexError);
      [lia| |reflexivity].
    intros r' Hr'. apply Hfirst; [exact Hr'|reflexivity].
  - apply (proj2 (proj2 (with_metrics_mean [Scenes.n_labels; Scenes.n_groups]
                           Scenes.second_run_one_group 2 eq_refl))
             1%Z Demo.data3 [0; 0; 0]%Z tt [Scenes.n_labels] Scenes.n_groups []
             ValueError);
      [lia| |reflexivity|reflexivity| |reflexivity].
    + intros r' Hr'. apply Hfirst; [exact Hr'|reflexivity].
    + intros m [<-|[]]. reflexivity.
Defined.

Lemma run_monti_decorated_outcomes_witness :
  run_monti_decorated stable_argsort [Scenes.n_labels; Scenes.first_label]
    Scenes.runs3 (fun _ => Scenes.one_label) tt Demo.data3 2 2 2 (1 # 2) tt
  = Raise IndexError
  /\ exists avgs,
       run_monti_decorated stable_argsort [Scenes.n_labels; Scenes.first_label]
         Scenes.runs3 (fun _ => Scenes.one_label) tt Demo.data3 2 5 2 (1 # 2) tt
       = Ok (Some avgs)
       /\ length avgs = 2%nat.
Proof.
  split.
  - apply (run_monti_decorated_outcomes stable_argsort
             [Scenes.n_labels; Scenes.first_label] Scenes.runs3
             (fun _ => Scenes.one_label) tt Demo.data3 2 2 2 (1 # 2) tt
             stable_argsort_contract); [lra|reflexivity].
  - destruct (proj2 (proj2 (proj2
               (run_monti_decorated_outcomes stable_argsort
                  [Scenes.n_labels; Scenes.first_label] Scenes.runs3
                  (fun _ => Scenes.one_label) tt Demo.data3 2 5 2 (1 # 2) tt
                  stable_argsort_contract))))
      as [_ Hmeans].
    + lra.
    + lia.
    + intros r k h _ _ _. apply trials3_contract.
    + destruct Hmeans as [avgs [Hrun [Hlen _]]].
      * intros r labels _ _ metric [<-|[<-|[]]]; reflexivity.
      * exists avgs. split; [exact Hrun|exact Hlen].
Defined.

Lemma fit_best_k_never_last_witness :
  exists dk b,
    deltaK Demo.fitted3 = Some dk /\ bestK Demo.fitted3 = Some b
    /\ length dk = 2%nat /\ (2 <= b <= 3)%Z.
Proof.
  apply (fit_best_k_never_last stable_argsort Demo.trials3 Demo.fresh3
           Demo.fitted3 Demo.data3).
  - simpl. lia.
  - exact fitted3_ok.
Defined.
